(** * go-zstd-compressor: the tar packer/unpacker and its path sanitizers

    A shallow embedding of [main.go]: the path sanitizers
    ([sanitizeTarPath], [sanitizeExtractPath], [sanitizeDirectoryName]),
    the extraction loop of [decompressFile], the packing walk of
    [addToTar] / [compressFiles] and the guard of [handleCompress].

    Go strings are byte strings; they are modelled by [string], whose
    characters are the 256 values of [ascii].  The host filesystem is a
    finite map from absolute, lexically clean paths to nodes. *)

From Stdlib Require Import ZArith Ascii String List Lia Bool Sorted.
From stdpp Require Import gmap strings list pretty.

Local Open Scope string_scope.
Local Open Scope Z_scope.

(** ** The Go [strings] package, as far as [main.go] uses it *)

Module GoStrings.

(** [s[n:]] *)
Fixpoint sliceFrom (n : nat) (s : string) : string :=
  match n, s with
  | O, _ => s
  | S _, EmptyString => EmptyString
  | S n', String _ s' => sliceFrom n' s'
  end.

(** [s[:n]] *)
Fixpoint sliceTo (n : nat) (s : string) : string :=
  match n, s with
  | O, _ => EmptyString
  | S _, EmptyString => EmptyString
  | S n', String c s' => String c (sliceTo n' s')
  end.

(** [strings.IndexByte(s, c) >= 0] *)
Fixpoint ContainsByte (s : string) (c : ascii) : bool :=
  match s with
  | EmptyString => false
  | String d s' => Ascii.eqb c d || ContainsByte s' c
  end.

Fixpoint HasPrefix (s prefix : string) {struct prefix} : bool :=
  match prefix, s with
  | EmptyString, _ => true
  | String _ _, EmptyString => false
  | String p prefix', String c s' => Ascii.eqb c p && HasPrefix s' prefix'
  end.

Fixpoint Contains (s substr : string) : bool :=
  match s with
  | EmptyString => HasPrefix EmptyString substr
  | String _ s' => HasPrefix s substr || Contains s' substr
  end.

Fixpoint TrimLeft (s cutset : string) : string :=
  match s with
  | EmptyString => EmptyString
  | String c s' => if ContainsByte cutset c then TrimLeft s' cutset else s
  end.

(** The suffix of [s] is dropped while its bytes are in [cutset]. *)
Fixpoint TrimRight (s cutset : string) : string :=
  match s with
  | EmptyString => EmptyString
  | String c s' =>
      match TrimRight s' cutset with
      | EmptyString => if ContainsByte cutset c then EmptyString else String c EmptyString
      | t => String c t
      end
  end.

Definition Trim (s cutset : string) : string :=
  TrimRight (TrimLeft s cutset) cutset.

Definition HasSuffix (s suffix : string) : bool :=
  HasPrefix (String.rev s) (String.rev suffix).

Definition TrimSuffix (s suffix : string) : string :=
  if HasSuffix s suffix
  then sliceTo (String.length s - String.length suffix) s
  else s.

(** [strings.ReplaceAll(s, old, new)] for one-byte [old] and [new],
    the only way [main.go] and [path/filepath] call it. *)
Fixpoint ReplaceAllByte (s : string) (old new : ascii) : string :=
  match s with
  | EmptyString => EmptyString
  | String c s' =>
      String (if Ascii.eqb c old then new else c) (ReplaceAllByte s' old new)
  end.

(** [regexp.MustCompile(class).ReplaceAllString(s, _)] for a class
    of single ASCII bytes: every byte of the class becomes [_], every
    other byte is copied. *)
Fixpoint ReplaceClass (class : string) (s : string) : string :=
  match s with
  | EmptyString => EmptyString
  | String c s' =>
      String (if ContainsByte class c then "_"%char else c) (ReplaceClass class s')
  end.

(** [strings.Join(elems, sep)] *)
Fixpoint Join (elems : list string) (sep : string) : string :=
  match elems with
  | [] => EmptyString
  | [e] => e
  | e :: rest => e +:+ sep +:+ Join rest sep
  end.

End GoStrings.
Import GoStrings.

(** ** The host *)

(** [filepath.Separator] is ['/'] on Unix hosts and ['\\'] on Windows. *)
Inductive GOOS := Unix | Windows.

Definition Separator (os : GOOS) : ascii :=
  match os with Unix => "/"%char | Windows => "\"%char end.

(** [filepath.FromSlash] *)
Definition FromSlash (os : GOOS) (path : string) : string :=
  match os with
  | Unix => path
  | Windows => ReplaceAllByte path "/"%char (Separator os)
  end.

(** [filepath.ToSlash] *)
Definition ToSlash (os : GOOS) (path : string) : string :=
  match os with
  | Unix => path
  | Windows => ReplaceAllByte path (Separator os) "/"%char
  end.

(** ** The sanitizers of [main.go] *)

(** The bytes of the character class of the two path sanitizers:
    less-than, greater-than, colon, double quote (byte 34), bar,
    question mark and star. *)
Definition invalidChars : string :=
  String "<" (String ">" (String ":" (String "034" (String "|" (String "?" (String "*" EmptyString)))))).

(** The class of [sanitizeDirectoryName] adds both slashes. *)
Definition invalidDirChars : string :=
  invalidChars +:+ "\/".

(** [len(path) >= 2 && path[1] == ':'] *)
Definition hasDrivePrefix (path : string) : bool :=
  (2 <=? String.length path)%nat &&
  match String.get 1 path with
  | Some c => Ascii.eqb c ":"
  | None => false
  end.

Definition sanitizeTarPath (path : string) : string :=
  let path := if hasDrivePrefix path then sliceFrom 2 path else path in
  let path := TrimLeft path "/\" in
  let path := ReplaceAllByte path "\" "/" in
  let path := ReplaceClass invalidChars path in
  path.

Definition sanitizeExtractPath (os : GOOS) (path : string) : string :=
  let path := if hasDrivePrefix path then sliceFrom 2 path else path in
  let path := TrimLeft path "/\" in
  if String.eqb path EmptyString || String.eqb (Trim path ".") EmptyString
  then EmptyString
  else if Contains path ".."
  then EmptyString
  else
    let path := FromSlash os path in
    let path :=
      if Ascii.eqb (Separator os) "\" then ReplaceClass invalidChars path else path in
    path.

Definition sanitizeDirectoryName (name : string) : string :=
  let name := ReplaceClass invalidDirChars name in
  let name := Trim name " ." in
  let name := if String.eqb name EmptyString then "extracted" else name in
  let name := if (100 <? String.length name)%nat then sliceTo 100 name else name in
  name.

(** ** The lexical part of [path/filepath] on a host whose separator is ['/']

    A path is read as its elements, the substrings between separators.
    [Clean] applies the four rewriting rules of its documentation:
    multiple separators become one, [.] elements are dropped, an inner
    [..] is dropped with the element before it, and a [..] that begins
    a rooted path is dropped. *)

Module filepath.

(** [strings.Split(s, "/")] *)
Fixpoint elements (s : string) : list string :=
  match s with
  | EmptyString => [EmptyString]
  | String c s' =>
      if Ascii.eqb c "/" then EmptyString :: elements s'
      else match elements s' with
           | e :: es => String c e :: es
           | [] => [String c EmptyString]
           end
  end.

Definition IsAbs (path : string) : bool := HasPrefix path "/".

(** [out] is the output so far, last element first. *)
Definition cleanStep (rooted : bool) (out : list string) (e : string) : list string :=
  if String.eqb e EmptyString || String.eqb e "." then out
  else if String.eqb e ".." then
    match out with
    | top :: out' => if String.eqb top ".." then e :: out else out'
    | [] => if rooted then [] else [e]
    end
  else e :: out.

Definition Clean (path : string) : string :=
  if String.eqb path EmptyString then "."
  else
    let rooted := IsAbs path in
    let out := rev (fold_left (cleanStep rooted) (elements path) []) in
    let s := (if rooted then "/" else EmptyString) +:+ GoStrings.Join out "/" in
    if String.eqb s EmptyString then "." else s.

(** [filepath.Join(elem...)]: leading empty elements are ignored. *)
Fixpoint Join (elem : list string) : string :=
  match elem with
  | [] => EmptyString
  | e :: rest =>
      if String.eqb e EmptyString then Join rest
      else Clean (GoStrings.Join elem "/")
  end.

(** [path[:i+1]] for the index [i] of the last separator of [path]. *)
Fixpoint dirPart (path : string) : string :=
  match path with
  | EmptyString => EmptyString
  | String c s' =>
      if Ascii.eqb c "/" || ContainsByte s' "/" then String c (dirPart s')
      else EmptyString
  end.

Definition Dir (path : string) : string := Clean (dirPart path).

(** [path[i+1:]] for the index [i] of the last separator of [path]. *)
Definition lastElement (path : string) : string :=
  List.last (elements path) EmptyString.

Definition Base (path : string) : string :=
  if String.eqb path EmptyString then "."
  else
    let path := lastElement (TrimRight path "/") in
    if String.eqb path EmptyString then "/" else path.

(** [filepath.Ext]: the suffix of the last element from its last dot. *)
Fixpoint extOf (elem : string) : string :=
  match elem with
  | EmptyString => EmptyString
  | String c s' =>
      if ContainsByte s' "." then extOf s'
      else if Ascii.eqb c "." then elem else EmptyString
  end.

Definition Ext (path : string) : string := extOf (lastElement path).

(** The elements [Rel] walks over: none for the empty path, and the
    single empty element before the separator for the root. *)
Definition relElements (p : string) : list string :=
  if String.eqb p EmptyString then []
  else if String.eqb p "/" then [EmptyString]
  else elements p.

(** The common leading elements are dropped. *)
Fixpoint relStrip (bs ts : list string) : list string * list string :=
  match bs, ts with
  | b :: bs', t :: ts' =>
      if String.eqb t b then relStrip bs' ts' else (bs, ts)
  | _, _ => (bs, ts)
  end.

(** [filepath.Rel(basepath, targpath)]; [None] is its error: one path
    is rooted and the other is not, or the base would have to be left
    through a [..] element. *)
Definition Rel (basepath targpath : string) : option string :=
  let base := Clean basepath in
  let targ := Clean targpath in
  if String.eqb targ base then Some "."
  else
    let base := if String.eqb base "." then EmptyString else base in
    if negb (Bool.eqb (IsAbs base) (IsAbs targ)) then None
    else
      match relStrip (relElements base) (relElements targ) with
      | (b :: bs, ts) =>
          if String.eqb b ".." then None
          else Some (GoStrings.Join (map (fun _ => "..") (b :: bs) ++ ts) "/")
      | ([], ts) => Some (GoStrings.Join ts "/")
      end.

End filepath.

(** ** Errors and the state-and-error monad of the process *)

Inductive error :=
| ENOENT                               (* no such file or directory *)
| EEXIST                               (* file exists *)
| ENOTDIR                              (* not a directory *)
| EISDIR                               (* is a directory *)
| ErrRead                              (* the archive stream cannot be read *)
| ErrRel                               (* filepath.Rel: cannot make relative *)
| Errorf (context : string) (cause : error).

Inductive result (A : Type) :=
| Ok (a : A)
| Err (e : error).
Arguments Ok {A} a.
Arguments Err {A} e.

(** ** The host filesystem

    A node is a directory or a regular file; it records the permission
    argument of the call that created it.  Nodes are keyed by their
    absolute, lexically clean path.  There are no symbolic links:
    [decompressFile] creates none, and [filepath.Walk] does not follow
    them.  Permission bits are recorded, not enforced. *)

Inductive node :=
| DirNode (perm : Z)
| FileNode (perm : Z) (data : string).

Abbreviation FS := (gmap string node).

(** A computation threads a state and may stop with an error; the
    state it reached stays (nothing is rolled back). *)
Definition ST (S A : Type) : Type := S -> result A * S.

Definition ret {S A} (a : A) : ST S A := fun s => (Ok a, s).
Definition fail {S A} (e : error) : ST S A := fun s => (Err e, s).
Definition bind {S A B} (c : ST S A) (k : A -> ST S B) : ST S B :=
  fun s =>
    match c s with
    | (Ok a, s') => k a s'
    | (Err e, s') => (Err e, s')
    end.
(** [if err != nil { return fmt.Errorf(context, err) }] *)
Definition wrapErr {S A} (context : string) (c : ST S A) : ST S A :=
  fun s =>
    match c s with
    | (Ok a, s') => (Ok a, s')
    | (Err e, s') => (Err (Errorf context e), s')
    end.

Notation "x <- c ;; k" := (bind c (fun x => k))
  (at level 100, c at next level, right associativity).
Notation "c ;;; k" := (bind c (fun _ => k))
  (at level 100, right associativity).

(** The computations of the process act on the filesystem. *)
Abbreviation M := (ST FS).

(** [k] is [dir] itself or lies below it. *)
Definition pathUnder (dir k : string) : bool :=
  if String.eqb dir "/" then HasPrefix k "/" && negb (String.eqb k "/")
  else HasPrefix k (dir +:+ "/").

(** ** The archive stream

    What [tar.NewReader(zstd.NewReader(file))] yields: the headers that
    successive calls of [Next] return, each with the bytes [io.Copy]
    reads for it, until [io.EOF] or a read error. *)

Record Header := {
  Name : string;
  Typeflag : ascii;
  Mode : Z;
  Size : Z
}.

Definition TypeReg : ascii := "0".
Definition TypeDir : ascii := "5".

Inductive TarStream :=
| TarEOF
| TarError
| TarEntry (header : Header) (payload : string) (rest : TarStream).

(** [os.FileMode(header.Mode)]: the conversion of an [int64] to [uint32]. *)
Definition FileMode (mode : Z) : Z := mode mod 2 ^ 32.

(** [fileCount++] on a 64-bit [int]. *)
Definition incr (n : Z) : Z := (n + 1 + 2 ^ 63) mod 2 ^ 64 - 2 ^ 63.

Section Process.

(** The working directory of the process, an absolute path. *)
Variable cwd : string.

(** The codec is external: the bytes of an archive file determine the
    stream its readers yield. *)
Variable zstdTarReader : string -> TarStream.

(** The key of the node a path names. *)
Definition resolve (path : string) : string :=
  if filepath.IsAbs path then filepath.Clean path
  else filepath.Clean (cwd +:+ "/" +:+ path).

(** [os.Stat] and [os.Lstat]; [None] is [ENOENT]. *)
Definition Stat (path : string) (fs : FS) : option node :=
  if String.eqb path EmptyString then None else fs !! resolve path.

(** [os.Getwd] *)
Definition Getwd : M string :=
  fun fs =>
    match fs !! cwd with
    | Some (DirNode _) => (Ok cwd, fs)
    | _ => (Err ENOENT, fs)
    end.

(** The directory that has to hold the node of key [k]. *)
Definition parentKey (k : string) : string := filepath.Dir k.

(** [os.Mkdir] *)
Definition Mkdir (path : string) (perm : Z) : M unit :=
  fun fs =>
    if String.eqb path EmptyString then (Err ENOENT, fs)
    else
      let k := resolve path in
      match fs !! k with
      | Some _ => (Err EEXIST, fs)
      | None =>
          match fs !! parentKey k with
          | Some (DirNode _) => (Ok tt, <[k := DirNode perm]> fs)
          | Some (FileNode _ _) => (Err ENOTDIR, fs)
          | None => (Err ENOENT, fs)
          end
      end.

(** [path[:j-1]] of [os.MkdirAll], when [j > 1]: the path without its
    trailing separators, its last element and the separator before. *)
Definition parentPrefix (path : string) : option string :=
  let d := filepath.dirPart (TrimRight path "/") in
  if (1 <? String.length d)%nat
  then Some (sliceTo (String.length d - 1) d)
  else None.

(** [os.MkdirAll]; the recursion is on a strictly shorter path, so
    [String.length path] calls suffice. *)
Fixpoint MkdirAll_rec (fuel : nat) (path : string) (perm : Z) : M unit :=
  fun fs =>
    match Stat path fs with
    | Some (DirNode _) => (Ok tt, fs)
    | Some (FileNode _ _) => (Err ENOTDIR, fs)
    | None =>
        match fuel with
        | O => (Err ENOENT, fs)
        | S fuel' =>
            (match parentPrefix path with
             | Some parent => MkdirAll_rec fuel' parent perm
             | None => ret tt
             end ;;;
             fun fs1 =>
               match Mkdir path perm fs1 with
               | (Ok _, fs2) => (Ok tt, fs2)
               | (Err e, fs2) =>
                   match Stat path fs2 with
                   | Some (DirNode _) => (Ok tt, fs2)
                   | _ => (Err e, fs2)
                   end
               end) fs
        end
    end.

Definition MkdirAll (path : string) (perm : Z) : M unit :=
  MkdirAll_rec (String.length path) path perm.

(** [os.RemoveAll] *)
Definition RemoveAll (path : string) : M unit :=
  fun fs =>
    if String.eqb path EmptyString then (Ok tt, fs)
    else
      let k := resolve path in
      (Ok tt,
       filter (fun kv => negb (String.eqb (fst kv) k || pathUnder k (fst kv)) = true) fs).

(** [os.OpenFile(path, os.O_CREATE|os.O_RDWR, perm)]: an existing file
    is opened as it is; the handle is the key of the file. *)
Definition OpenFile_CREATE_RDWR (path : string) (perm : Z) : M string :=
  fun fs =>
    if String.eqb path EmptyString then (Err ENOENT, fs)
    else
      let k := resolve path in
      match fs !! k with
      | Some (DirNode _) => (Err EISDIR, fs)
      | Some (FileNode _ _) => (Ok k, fs)
      | None =>
          match fs !! parentKey k with
          | Some (DirNode _) => (Ok k, <[k := FileNode perm EmptyString]> fs)
          | Some (FileNode _ _) => (Err ENOTDIR, fs)
          | None => (Err ENOENT, fs)
          end
      end.

(** [io.Copy(outFile, tarReader)] on a handle just opened: the bytes
    are written from offset 0 over what the file holds. *)
Definition Copy (handle : string) (payload : string) : M unit :=
  fun fs =>
    match fs !! handle with
    | Some (FileNode perm data) =>
        (Ok tt,
         <[handle := FileNode perm (payload +:+ sliceFrom (String.length payload) data)]> fs)
    | _ => (Err ENOENT, fs)
    end.

(** [os.Open(archiveFile)] and the readers put on it.  A directory
    opens, and its first read fails. *)
Definition openArchive (archiveFile : string) : M TarStream :=
  fun fs =>
    match Stat archiveFile fs with
    | Some (FileNode _ data) => (Ok (zstdTarReader data), fs)
    | Some (DirNode _) => (Ok TarError, fs)
    | None => (Err ENOENT, fs)
    end.

(** The [for] loop of [decompressFile], on a host whose separator is
    ['/']; [fullOutputDir] and [fileCount] are its variables. *)
Fixpoint extractEntries (fullOutputDir : string) (tarReader : TarStream)
    (fileCount : Z) : M Z :=
  match tarReader with
  | TarEOF => ret fileCount
  | TarError => fail (Errorf "failed to read tar header" ErrRead)
  | TarEntry header payload rest =>
      let cleanName := sanitizeExtractPath Unix (Name header) in
      if String.eqb cleanName EmptyString
      then extractEntries fullOutputDir rest fileCount
      else
        let targetPath := filepath.Join [fullOutputDir; cleanName] in
        if negb (HasPrefix targetPath
                   (filepath.Clean fullOutputDir +:+ String (Separator Unix) EmptyString))
        then extractEntries fullOutputDir rest fileCount
        else
          wrapErr "failed to create directory"
            (MkdirAll (filepath.Dir targetPath) 493) ;;;
          if Ascii.eqb (Typeflag header) TypeDir then
            wrapErr ("failed to create directory " +:+ targetPath)
              (MkdirAll targetPath (FileMode (Mode header))) ;;;
            extractEntries fullOutputDir rest fileCount
          else if Ascii.eqb (Typeflag header) TypeReg then
            outFile <- wrapErr ("failed to create file " +:+ targetPath)
              (OpenFile_CREATE_RDWR targetPath (FileMode (Mode header))) ;;
            wrapErr ("failed to extract file " +:+ targetPath)
              (Copy outFile payload) ;;;
            extractEntries fullOutputDir rest (incr fileCount)
          else extractEntries fullOutputDir rest fileCount
  end.

Definition decompressFile (archiveFile outputDir : string) : M (Z * string) :=
  cwd <- wrapErr "failed to get current directory" Getwd ;;
  let fullOutputDir := filepath.Join [cwd; outputDir] in
  (fun fs =>
     match Stat fullOutputDir fs with
     | Some _ => RemoveAll fullOutputDir fs
     | None => (Ok tt, fs)
     end) ;;;
  wrapErr "failed to create output directory" (MkdirAll fullOutputDir 493) ;;;
  tarReader <- wrapErr "failed to open archive" (openArchive archiveFile) ;;
  fileCount <- extractEntries fullOutputDir tarReader 0 ;;
  ret (fileCount, fullOutputDir).

(** *** Packing *)

(** The codec is external: the bytes the writers have put into the
    output file when every entry is written ([zstdFlushed]) and when
    they are closed ([zstdTarWriter]). *)
Variable zstdFlushed : Z -> list (Header * string) -> string.
Variable zstdTarWriter : Z -> list (Header * string) -> string.

(** [os.Create]: [O_RDWR|O_CREATE|O_TRUNC] with permission 0666. *)
Definition Create (path : string) : M string :=
  fun fs =>
    if String.eqb path EmptyString then (Err ENOENT, fs)
    else
      let k := resolve path in
      match fs !! k with
      | Some (DirNode _) => (Err EISDIR, fs)
      | Some (FileNode perm _) => (Ok k, <[k := FileNode perm EmptyString]> fs)
      | None =>
          match fs !! parentKey k with
          | Some (DirNode _) => (Ok k, <[k := FileNode 438 EmptyString]> fs)
          | Some (FileNode _ _) => (Err ENOTDIR, fs)
          | None => (Err ENOENT, fs)
          end
      end.

(** The bytes of an open file are replaced. *)
Definition writeAll (handle : string) (data : string) : M unit :=
  fun fs =>
    match fs !! handle with
    | Some (FileNode perm _) => (Ok tt, <[handle := FileNode perm data]> fs)
    | _ => (Err ENOENT, fs)
    end.

(** The name of the child of directory [dir] that key [k] is, if any. *)
Definition childName (dir k : string) : option string :=
  let prefix := if String.eqb dir "/" then dir else dir +:+ "/" in
  if HasPrefix k prefix then
    let name := sliceFrom (String.length prefix) k in
    if String.eqb name EmptyString || ContainsByte name "/" then None
    else Some name
  else None.

Fixpoint insertSorted (name : string) (names : list string) : list string :=
  match names with
  | [] => [name]
  | n :: rest =>
      if String.leb name n then name :: names else n :: insertSorted name rest
  end.

(** [readDirNames]: the names of the entries of a directory, sorted. *)
Definition readDirNames (fs : FS) (path : string) : list string :=
  foldr insertSorted []
    (omap (fun kv => childName (resolve path) (fst kv)) (map_to_list fs)).

(** [tar.FileInfoHeader(info, "")] for a regular file or a directory
    of the given base name. *)
Definition FileInfoHeader (name : string) (info : node) : Header :=
  match info with
  | DirNode perm =>
      {| Name := name +:+ "/"; Typeflag := TypeDir;
         Mode := Z.land perm 511; Size := 0 |}
  | FileNode perm data =>
      {| Name := name; Typeflag := TypeReg;
         Mode := Z.land perm 511; Size := Z.of_nat (String.length data) |}
  end.

Definition IsDir (info : node) : bool :=
  match info with DirNode _ => true | FileNode _ _ => false end.

Definition setName (header : Header) (name : string) : Header :=
  {| Name := name; Typeflag := Typeflag header;
     Mode := Mode header; Size := Size header |}.

(** The state of a packing call: the entries written to the tar
    writer, and [totalSize]. *)
Abbreviation Packing := (list (Header * string) * Z)%type.

Definition WriteHeader (header : Header) : ST Packing unit :=
  fun w => (Ok tt, ((fst w ++ [(header, EmptyString)])%list, snd w)).

(** [io.Copy(tarWriter, file)]: the bytes go to the entry whose header
    was written last. *)
Definition writePayload (data : string) : ST Packing unit :=
  fun w =>
    match rev (fst w) with
    | (header, old) :: before =>
        (Ok tt, ((rev before ++ [(header, old +:+ data)])%list, snd w))
    | [] => (Err ErrRead, w)
    end.

(** [*totalSize += n] on [int64]. *)
Definition addTotal (n : Z) : ST Packing unit :=
  fun w => (Ok tt, (fst w, (snd w + n + 2 ^ 63) mod 2 ^ 64 - 2 ^ 63)).

(** The function [addToTar] hands to [filepath.Walk].  On a directory
    or a regular file [tar.FileInfoHeader] and [WriteHeader] return no
    error and [io.Copy] writes the [Size] of the header; the errors
    these calls have on other kinds of node (for a link to a file that
    is not empty [io.Copy] writes too long) are outside the filesystem
    modelled here. *)
Definition addToTar_walkFn (fs : FS) (filePath : string)
    (path : string) (info : result node) : ST Packing unit :=
  match info with
  | Err e => fail e
  | Ok info =>
      let header := FileInfoHeader (filepath.Base path) info in
      let header := setName header path in
      header <-
        (if negb (String.eqb filePath path) then
           match filepath.Rel (filepath.Dir filePath) path with
           | None => fail ErrRel
           | Some relPath =>
               ret (setName header
                      (filepath.Join [filepath.Base filePath; relPath]))
           end
         else ret header) ;;
      let header := setName header (sanitizeTarPath (ToSlash Unix (Name header))) in
      WriteHeader header ;;;
      if negb (IsDir info) then
        match Stat path fs with
        | Some (FileNode _ data) =>
            writePayload data ;;;
            addTotal (Size (FileInfoHeader (filepath.Base path) info))
        | Some (DirNode _) => fail EISDIR
        | None => fail ENOENT
        end
      else ret tt
  end.

(** [walk] of [path/filepath]: a directory is visited before its
    entries, which follow in the order of their names.  A directory
    is entered at most [fuel] levels deep. *)
Fixpoint walk (fuel : nat) (fs : FS)
    (walkFn : string -> result node -> ST Packing unit)
    (path : string) (info : node) : ST Packing unit :=
  match info with
  | FileNode _ _ => walkFn path (Ok info)
  | DirNode _ =>
      walkFn path (Ok info) ;;;
      match fuel with
      | O => fail ENOENT
      | S fuel' =>
          (fix entries (names : list string) : ST Packing unit :=
             match names with
             | [] => ret tt
             | name :: rest =>
                 let filename := filepath.Join [path; name] in
                 match Stat filename fs with
                 | None => walkFn filename (Err ENOENT)
                 | Some fileInfo => walk fuel' fs walkFn filename fileInfo
                 end ;;;
                 entries rest
             end) (readDirNames fs path)
      end
  end.

(** [filepath.Walk]; no directory is deeper than the filesystem has
    nodes. *)
Definition Walk (fs : FS) (root : string)
    (walkFn : string -> result node -> ST Packing unit) : ST Packing unit :=
  match Stat root fs with
  | None => walkFn root (Err ENOENT)
  | Some info => walk (size fs) fs walkFn root info
  end.

Definition addToTar (fs : FS) (filePath : string) : ST Packing unit :=
  Walk fs filePath (addToTar_walkFn fs filePath).

Record CompressionStats := {
  OriginalSize : Z;
  CompressedSize : Z;
  OutputFile : string
}.

(** The loop of [compressFiles] over [files]. *)
Fixpoint addFiles (fs : FS) (files : list string) : ST Packing unit :=
  match files with
  | [] => ret tt
  | file :: rest =>
      wrapErr ("failed to add " +:+ file +:+ " to archive") (addToTar fs file) ;;;
      addFiles fs rest
  end.

(** [compressFiles].  The deferred [Close] calls run on every return
    after the writers exist, and leave the archive of the entries
    written in the output file.  [Duration] and [CompressionRatio]
    (wall-clock time and [float64]) are not represented. *)
Definition compressFiles (files : list string) (outputFile : string)
    (level : Z) : M CompressionStats :=
  outFile <- wrapErr "failed to create output file" (Create outputFile) ;;
  fun fs =>
    match addFiles fs files ([], 0) with
    | (Err e, (entries, _)) =>
        (writeAll outFile (zstdTarWriter level entries) ;;; fail e) fs
    | (Ok _, (entries, totalSize)) =>
        (writeAll outFile (zstdFlushed level entries) ;;;
         fun fs1 =>
           match Stat outputFile fs1 with
           | None =>
               (writeAll outFile (zstdTarWriter level entries) ;;;
                fail (Errorf "failed to get output file stats" ENOENT)) fs1
           | Some stat =>
               (writeAll outFile (zstdTarWriter level entries) ;;;
                ret {| OriginalSize := totalSize;
                       CompressedSize :=
                         match stat with
                         | FileNode _ data => Z.of_nat (String.length data)
                         | DirNode _ => 0
                         end;
                       OutputFile := outputFile |}) fs1
           end) fs
    end.

Record CompressRequest := {
  Files : list string;
  Output : string;
  Level : Z
}.

Record DecompressRequest := {
  Archive : string;
  OutputDir : string
}.

(** The [Data] of a [Response]. *)
Inductive ResponseData :=
| StatsData (stats : CompressionStats)
| ExtractedData (extractedFiles : Z) (outputDir : string).

(** What a handler sends: [http.Error], the JSON [Response] of
    [sendResponse] (an error is what [%v] prints in its message), or
    no body at all. *)
Inductive HttpReply :=
| HttpError (message : string) (code : Z)
| Response (success : bool) (message : string) (cause : option error)
    (data : option ResponseData)
| NoBody.

(** Whether [encoding/json] encodes the [Data] of a [Response].  The
    [CompressionRatio] of the stats is
    [float64(CompressedSize) / float64(OriginalSize) * 100]: it is NaN
    or infinite exactly when the original size is 0, and a value that
    holds either is refused. *)
Definition encodes (data : option ResponseData) : bool :=
  match data with
  | Some (StatsData stats) => negb (OriginalSize stats =? 0)
  | _ => true
  end.

(** [sendResponse]: [Encode] writes the whole [Response] or, when it
    fails, nothing; its error is dropped. *)
Definition sendResponse (success : bool) (message : string) (cause : option error)
    (data : option ResponseData) : HttpReply :=
  if encodes data then Response success message cause data else NoBody.

(** [handleCompress]; [body] is the request decoded from JSON, [None]
    when decoding fails. *)
Definition handleCompress (method : string) (body : option CompressRequest)
    (fs : FS) : HttpReply * FS :=
  if negb (String.eqb method "POST")
  then (HttpError "Method not allowed" 405, fs)
  else
    match body with
    | None => (sendResponse false "Invalid request format" None None, fs)
    | Some req =>
        if (List.length (Files req) =? 0)%nat
        then (sendResponse false "No files selected" None None, fs)
        else
          let output :=
            if String.eqb (Output req) EmptyString then
              match Files req with
              | [file] =>
                  let baseName := filepath.Base file in
                  let baseName :=
                    if Contains baseName "."
                    then TrimSuffix baseName (filepath.Ext baseName)
                    else baseName in
                  baseName +:+ ".zst"
              | _ => "archive.zst"
              end
            else Output req in
          let output :=
            if negb (HasSuffix output ".zst") then output +:+ ".zst" else output in
          let level :=
            if (Level req <? 1) || (19 <? Level req) then 3 else Level req in
          match compressFiles (Files req) output level fs with
          | (Err e, fs') => (sendResponse false "Compression failed: " (Some e) None, fs')
          | (Ok stats, fs') =>
              (sendResponse true "Compression completed successfully" None
                 (Some (StatsData stats)), fs')
          end
    end.

(** The output directory [handleDecompress] hands to [decompressFile]. *)
Definition requestedOutputDir (req : DecompressRequest) : string :=
  let outputDir :=
    if String.eqb (OutputDir req) EmptyString then
      let baseName := filepath.Base (Archive req) in
      let baseName :=
        if HasSuffix baseName ".zst" then TrimSuffix baseName ".zst" else baseName in
      sanitizeDirectoryName baseName +:+ "_extracted"
    else sanitizeDirectoryName (OutputDir req) in
  filepath.Base outputDir.

(** [handleDecompress] *)
Definition handleDecompress (method : string) (body : option DecompressRequest)
    (fs : FS) : HttpReply * FS :=
  if negb (String.eqb method "POST")
  then (HttpError "Method not allowed" 405, fs)
  else
    match body with
    | None => (sendResponse false "Invalid request format" None None, fs)
    | Some req =>
        if String.eqb (Archive req) EmptyString
        then (sendResponse false "No archive file specified" None None, fs)
        else
          let outputDir := requestedOutputDir req in
          match decompressFile (Archive req) outputDir fs with
          | (Err e, fs') => (sendResponse false "Decompression failed: " (Some e) None, fs')
          | (Ok (fileCount, outputPath), fs') =>
              (sendResponse true
                 ("Decompression completed. Extracted " +:+ pretty fileCount
                  +:+ " files to " +:+ outputDir)
                 None (Some (ExtractedData fileCount outputPath)), fs')
          end
    end.

(** *** Listing a directory *)

(** The key of the entry [name] of the directory of key [dir]. *)
Definition childKey (dir name : string) : string :=
  (if String.eqb dir "/" then dir else dir +:+ "/") +:+ name.

(** [os.ReadDir]: the names of the entries, sorted. *)
Definition ReadDir (path : string) (fs : FS) : result (list string) :=
  match Stat path fs with
  | Some (DirNode _) => Ok (readDirNames fs path)
  | Some (FileNode _ _) => Err ENOTDIR
  | None => Err ENOENT
  end.

(** The size a [FileInfo] reports for a directory is a matter of the
    host. *)
Variable dirSize : string -> Z.

(** An entry of a listing; its [modTime] is not represented, the
    filesystem has no clock. *)
Record FileEntry := {
  entryName : string;
  entryPath : string;
  entryIsDir : bool;
  entrySize : Z
}.

(** [listDirectory] *)
Definition listDirectory (dirPath : string) (fs : FS) : result (list FileEntry) :=
  match ReadDir dirPath fs with
  | Err e => Err e
  | Ok entries =>
      let files :=
        if negb (String.eqb dirPath "/") && negb (String.eqb dirPath ".")
        then [{| entryName := ".."; entryPath := filepath.Dir dirPath;
                 entryIsDir := true; entrySize := 0 |}]
        else [] in
      Ok (files ++
          omap (fun name =>
                  match fs !! childKey (resolve dirPath) name with
                  | None => None
                  | Some info =>
                      Some {| entryName := name;
                              entryPath := filepath.Join [dirPath; name];
                              entryIsDir := IsDir info;
                              entrySize :=
                                match info with
                                | FileNode _ data => Z.of_nat (String.length data)
                                | DirNode _ => dirSize (childKey (resolve dirPath) name)
                                end |}
                  end) entries)%list
  end.

(** What [handleListFiles] sends. *)
Inductive ListReply :=
| ListError (message : string) (code : Z)
| ListResponse (success : bool) (message : string) (cause : option error)
    (data : option (string * list FileEntry)).

(** [handleListFiles]; [path] is the value of the query parameter. *)
Definition handleListFiles (method : string) (path : string) (fs : FS) : ListReply :=
  if negb (String.eqb method "GET")
  then ListError "Method not allowed" 405
  else
    let dirPath :=
      if String.eqb path EmptyString then
        match Getwd fs with
        | (Ok dir, _) => dir
        | (Err _, _) => EmptyString
        end
      else path in
    match listDirectory dirPath fs with
    | Err e => ListResponse false "Failed to list directory: " (Some e) None
    | Ok files =>
        ListResponse true "Directory listed successfully" None (Some (dirPath, files))
    end.

End Process.

(** ** Vocabulary of the statements *)

(** The absolute path whose elements are [els]; the root for none. *)
Definition absPath (els : list string) : string :=
  "/" +:+ GoStrings.Join els "/".

(** A path element that [Clean] keeps as it is. *)
Definition normalElem (e : string) : bool :=
  negb (String.eqb e EmptyString) && negb (ContainsByte e "/")
  && negb (String.eqb e ".") && negb (String.eqb e "..").

Abbreviation normalAll := (Forall (fun e => normalElem e = true)).

Definition noSlash (e : string) : Prop := ContainsByte e "/" = false.

(** A directory name: it has no separator and begins with a byte
    that is neither a space nor a dot. *)
Definition plainName (name : string) : Prop :=
  noSlash name /\
  exists c t, name = String c t /\ ContainsByte " ." c = false.

(** The elements [Clean] does not drop: neither empty nor [.]. *)
Definition keepElem (e : string) : bool :=
  negb (String.eqb e EmptyString || String.eqb e ".").

(** The elements of a sanitized name that [Join] keeps. *)
Definition keptElems (cleanName : string) : list string :=
  List.filter keepElem (filepath.elements cleanName).

Definition isDir (fs : FS) (k : string) : Prop :=
  exists perm, fs !! k = Some (DirNode perm).

Definition notFile (fs : FS) (k : string) : Prop :=
  forall perm data, fs !! k <> Some (FileNode perm data).

Definition notDir (fs : FS) (k : string) : Prop :=
  forall perm, fs !! k <> Some (DirNode perm).

(** Every node is keyed by an absolute, lexically clean path. *)
Definition cleanKeys (fs : FS) : Prop :=
  forall k v, fs !! k = Some v -> exists els, normalAll els /\ k = absPath els.

(** The entry a listing begins with, unless it lists the root. *)
Definition parentEntry (parent : string) : FileEntry :=
  {| entryName := ".."; entryPath := parent; entryIsDir := true; entrySize := 0 |}.

(** [k] names a directory on the way from [rs] down to [rs ++ ms]. *)
Definition onChain (rs ms : list string) (k : string) : Prop :=
  exists ms1 ms2, ms = (ms1 ++ ms2)%list /\ ms1 <> [] /\ k = absPath (rs ++ ms1).

(** The elements below the destination root at which an entry of the
    given stored name is extracted; [None] when the entry is skipped. *)
Definition targetElems (name : string) : option (list string) :=
  let cleanName := sanitizeExtractPath Unix name in
  if String.eqb cleanName EmptyString then None
  else match keptElems cleanName with
       | [] => None
       | ns => Some ns
       end.

(** The stream a reader yields for the entries a writer wrote. *)
Definition streamOf (entries : list (Header * string)) : TarStream :=
  foldr (fun e rest => TarEntry (fst e) (snd e) rest) TarEOF entries.

(** The stream of the given entries with [rest] after them. *)
Definition streamThen (entries : list (Header * string)) (rest : TarStream) :
    TarStream :=
  foldr (fun e rest => TarEntry (fst e) (snd e) rest) rest entries.

(** One turn of the loop of [decompressFile] for an entry that is not
    skipped; [true] when the entry counts as an extracted file. *)
Definition extractOne (cwd : string) (targetPath : string)
    (header : Header) (payload : string) : M bool :=
  wrapErr "failed to create directory"
    (MkdirAll cwd (filepath.Dir targetPath) 493) ;;;
  if Ascii.eqb (Typeflag header) TypeDir then
    wrapErr ("failed to create directory " +:+ targetPath)
      (MkdirAll cwd targetPath (FileMode (Mode header))) ;;;
    ret false
  else if Ascii.eqb (Typeflag header) TypeReg then
    outFile <- wrapErr ("failed to create file " +:+ targetPath)
      (OpenFile_CREATE_RDWR cwd targetPath (FileMode (Mode header))) ;;
    wrapErr ("failed to extract file " +:+ targetPath) (Copy outFile payload) ;;;
    ret true
  else ret false.

(** The non-empty proper prefixes of a list of elements. *)
Definition properPrefixes (ns : list string) : list (list string) :=
  map (fun i => take i ns) (seq 1 (List.length ns - 1)).

(** The targets at which an entry needs a regular file. *)
Definition fileTargetsOf (e : Header * string) : list (list string) :=
  match targetElems (Name (fst e)) with
  | Some ns => if Ascii.eqb (Typeflag (fst e)) TypeReg then [ns] else []
  | None => []
  end.

(** The targets at which an entry needs a directory. *)
Definition dirTargetsOf (e : Header * string) : list (list string) :=
  match targetElems (Name (fst e)) with
  | Some ns =>
      (properPrefixes ns ++
       if Ascii.eqb (Typeflag (fst e)) TypeDir then [ns] else [])%list
  | None => []
  end.

Definition fileTargets (es : list (Header * string)) : list (list string) :=
  flat_map fileTargetsOf es.

Definition dirTargets (es : list (Header * string)) : list (list string) :=
  flat_map dirTargetsOf es.

(** The entries do not collide: no two regular files at one path, and
    no regular file where another entry needs a directory. *)
Definition extractable (es : list (Header * string)) : Prop :=
  NoDup (fileTargets es) /\ Forall (fun f => f ∉ dirTargets es) (fileTargets es).

(** The number of entries extracted as files. *)
Definition countFiles (es : list (Header * string)) : nat :=
  List.length (fileTargets es).

(** Nothing lies below the directory of key [root]. *)
Definition emptyBelow (fs : FS) (root : string) : Prop :=
  forall k, HasPrefix k (root +:+ "/") = true -> fs !! k = None.

(** The destination root of an extraction into [outputDir] below the
    working directory of elements [cs]. *)
Definition outputRoot (cs : list string) (outputDir : string) : string :=
  absPath (cs ++ [outputDir]).

(** What an extraction relies on: the working directory exists, the
    output directory is a plain name (which [handleDecompress] sees to),
    nothing hangs below a destination that does not exist, and the
    archive is a file outside the destination. *)
Definition unpackReady (cs : list string) (outputDir archiveFile : string)
    (fs : FS) (data : string) : Prop :=
  normalAll cs /\
  normalElem outputDir = true /\
  isDir fs (absPath cs) /\
  (fs !! outputRoot cs outputDir = None -> emptyBelow fs (outputRoot cs outputDir)) /\
  archiveFile <> EmptyString /\
  (exists perm, fs !! resolve (absPath cs) archiveFile = Some (FileNode perm data)) /\
  resolve (absPath cs) archiveFile <> outputRoot cs outputDir /\
  HasPrefix (resolve (absPath cs) archiveFile) (outputRoot cs outputDir +:+ "/") = false.

(** A string with every byte replaced by its image. *)
Fixpoint mapBytes (f : ascii -> ascii) (s : string) : string :=
  match s with
  | EmptyString => EmptyString
  | String c s' => String (f c) (mapBytes f s')
  end.

(** The path begins with a slash or a backslash. *)
Definition beginsWithSeparator (path : string) : bool :=
  match path with
  | EmptyString => false
  | String c _ => ContainsByte "/\" c
  end.

(** The two guards of the loop of [decompressFile]: the entry of the
    given stored name passes sanitization and containment. *)
Definition accepts (fullOutputDir name : string) : bool :=
  let cleanName := sanitizeExtractPath Unix name in
  negb (String.eqb cleanName EmptyString) &&
  HasPrefix (filepath.Join [fullOutputDir; cleanName])
    (filepath.Clean fullOutputDir +:+ String (Separator Unix) EmptyString).

#[global] Instance extractable_dec (es : list (Header * string)) :
  Decision (extractable es).
Proof. unfold extractable. apply _. Defined.

(** ** Example data *)

(** A regular-file entry and a directory entry as [addToTar] writes
    them, with modes 0644 and 0755. *)
Definition regular (name payload : string) : Header * string :=
  ({| Name := name; Typeflag := TypeReg; Mode := 420;
      Size := Z.of_nat (String.length payload) |}, payload).

Definition directory (name : string) : Header * string :=
  ({| Name := name; Typeflag := TypeDir; Mode := 493; Size := 0 |}, EmptyString).

(** A filesystem with the working directory [/work], an archive in
    it, a stale output directory and a file outside. *)
Definition exampleFs : FS :=
  list_to_map
    [("/", DirNode 493); ("/etc", DirNode 493);
     ("/etc/passwd", FileNode 420 "root:x:0:0");
     ("/work", DirNode 493); ("/work/a.zst", FileNode 420 "zst");
     ("/work/out", DirNode 493); ("/work/out/stale.txt", FileNode 420 "old")].

(** A codec for which every archive holds the given entries. *)
Definition holding (es : list (Header * string)) : string -> TarStream :=
  fun _ => streamOf es.

(** ** Vocabulary of the round trip *)

(** No byte of [s] is in [class]. *)
Fixpoint noneOf (class s : string) : bool :=
  match s with
  | EmptyString => true
  | String c s' => negb (ContainsByte class c) && noneOf class s'
  end.

(** A file name that both sanitizers leave as it is: one path element
    without [..], backslash or a byte of the illegal class. *)
Definition portable (e : string) : bool :=
  normalElem e && negb (Contains e "..") && noneOf (String "\" invalidChars) e.

(** The entry [addToTar] writes for a source root of the given name
    and node. *)
Definition packedEntry (name : string) (info : node) : Header * string :=
  (setName (FileInfoHeader name info) name,
   match info with
   | FileNode _ data => data
   | DirNode _ => EmptyString
   end).

(** The source of the given name in the working directory is a regular
    file or an empty directory. *)
Definition isSource (fs : FS) (cs : list string) (name : string) : Prop :=
  match fs !! absPath (cs ++ [name]) with
  | Some (FileNode _ _) => True
  | Some (DirNode _) => emptyBelow fs (absPath (cs ++ [name]))
  | None => False
  end.

Definition sourceEntries (fs : FS) (cs : list string) (names : list string) :
    list (Header * string) :=
  omap (fun name => packedEntry name <$> fs !! absPath (cs ++ [name])) names.

(** The number of bytes of the payloads of the entries. *)
Definition payloadTotal (entries : list (Header * string)) : Z :=
  foldr (fun e total => Z.of_nat (String.length (snd e)) + total) 0 entries.

(** The nodes below the directory of key [dir]. *)
Definition nodesBelow (fs : FS) (dir : string) : FS :=
  filter (fun kv => HasPrefix (fst kv) (dir +:+ "/") = true) fs.

(** The name [addToTar] gives, before it sanitizes it, to the node of
    elements [ns] below the source root [d] of the directory [cs]:
    the path of the root as it was given for the root itself, and the
    base name of the root joined to the path relative to [cs] for the
    others. *)
Definition givenName (cs : list string) (d : string) (ns : list string) : string :=
  match ns with
  | [] => absPath (cs ++ [d])
  | _ => GoStrings.Join (d :: d :: ns) "/"
  end.

(** The entry of that node. *)
Definition treeEntry (cs : list string) (d : string) (ns : list string)
    (info : node) : Header * string :=
  packedEntry (sanitizeTarPath (givenName cs d ns)) info.

(** An entry is the entry of a node of the tree of root [d]. *)
Definition ofTree (fs : FS) (cs : list string) (d : string)
    (e : Header * string) : Prop :=
  exists ms info,
    normalAll ms /\ fs !! absPath ((cs ++ [d]) ++ ms) = Some info /\
    e = treeEntry cs d ms info.

(** Every node on the way from [ns] down to [ns ++ ns'], the last
    apart, is a directory. *)
Definition reachable (fs : FS) (cs : list string) (d : string)
    (ns ns' : list string) : Prop :=
  forall q1 q2, ns' = (q1 ++ q2)%list -> q2 <> [] ->
    isDir fs (absPath ((cs ++ [d]) ++ ns ++ q1)).

(** *** Permission bits

    The filesystem records permission bits and enforces none: its
    calls behave as for a process that no permission bit stops.  A
    process without privilege that owns the nodes behaves the same as
    long as the bits of the owner grant what each call needs; where a
    property depends on it, that is a hypothesis.

    [grants perm bits]: all of [bits] are set in [perm].  Octal 0600
    is 384 (read and write), 0300 is 192 (write and search), 0500 is
    320 (read and search), 0400 is 256 (read). *)
Definition grants (perm bits : Z) : bool := Z.land perm bits =? bits.

(** Every directory entry of the stream lets the owner write and
    search the directory it makes. *)
Definition dirsWritable (es : list (Header * string)) : bool :=
  forallb (fun e => negb (Ascii.eqb (Typeflag e.1) TypeDir) ||
                    grants (FileMode (Mode e.1)) 192) es.

(** The owner may read the node and, when it is a directory, search
    it. *)
Definition readable (info : node) : bool :=
  match info with
  | DirNode perm => grants perm 320
  | FileNode perm _ => grants perm 256
  end.

(** What a packing call relies on: the working directory exists, the
    sources are distinct portable names of regular files and empty
    directories in it, and the output file is another plain name that
    is not a directory. *)
Definition packReady (cs : list string) (names : list string)
    (outputFile : string) (fs : FS) : Prop :=
  normalAll cs /\
  isDir fs (absPath cs) /\
  Forall (fun name => portable name = true) names /\
  NoDup names /\
  Forall (isSource fs cs) names /\
  normalElem outputFile = true /\
  (outputFile ∉ names) /\
  notDir fs (absPath (cs ++ [outputFile])).

(** A source tree: the directory [/data/proj] with a file and an empty
    directory, and files beside it. *)
Definition sourceFs : FS :=
  list_to_map
    [("/", DirNode 493); ("/data", DirNode 493);
     ("/data/proj", DirNode 493);
     ("/data/proj/a.txt", FileNode 420 "alpha");
     ("/data/proj/sub", DirNode 493);
     ("/data/f.txt", FileNode 420 "ff");
     ("/data/empty", DirNode 493);
     ("/data/a..b", FileNode 420 "x")].

(** A codec whose archives are the bytes [zst] at every level. *)
Definition zstBytes : Z -> list (Header * string) -> string :=
  fun _ _ => "zst".

(** * Properties *)

(** ** Byte strings *)

(** stdpp keeps [String.append] folded; here it computes on a
    constructor. *)
#[local] Arguments String.append !_ _ / : simpl nomatch.
#[local] Arguments Ascii.eqb : simpl never.
#[local] Arguments String.eqb : simpl never.

Section StringFacts.

Lemma append_nil_r (s : string) : s +:+ EmptyString = s.
Proof. induction s as [|c s IH]; simpl; [reflexivity | now f_equal]. Qed.

Lemma append_assoc (a b c : string) : (a +:+ b) +:+ c = a +:+ (b +:+ c).
Proof. induction a as [|x a IH]; simpl; [reflexivity | now f_equal]. Qed.

Lemma length_append (a b : string) :
  String.length (a +:+ b) = (String.length a + String.length b)%nat.
Proof. induction a as [|x a IH]; simpl; [reflexivity | now f_equal]. Qed.

Lemma append_eq_nil (a b : string) :
  a +:+ b = EmptyString -> a = EmptyString /\ b = EmptyString.
Proof. destruct a; simpl; [tauto | discriminate]. Qed.

Lemma eqb_false_iff (a b : string) : String.eqb a b = false <-> a <> b.
Proof. apply String.eqb_neq. Qed.

Lemma HasPrefix_nil (s : string) : HasPrefix s EmptyString = true.
Proof. destruct s; reflexivity. Qed.

Lemma HasPrefix_spec (s p : string) :
  HasPrefix s p = true <-> exists t, s = p +:+ t.
Proof.
  revert s. induction p as [|c p IH]; intros s.
  - split; [intros _; now exists s | intros _; apply HasPrefix_nil].
  - destruct s as [|d s]; simpl.
    + split; [discriminate | intros [t Ht]; discriminate].
    + rewrite andb_true_iff, Ascii.eqb_eq, IH. split.
      * intros [-> [t ->]]. now exists t.
      * intros [t Ht]. injection Ht as -> ->. split; [reflexivity | now exists t].
Qed.

Lemma HasPrefix_app (p t : string) : HasPrefix (p +:+ t) p = true.
Proof. apply HasPrefix_spec. now exists t. Qed.

Lemma HasPrefix_length (s p : string) :
  HasPrefix s p = true -> (String.length p <= String.length s)%nat.
Proof.
  intros [t ->]%HasPrefix_spec. rewrite length_append. lia.
Qed.

Lemma HasPrefix_trans (s p q : string) :
  HasPrefix s p = true -> HasPrefix p q = true -> HasPrefix s q = true.
Proof.
  intros [t ->]%HasPrefix_spec [u ->]%HasPrefix_spec.
  rewrite append_assoc. apply HasPrefix_app.
Qed.

Lemma ContainsByte_app (a b : string) (c : ascii) :
  ContainsByte (a +:+ b) c = ContainsByte a c || ContainsByte b c.
Proof.
  induction a as [|x a IH]; simpl; [reflexivity|].
  rewrite IH. now rewrite orb_assoc.
Qed.

Lemma Contains_cons (c : ascii) (s sub : string) :
  Contains (String c s) sub = HasPrefix (String c s) sub || Contains s sub.
Proof. reflexivity. Qed.

Lemma Contains_prefix (s sub : string) :
  HasPrefix s sub = true -> Contains s sub = true.
Proof.
  destruct s; [exact (fun H => H) | rewrite Contains_cons; now intros ->].
Qed.

Lemma Contains_spec (s sub : string) :
  Contains s sub = true <-> exists a b, s = a +:+ sub +:+ b.
Proof.
  induction s as [|c s IH].
  - change (Contains EmptyString sub) with (HasPrefix EmptyString sub).
    rewrite HasPrefix_spec. split.
    + intros [t Ht]. exists EmptyString, t. exact Ht.
    + intros [a [b Hab]]. symmetry in Hab.
      apply append_eq_nil in Hab as [-> Hab].
      apply append_eq_nil in Hab as [-> ->]. now exists EmptyString.
  - rewrite Contains_cons, orb_true_iff, IH. split.
    + intros [H | [a [b ->]]].
      * apply HasPrefix_spec in H as [t Ht].
        exists EmptyString, t. exact Ht.
      * exists (String c a), b. reflexivity.
    + intros [a [b Hab]]. destruct a as [|x a]; simpl in Hab.
      * left. apply HasPrefix_spec. now exists b.
      * right. injection Hab as -> ->. now exists a, b.
Qed.

Lemma Contains_app_mid (a s b sub : string) :
  Contains s sub = true -> Contains (a +:+ s +:+ b) sub = true.
Proof.
  intros [x [y ->]]%Contains_spec. apply Contains_spec.
  exists (a +:+ x), (y +:+ b). now rewrite !append_assoc.
Qed.

Lemma sliceFrom_app (p t : string) : sliceFrom (String.length p) (p +:+ t) = t.
Proof. induction p as [|c p IH]; simpl; [now destruct t | exact IH]. Qed.

Lemma sliceTo_app (p t : string) : sliceTo (String.length p) (p +:+ t) = p.
Proof.
  induction p as [|c p IH]; simpl; [now destruct t | now f_equal].
Qed.

End StringFacts.

(** ** Paths and their elements *)

Section PathFacts.

Import filepath.

Lemma normalElem_spec (e : string) :
  normalElem e = true <->
  e <> EmptyString /\ noSlash e /\ e <> "." /\ e <> "..".
Proof.
  unfold normalElem, noSlash.
  rewrite !andb_true_iff, !negb_true_iff, !String.eqb_neq. tauto.
Qed.

Lemma normalElem_noSlash (els : list string) :
  Forall (fun e => normalElem e = true) els -> Forall noSlash els.
Proof.
  intros H. eapply Forall_impl; [exact H|].
  intros e He. now apply normalElem_spec in He.
Qed.

Lemma elements_ne (s : string) : elements s <> [].
Proof.
  induction s as [|c s IH]; simpl; [discriminate|].
  destruct (Ascii.eqb c "/"); [discriminate|].
  destruct (elements s); discriminate.
Qed.

Lemma elements_noSlash (e : string) : noSlash e -> elements e = [e].
Proof.
  unfold noSlash. induction e as [|c e IH]; simpl; [reflexivity|].
  rewrite Ascii.eqb_sym. intros [Hc He]%orb_false_iff.
  rewrite Hc, (IH He). reflexivity.
Qed.

Lemma elements_app_sep (a b : string) :
  elements (a +:+ String "/" b) = (elements a ++ elements b)%list.
Proof.
  induction a as [|c a IH]; simpl; [reflexivity|].
  rewrite IH. destruct (Ascii.eqb c "/"); [reflexivity|].
  destruct (elements a) eqn:E; [now apply elements_ne in E | reflexivity].
Qed.

Lemma elements_all_noSlash (s : string) : Forall noSlash (elements s).
Proof.
  unfold noSlash. induction s as [|c s IH]; simpl.
  - now constructor.
  - destruct (Ascii.eqb c "/") eqn:Hc.
    + now constructor.
    + destruct (elements s) as [|e es]; inversion IH; subst;
        constructor; simpl; try rewrite Ascii.eqb_sym, Hc; auto.
Qed.

Lemma elements_first (s f : string) (fs : list string) :
  elements s = f :: fs -> exists r, s = f +:+ r.
Proof.
  revert f fs. induction s as [|c s IH]; simpl; intros f fs.
  - intros [= <- <-]. now exists EmptyString.
  - destruct (Ascii.eqb c "/").
    + intros [= <- <-]. now exists (String c s).
    + destruct (elements s) as [|g gs] eqn:E; [now apply elements_ne in E|].
      intros [= <- <-]. destruct (IH g gs eq_refl) as [r ->]. now exists r.
Qed.

(** Every element is a substring of the path. *)
Lemma elements_substring (s e : string) :
  In e (elements s) -> exists a b, s = a +:+ e +:+ b.
Proof.
  revert e. induction s as [|c s IH]; intros e; simpl.
  - intros [<- | []]. now exists EmptyString, EmptyString.
  - destruct (Ascii.eqb c "/") eqn:Hc.
    + intros [<- | H].
      * exists EmptyString, (String c s). reflexivity.
      * destruct (IH e H) as [a [b ->]]. now exists (String c a), b.
    + destruct (elements s) as [|e0 es] eqn:E; [now apply elements_ne in E|].
      intros [<- | H].
      * destruct (elements_first s e0 es E) as [r ->].
        now exists EmptyString, r.
      * destruct (IH e (or_intror H)) as [a [b ->]]. now exists (String c a), b.
Qed.

Lemma elements_no_dotdot (s : string) :
  Contains s ".." = false -> Forall (fun e => e <> "..") (elements s).
Proof.
  intros Hs. apply List.Forall_forall. intros e He ->.
  apply elements_substring in He as [a [b ->]].
  rewrite (Contains_app_mid a ".." b "..") in Hs; [discriminate | reflexivity].
Qed.

Lemma Join_cons (e : string) (els : list string) (sep : string) :
  els <> [] -> GoStrings.Join (e :: els) sep = e +:+ sep +:+ GoStrings.Join els sep.
Proof. destruct els; [congruence | reflexivity]. Qed.

Lemma Join_app (a b : list string) (sep : string) :
  a <> [] -> b <> [] ->
  GoStrings.Join (a ++ b) sep = GoStrings.Join a sep +:+ sep +:+ GoStrings.Join b sep.
Proof.
  intros Ha Hb. induction a as [|e a IH]; [congruence|].
  destruct a as [|e' a].
  - simpl app. now rewrite Join_cons.
  - change ((e :: e' :: a) ++ b)%list with (e :: ((e' :: a) ++ b))%list.
    rewrite Join_cons by discriminate. rewrite IH by discriminate.
    rewrite (Join_cons e (e' :: a)) by discriminate.
    now rewrite !append_assoc.
Qed.

Lemma elements_Join (els : list string) :
  els <> [] -> Forall noSlash els -> elements (GoStrings.Join els "/") = els.
Proof.
  intros Hne Hall. induction Hall as [|e els He Hall IH]; [congruence|].
  destruct els as [|e' els].
  - simpl. now apply elements_noSlash.
  - rewrite Join_cons by discriminate.
    change (e +:+ "/" +:+ GoStrings.Join (e' :: els) "/")
      with (e +:+ String "/" (GoStrings.Join (e' :: els) "/")).
    rewrite elements_app_sep, IH by discriminate.
    now rewrite (elements_noSlash e He).
Qed.

Lemma absPath_nil : absPath [] = "/".
Proof. reflexivity. Qed.

Lemma absPath_snoc (els : list string) (e : string) :
  absPath (els ++ [e]) =
  if decide (els = []) then "/" +:+ e else absPath els +:+ "/" +:+ e.
Proof.
  unfold absPath. destruct (decide (els = [])) as [-> | Hne]; [reflexivity|].
  rewrite Join_app by (auto; discriminate). simpl. now rewrite ?append_assoc.
Qed.

Lemma absPath_app (rs ms : list string) :
  rs <> [] -> ms <> [] ->
  absPath (rs ++ ms) = absPath rs +:+ "/" +:+ GoStrings.Join ms "/".
Proof.
  intros Hr Hm. unfold absPath. rewrite Join_app by assumption.
  simpl. now rewrite ?append_assoc.
Qed.

Lemma elements_absPath (els : list string) :
  els <> [] -> Forall noSlash els -> elements (absPath els) = EmptyString :: els.
Proof.
  intros Hne Hall. unfold absPath. simpl.
  now rewrite elements_Join.
Qed.

Lemma absPath_inj (a b : list string) :
  Forall (fun e => normalElem e = true) a ->
  Forall (fun e => normalElem e = true) b ->
  absPath a = absPath b -> a = b.
Proof.
  intros Ha Hb Hab.
  assert (Hone : forall l, Forall (fun e => normalElem e = true) l ->
            l <> [] -> absPath l <> "/").
  { intros l Hl Hne Heq. destruct l as [|e l]; [congruence|].
    inversion Hl as [|? ? He _]; subst. apply normalElem_spec in He as [He _].
    unfold absPath in Heq. injection Heq as Heq.
    destruct l; simpl in Heq; [congruence|].
    apply append_eq_nil in Heq as [-> _]. congruence. }
  destruct (decide (a = [])) as [-> | Hane];
    destruct (decide (b = [])) as [-> | Hbne]; try reflexivity.
  - symmetry in Hab. now apply Hone in Hab.
  - now apply Hone in Hab.
  - apply (f_equal elements) in Hab.
    rewrite !elements_absPath in Hab by auto using normalElem_noSlash.
    congruence.
Qed.

Lemma absPath_length (els : list string) :
  (List.length els <= String.length (absPath els))%nat.
Proof.
  unfold absPath. simpl. induction els as [|e els IH]; simpl; [lia|].
  destruct els as [|e' els]; [simpl in *; lia|].
  rewrite !length_append. simpl in *. lia.
Qed.

(** *** [Clean] on absolute paths *)

Lemma cleanStep_fold (rooted : bool) (els out : list string) :
  Forall (fun e => e <> "..") els ->
  fold_left (cleanStep rooted) els out = (rev (List.filter keepElem els) ++ out)%list.
Proof.
  intros Hall. revert out.
  induction Hall as [|e els He Hall IH]; intros out; [reflexivity|].
  simpl. unfold cleanStep at 2, keepElem at 1.
  destruct (String.eqb e EmptyString || String.eqb e ".") eqn:Hk; simpl.
  - apply IH.
  - apply String.eqb_neq in He. rewrite He, IH.
    now rewrite <- app_assoc.
Qed.

Lemma filter_keep_normal (els : list string) :
  normalAll els -> List.filter keepElem els = els.
Proof.
  induction 1 as [|e els He Hall IH]; [reflexivity|].
  simpl. rewrite IH. unfold keepElem.
  apply normalElem_spec in He as (H1 & _ & H2 & _).
  apply String.eqb_neq in H1, H2. now rewrite H1, H2.
Qed.

Lemma normal_no_dotdot (els : list string) :
  normalAll els -> Forall (fun e => e <> "..") els.
Proof.
  intros H. eapply Forall_impl; [exact H|].
  intros e He. now apply normalElem_spec in He.
Qed.

Lemma fold_cleanStep_absPath (rs : list string) :
  normalAll rs ->
  fold_left (cleanStep true) (elements (absPath rs)) [] = rev rs.
Proof.
  intros Hrs. destruct (decide (rs = [])) as [-> | Hne]; [reflexivity|].
  rewrite elements_absPath by auto using normalElem_noSlash.
  simpl. change (cleanStep true [] EmptyString) with (@nil string).
  rewrite cleanStep_fold by now apply normal_no_dotdot.
  now rewrite filter_keep_normal, app_nil_r.
Qed.

Lemma keptElems_normal (name : string) :
  Forall (fun e => e <> "..") (elements name) -> normalAll (keptElems name).
Proof.
  intros Hdd. unfold keptElems. apply List.Forall_forall. intros e He.
  apply List.filter_In in He as [He Hk].
  apply normalElem_spec. unfold keepElem in Hk.
  apply negb_true_iff, orb_false_iff in Hk as [H1 H2].
  apply String.eqb_neq in H1, H2.
  pose proof (elements_all_noSlash name) as Hns.
  rewrite List.Forall_forall in Hns, Hdd. auto.
Qed.

Lemma Clean_abs_join (rs : list string) (name : string) :
  normalAll rs ->
  Forall (fun e => e <> "..") (elements name) ->
  Clean (absPath rs +:+ "/" +:+ name) = absPath (rs ++ keptElems name).
Proof.
  intros Hrs Hdd. unfold Clean.
  change (absPath rs +:+ "/" +:+ name) with (absPath rs +:+ String "/" name).
  assert (Habs : IsAbs (absPath rs +:+ String "/" name) = true) by reflexivity.
  assert (Hne : String.eqb (absPath rs +:+ String "/" name) EmptyString = false)
    by reflexivity.
  rewrite Habs, Hne.
  rewrite elements_app_sep, fold_left_app, fold_cleanStep_absPath by assumption.
  rewrite cleanStep_fold by assumption.
  change (List.filter keepElem (elements name)) with (keptElems name).
  rewrite <- rev_app_distr, rev_involutive.
  reflexivity.
Qed.

Lemma Clean_absPath (rs : list string) :
  normalAll rs -> Clean (absPath rs) = absPath rs.
Proof.
  intros Hrs. unfold Clean.
  assert (Habs : IsAbs (absPath rs) = true) by reflexivity.
  assert (Hne : String.eqb (absPath rs) EmptyString = false) by reflexivity.
  rewrite Habs, Hne.
  rewrite fold_cleanStep_absPath, rev_involutive by assumption.
  reflexivity.
Qed.

Lemma keptElems_single (e : string) : normalElem e = true -> keptElems e = [e].
Proof.
  intros (H1 & H2 & H3 & _)%normalElem_spec. unfold keptElems.
  rewrite elements_noSlash by assumption. simpl. unfold keepElem.
  apply String.eqb_neq in H1, H3. now rewrite H1, H3.
Qed.

Lemma normalElem_elements (e : string) :
  normalElem e = true -> Forall (fun x => x <> "..") (elements e).
Proof.
  intros He. pose proof He as (H1 & H2 & H3 & H4)%normalElem_spec.
  rewrite elements_noSlash by assumption. now constructor.
Qed.

(** [filepath.Join] of an absolute clean directory and a name *)
Lemma Join_abs (rs : list string) (name : string) :
  normalAll rs ->
  Forall (fun e => e <> "..") (elements name) ->
  Join [absPath rs; name] = absPath (rs ++ keptElems name).
Proof.
  intros Hrs Hdd. unfold Join.
  change (String.eqb (absPath rs) EmptyString) with false. cbn iota.
  change (GoStrings.Join [absPath rs; name] "/") with (absPath rs +:+ "/" +:+ name).
  now apply Clean_abs_join.
Qed.

Lemma normalAll_app (a b : list string) :
  normalAll (a ++ b) <-> normalAll a /\ normalAll b.
Proof. apply Forall_app. Qed.

(** *** Parents *)

Lemma dirPart_noSlash (e : string) : noSlash e -> dirPart e = EmptyString.
Proof.
  unfold noSlash. destruct e as [|c e]; [reflexivity|]. simpl.
  intros [Hc He]%orb_false_iff. rewrite Ascii.eqb_sym in Hc.
  now rewrite Hc, He.
Qed.

Lemma dirPart_app_sep (a e : string) :
  noSlash e -> dirPart (a +:+ String "/" e) = a +:+ "/".
Proof.
  intros He. induction a as [|c a IH]; simpl.
  - change (Ascii.eqb "/" "/") with true. simpl.
    now rewrite dirPart_noSlash.
  - rewrite IH, ContainsByte_app. simpl.
    change (Ascii.eqb "/" "/") with true.
    now rewrite orb_true_r, orb_true_r.
Qed.

Lemma TrimRight_keep (a e : string) :
  e <> EmptyString -> noSlash e -> TrimRight (a +:+ e) "/" = a +:+ e.
Proof.
  unfold noSlash. intros Hne He.
  assert (Hbase : TrimRight e "/" = e).
  { clear a. induction e as [|c e IH]; [congruence|]. simpl in He |- *.
    apply orb_false_iff in He as [Hc He]. rewrite orb_false_r.
    destruct e as [|d e]; [simpl; now rewrite Ascii.eqb_sym, Hc|].
    rewrite IH by (auto; discriminate). reflexivity. }
  induction a as [|c a IH]; [exact Hbase|].
  simpl. rewrite IH. destruct (a +:+ e) eqn:E; [|reflexivity].
  apply append_eq_nil in E as [_ ->]. congruence.
Qed.

Lemma absPath_snoc_sep (els : list string) (e : string) :
  exists a, absPath (els ++ [e]) = a +:+ String "/" e /\
            a +:+ "/" = (if decide (els = []) then "/" else absPath els +:+ "/").
Proof.
  rewrite absPath_snoc. destruct (decide (els = [])).
  - exists EmptyString. split; reflexivity.
  - exists (absPath els). split; reflexivity.
Qed.

Lemma Dir_absPath_snoc (els : list string) (e : string) :
  normalAll els -> normalElem e = true ->
  Dir (absPath (els ++ [e])) = absPath els.
Proof.
  intros Hels (_ & He & _)%normalElem_spec. unfold Dir.
  destruct (absPath_snoc_sep els e) as [a [-> Ha]].
  rewrite dirPart_app_sep, Ha by assumption.
  destruct (decide (els = [])) as [-> | Hne]; [reflexivity|].
  rewrite <- (app_nil_r els) at 2.
  change (@nil string) with (keptElems EmptyString).
  change (absPath els +:+ "/") with (absPath els +:+ "/" +:+ EmptyString).
  apply Clean_abs_join; [assumption|].
  constructor; [discriminate | constructor].
Qed.

Lemma absPath_TrimRight (els : list string) :
  els <> [] -> normalAll els -> TrimRight (absPath els) "/" = absPath els.
Proof.
  intros Hne Hall.
  destruct (exists_last Hne) as [l [e ->]].
  apply normalAll_app in Hall as [_ He]. inversion He as [|? ? He' _]; subst.
  apply normalElem_spec in He' as (H1 & H2 & _).
  destruct (absPath_snoc_sep l e) as [a [-> _]].
  change (a +:+ String "/" e) with (a +:+ "/" +:+ e).
  rewrite <- append_assoc. now apply TrimRight_keep.
Qed.

End PathFacts.

(** ** The filesystem calls on absolute clean paths *)

Section FsFacts.

Import filepath.

Variable cwd : string.

Lemma resolve_absPath (rs : list string) :
  normalAll rs -> resolve cwd (absPath rs) = absPath rs.
Proof.
  intros Hrs. unfold resolve.
  assert (Habs : IsAbs (absPath rs) = true) by reflexivity.
  rewrite Habs. now apply Clean_absPath.
Qed.

Lemma Stat_absPath (rs : list string) (fs : FS) :
  normalAll rs -> Stat cwd (absPath rs) fs = fs !! absPath rs.
Proof.
  intros Hrs. unfold Stat.
  assert (Hne : String.eqb (absPath rs) EmptyString = false) by reflexivity.
  now rewrite Hne, resolve_absPath.
Qed.

Lemma parentPrefix_snoc (els : list string) (e : string) :
  normalAll els -> normalElem e = true ->
  parentPrefix (absPath (els ++ [e])) =
  if decide (els = []) then None else Some (absPath els).
Proof.
  intros Hels He. unfold parentPrefix.
  rewrite absPath_TrimRight;
    [| now destruct els | apply normalAll_app; split; [assumption | now constructor]].
  apply normalElem_spec in He as (_ & He & _).
  destruct (absPath_snoc_sep els e) as [a [-> Ha]].
  rewrite dirPart_app_sep, Ha by assumption.
  destruct (decide (els = [])) as [-> | Hne]; [reflexivity|].
  rewrite length_append.
  remember (absPath els) as p eqn:Hp.
  assert (Hlen : (1 <= String.length p)%nat) by (subst p; simpl; lia).
  change (String.length "/") with 1%nat.
  replace (String.length p + 1 - 1)%nat with (String.length p) by lia.
  rewrite sliceTo_app.
  destruct (1 <? String.length p + 1)%nat eqn:E; [reflexivity|].
  apply Nat.ltb_ge in E. lia.
Qed.

Lemma parentKey_snoc (els : list string) (e : string) :
  normalAll els -> normalElem e = true ->
  parentKey (absPath (els ++ [e])) = absPath els.
Proof. apply Dir_absPath_snoc. Qed.

Lemma absPath_snoc_neq (rs ms ms1 ms2 : list string) (m : string) :
  normalAll rs -> normalAll ms -> normalElem m = true ->
  ms = (ms1 ++ ms2)%list ->
  absPath (rs ++ ms ++ [m]) <> absPath (rs ++ ms1).
Proof.
  intros Hrs Hms Hm -> Heq.
  apply normalAll_app in Hms as [H1 H2].
  apply absPath_inj in Heq.
  - apply app_inv_head in Heq. apply (f_equal (@List.length string)) in Heq.
    rewrite !length_app in Heq. simpl in Heq. lia.
  - repeat (apply normalAll_app; split); auto.
  - apply normalAll_app; split; auto.
Qed.

Lemma MkdirAll_rec_unfold (fuel : nat) (path : string) (perm : Z) (fs : FS) :
  MkdirAll_rec cwd fuel path perm fs =
  match Stat cwd path fs with
  | Some (DirNode _) => (Ok tt, fs)
  | Some (FileNode _ _) => (Err ENOTDIR, fs)
  | None =>
      match fuel with
      | O => (Err ENOENT, fs)
      | S fuel' =>
          (match parentPrefix path with
           | Some parent => MkdirAll_rec cwd fuel' parent perm
           | None => ret tt
           end ;;;
           fun fs1 =>
             match Mkdir cwd path perm fs1 with
             | (Ok _, fs2) => (Ok tt, fs2)
             | (Err e, fs2) =>
                 match Stat cwd path fs2 with
                 | Some (DirNode _) => (Ok tt, fs2)
                 | _ => (Err e, fs2)
                 end
             end) fs
      end
  end.
Proof. destruct fuel; reflexivity. Qed.

Lemma onChain_snoc (rs ms : list string) (m k : string) :
  onChain rs ms k -> onChain rs (ms ++ [m]) k.
Proof.
  intros (ms1 & ms2 & Hs & Hn & Hk).
  exists ms1, (ms2 ++ [m])%list. rewrite Hs, app_assoc. auto.
Qed.

Lemma MkdirAll_rec_abs (perm : Z) (rs : list string) :
  normalAll rs ->
  forall (ms : list string) (fuel : nat) (fs : FS),
    normalAll ms ->
    (List.length ms <= fuel)%nat ->
    isDir fs (absPath rs) ->
    exists r fs',
      MkdirAll_rec cwd fuel (absPath (rs ++ ms)) perm fs = (r, fs') /\
      (forall k, fs' !! k = fs !! k \/
                 (fs !! k = None /\ fs' !! k = Some (DirNode perm) /\ onChain rs ms k)) /\
      (r = Ok tt -> isDir fs' (absPath (rs ++ ms))) /\
      ((forall k, onChain rs ms k -> notFile fs k) -> r = Ok tt) /\
      (r <> Ok tt -> fs' = fs).
Proof.
  intros Hrs ms. induction ms as [|m ms IH] using rev_ind;
    intros fuel fs Hms Hfuel Hdir.
  - rewrite app_nil_r. destruct Hdir as [p Hp].
    exists (Ok tt), fs. split; [|split; [|split; [|split]]].
    + now rewrite MkdirAll_rec_unfold, Stat_absPath, Hp.
    + intros; now left.
    + intros _. now exists p.
    + auto.
    + congruence.
  - apply normalAll_app in Hms as [Hms Hm].
    inversion Hm as [|? ? Hm' _]; subst.
    assert (Hall : normalAll (rs ++ ms ++ [m])).
    { repeat (apply normalAll_app; split); auto. }
    assert (Hrm : normalAll (rs ++ ms)) by (apply normalAll_app; auto).
    assert (Hself : onChain rs (ms ++ [m]) (absPath (rs ++ ms ++ [m]))).
    { exists (ms ++ [m])%list, []. rewrite app_nil_r.
      repeat split. now destruct ms. }
    rewrite MkdirAll_rec_unfold, Stat_absPath by assumption.
    destruct (fs !! absPath (rs ++ ms ++ [m])) as [[p | p d]|] eqn:Hlook.
    + exists (Ok tt), fs. split; [|split; [|split; [|split]]].
      * reflexivity.
      * intros; now left.
      * intros _. now exists p.
      * auto.
      * congruence.
    + exists (Err ENOTDIR), fs. split; [|split; [|split; [|split]]].
      * reflexivity.
      * intros; now left.
      * discriminate.
      * intros Hnf. exfalso. now apply (Hnf _ Hself p d).
      * auto.
    + destruct fuel as [|fuel]; [rewrite length_app in Hfuel; simpl in Hfuel; lia|].
      rewrite length_app in Hfuel. simpl in Hfuel.
      (* the parent step *)
      assert (Hparent : exists r1 fs1,
        (match parentPrefix (absPath (rs ++ ms ++ [m])) with
         | Some parent => MkdirAll_rec cwd fuel parent perm
         | None => ret tt
         end) fs = (r1, fs1) /\
        (forall k, fs1 !! k = fs !! k \/
           (fs !! k = None /\ fs1 !! k = Some (DirNode perm) /\ onChain rs ms k)) /\
        (r1 = Ok tt -> isDir fs1 (absPath (rs ++ ms))) /\
        ((forall k, onChain rs ms k -> notFile fs k) -> r1 = Ok tt) /\
        (r1 <> Ok tt -> fs1 = fs)).
      { rewrite app_assoc, parentPrefix_snoc by assumption.
        destruct (decide ((rs ++ ms)%list = [])) as [Hnil | Hnn].
        - exists (Ok tt), fs. apply app_eq_nil in Hnil as [-> ->].
          split; [|split; [|split; [|split]]];
            [reflexivity | intros; now left | auto | auto | congruence].
        - apply IH; auto; lia. }
      destruct Hparent as (r1 & fs1 & Hrun & Hframe & Hdir1 & Hok1 & Herr1).
      unfold bind at 1. rewrite Hrun.
      destruct r1 as [[] | e1].
      * (* the parent is there: [Mkdir] adds the directory *)
        assert (Hnone1 : fs1 !! absPath (rs ++ ms ++ [m]) = None).
        { destruct (Hframe (absPath (rs ++ ms ++ [m]))) as [-> | (_ & _ & Hch)];
            [assumption|].
          destruct Hch as (ms1 & ms2 & Hsplit & _ & Heq).
          destruct (absPath_snoc_neq rs ms ms1 ms2 m Hrs Hms Hm' Hsplit Heq). }
        destruct (Hdir1 eq_refl) as [pp Hpp].
        unfold Mkdir.
        assert (Hne : String.eqb (absPath (rs ++ ms ++ [m])) EmptyString = false)
          by reflexivity.
        rewrite Hne, resolve_absPath, Hnone1 by assumption.
        rewrite (app_assoc rs ms [m]), parentKey_snoc, Hpp by assumption.
        rewrite <- (app_assoc rs ms [m]).
        exists (Ok tt), (<[absPath (rs ++ ms ++ [m]) := DirNode perm]> fs1).
        split; [|split; [|split; [|split]]].
        -- reflexivity.
        -- intros k. destruct (decide (k = absPath (rs ++ ms ++ [m]))) as [-> | Hk].
           ++ right. rewrite lookup_insert_eq. auto.
           ++ rewrite lookup_insert_ne by congruence.
              destruct (Hframe k) as [-> | (H1 & H2 & Hch)]; [now left|].
              right. auto using onChain_snoc.
        -- intros _. exists perm. apply lookup_insert_eq.
        -- auto.
        -- congruence.
      * exists (Err e1), fs1. split; [|split; [|split; [|split]]].
        -- reflexivity.
        -- intros k. destruct (Hframe k) as [-> | (H1 & H2 & Hch)]; [now left|].
           right. auto using onChain_snoc.
        -- discriminate.
        -- intros Hnf. exfalso.
           assert (Hc : @Err unit e1 = Ok tt); [|discriminate].
           apply Hok1. intros k Hch. apply Hnf. now apply onChain_snoc.
        -- intros _. apply Herr1. discriminate.
Qed.

Lemma MkdirAll_abs (perm : Z) (rs ms : list string) (fs : FS) :
  normalAll rs -> normalAll ms -> isDir fs (absPath rs) ->
  exists r fs',
    MkdirAll cwd (absPath (rs ++ ms)) perm fs = (r, fs') /\
    (forall k, fs' !! k = fs !! k \/
               (fs !! k = None /\ fs' !! k = Some (DirNode perm) /\ onChain rs ms k)) /\
    (r = Ok tt -> isDir fs' (absPath (rs ++ ms))) /\
    ((forall k, onChain rs ms k -> notFile fs k) -> r = Ok tt) /\
    (r <> Ok tt -> fs' = fs).
Proof.
  intros Hrs Hms Hdir. unfold MkdirAll. apply MkdirAll_rec_abs; auto.
  pose proof (absPath_length (rs ++ ms)) as H. rewrite length_app in H. lia.
Qed.

Lemma OpenFile_abs (perm : Z) (els : list string) (e : string) (fs : FS) :
  normalAll els -> normalElem e = true -> isDir fs (absPath els) ->
  OpenFile_CREATE_RDWR cwd (absPath (els ++ [e])) perm fs =
  match fs !! absPath (els ++ [e]) with
  | Some (DirNode _) => (Err EISDIR, fs)
  | Some (FileNode _ _) => (Ok (absPath (els ++ [e])), fs)
  | None =>
      (Ok (absPath (els ++ [e])),
       <[absPath (els ++ [e]) := FileNode perm EmptyString]> fs)
  end.
Proof.
  intros Hels He [p Hp]. unfold OpenFile_CREATE_RDWR.
  assert (Hne : String.eqb (absPath (els ++ [e])) EmptyString = false) by reflexivity.
  rewrite Hne, resolve_absPath
    by (apply normalAll_app; split; [assumption | now constructor]).
  destruct (fs !! absPath (els ++ [e])) as [[?|? ?]|]; try reflexivity.
  now rewrite parentKey_snoc, Hp.
Qed.

Lemma onChain_last (rs ms : list string) (m k : string) :
  onChain rs (ms ++ [m]) k <-> onChain rs ms k \/ k = absPath (rs ++ ms ++ [m]).
Proof.
  split.
  - intros (ms1 & ms2 & Hs & Hn & ->).
    destruct ms2 as [|x ms2 _] using rev_ind.
    + right. rewrite app_nil_r in Hs. now rewrite Hs.
    + left. rewrite app_assoc in Hs. apply app_inj_tail in Hs as [-> _].
      now exists ms1, ms2.
  - intros [H | ->]; [now apply onChain_snoc|].
    exists (ms ++ [m])%list, []. rewrite app_nil_r. repeat split. now destruct ms.
Qed.

End FsFacts.

(** ** The sanitizers *)

Section SanitizerFacts.

Lemma TrimLeft_head (s cutset : string) :
  match TrimLeft s cutset with
  | EmptyString => True
  | String c _ => ContainsByte cutset c = false
  end.
Proof.
  induction s as [|c s IH]; simpl; [exact I|].
  destruct (ContainsByte cutset c) eqn:Hc; [exact IH | exact Hc].
Qed.

Lemma TrimLeft_suffix (s cutset : string) :
  exists a, s = a +:+ TrimLeft s cutset.
Proof.
  induction s as [|c s [a IH]]; simpl.
  - now exists EmptyString.
  - destruct (ContainsByte cutset c).
    + exists (String c a). simpl. now f_equal.
    + now exists EmptyString.
Qed.

Lemma TrimLeft_id (s cutset : string) (c : ascii) :
  ContainsByte cutset c = false -> TrimLeft (String c s) cutset = String c s.
Proof. intros H. simpl. now rewrite H. Qed.

(** The path after the drive prefix and the leading separators. *)
Lemma sanitizeExtractPath_cases (os : GOOS) (path : string) :
  let p := TrimLeft (if hasDrivePrefix path then sliceFrom 2 path else path) "/\" in
  (sanitizeExtractPath os path = EmptyString /\
   (p = EmptyString \/ Trim p "." = EmptyString \/ Contains p ".." = true)) \/
  (p <> EmptyString /\ Trim p "." <> EmptyString /\ Contains p ".." = false /\
   sanitizeExtractPath os path =
   if Ascii.eqb (Separator os) "\"
   then ReplaceClass invalidChars (FromSlash os p)
   else FromSlash os p).
Proof.
  intros p. unfold sanitizeExtractPath. fold p.
  destruct (String.eqb p EmptyString) eqn:H1.
  - left. apply String.eqb_eq in H1. auto.
  - destruct (String.eqb (Trim p ".") EmptyString) eqn:H2; simpl.
    + left. apply String.eqb_eq in H2. auto.
    + destruct (Contains p "..") eqn:H3.
      * left. auto.
      * right. apply String.eqb_neq in H1, H2. auto.
Qed.

Lemma sanitizeExtractPath_Unix (path : string) :
  let r := sanitizeExtractPath Unix path in
  r = EmptyString \/
  (Contains r ".." = false /\
   r = TrimLeft (if hasDrivePrefix path then sliceFrom 2 path else path) "/\").
Proof.
  intros r. subst r.
  destruct (sanitizeExtractPath_cases Unix path) as [[H _] | (H1 & H2 & H3 & H4)].
  - now left.
  - right. rewrite H4. simpl. auto.
Qed.

End SanitizerFacts.

(** ** Where an entry is extracted *)

Section TargetFacts.

Import filepath.

Lemma HasPrefix_absPath_under (rs ns : list string) :
  rs <> [] -> ns <> [] ->
  HasPrefix (absPath (rs ++ ns)) (absPath rs +:+ "/") = true.
Proof.
  intros Hr Hn. rewrite absPath_app by assumption.
  rewrite <- append_assoc. apply HasPrefix_app.
Qed.

Lemma HasPrefix_longer (s t : string) :
  t <> EmptyString -> HasPrefix s (s +:+ t) = false.
Proof.
  intros Ht. destruct (HasPrefix s (s +:+ t)) eqn:E; [|reflexivity].
  apply HasPrefix_length in E. rewrite length_append in E.
  destruct t; [congruence | simpl in E; lia].
Qed.

Lemma HasPrefix_root_slash (ns : list string) :
  normalAll ns -> HasPrefix (absPath ns) "//" = false.
Proof.
  intros Hns. destruct ns as [|e ns]; [reflexivity|].
  inversion Hns as [|? ? He _]; subst.
  apply normalElem_spec in He as (H1 & H2 & _).
  destruct e as [|c e]; [congruence|].
  unfold noSlash in H2. simpl in H2. apply orb_false_iff in H2 as [H2 _].
  unfold absPath. destruct ns; simpl; rewrite Ascii.eqb_sym in H2;
    change (Ascii.eqb "/" "/") with true; simpl; now rewrite H2.
Qed.

(** What the loop computes for an entry: it skips it, or it settles
    on a target strictly below the root. *)
Lemma target_spec (rs : list string) (name : string) :
  normalAll rs ->
  let cleanName := sanitizeExtractPath Unix name in
  let targetPath := Join [absPath rs; cleanName] in
  let accepted :=
    negb (String.eqb cleanName EmptyString) &&
    HasPrefix targetPath (Clean (absPath rs) +:+ String (Separator Unix) EmptyString) in
  match targetElems name with
  | Some ns =>
      normalAll ns /\ ns <> [] /\ targetPath = absPath (rs ++ ns) /\
      accepted = negb (if decide (rs = []) then true else false) /\
      String.eqb cleanName EmptyString = false
  | None => accepted = false
  end.
Proof.
  intros Hrs. cbv zeta. unfold targetElems.
  remember (sanitizeExtractPath Unix name) as cleanName eqn:Hc.
  destruct (String.eqb cleanName EmptyString) eqn:Hempty; [reflexivity|].
  assert (Hdd : Forall (fun e => e <> "..") (elements cleanName)).
  { destruct (sanitizeExtractPath_Unix name) as [H | [H _]]; rewrite <- Hc in H.
    - apply String.eqb_neq in Hempty. congruence.
    - now apply elements_no_dotdot. }
  rewrite Join_abs, Clean_absPath by assumption.
  pose proof (keptElems_normal cleanName Hdd) as Hnorm.
  cbn [negb andb].
  destruct (keptElems cleanName) as [|n ns] eqn:Hk.
  - rewrite app_nil_r. apply HasPrefix_longer. discriminate.
  - repeat split; auto; try discriminate.
    destruct (decide (rs = [])) as [-> | Hne].
    + simpl app. change (absPath [] +:+ String (Separator Unix) EmptyString) with "//".
      now apply HasPrefix_root_slash.
    + now apply HasPrefix_absPath_under.
Qed.

End TargetFacts.

(** ** The extraction loop *)

Section LoopFacts.

Import filepath.

Variable cwd : string.

Lemma onChain_under (rs ms : list string) (k : string) :
  rs <> [] -> onChain rs ms k -> HasPrefix k (absPath rs +:+ "/") = true.
Proof.
  intros Hne (ms1 & ms2 & _ & Hn & ->). now apply HasPrefix_absPath_under.
Qed.

Lemma extractEntries_step (rs : list string) (header : Header) (payload : string)
    (rest : TarStream) (n : Z) (fs : FS) :
  normalAll rs -> rs <> [] ->
  extractEntries cwd (absPath rs) (TarEntry header payload rest) n fs =
  match targetElems (Name header) with
  | None => extractEntries cwd (absPath rs) rest n fs
  | Some ns =>
      match extractOne cwd (absPath (rs ++ ns)) header payload fs with
      | (Ok b, fs') =>
          extractEntries cwd (absPath rs) rest (if b then incr n else n) fs'
      | (Err e, fs') => (Err e, fs')
      end
  end.
Proof.
  intros Hrs Hne.
  pose proof (target_spec rs (Name header) Hrs) as Hspec. cbv zeta in Hspec.
  cbn [extractEntries].
  destruct (targetElems (Name header)) as [ns|].
  - destruct Hspec as (Hns & Hnn & Htarget & Hacc & Hempty).
    rewrite Hempty in *. cbn [negb andb] in Hacc.
    destruct (decide (rs = [])); [congruence|].
    rewrite Hacc, Htarget. cbn [negb].
    unfold extractOne, bind.
    destruct (wrapErr _ (MkdirAll cwd (Dir (absPath (rs ++ ns))) 493) fs)
      as [[[]|e1] fs1]; [|reflexivity].
    destruct (Ascii.eqb (Typeflag header) TypeDir).
    + destruct (wrapErr _ (MkdirAll cwd (absPath (rs ++ ns)) (FileMode (Mode header))) fs1)
        as [[[]|e2] fs2]; reflexivity.
    + destruct (Ascii.eqb (Typeflag header) TypeReg); [|reflexivity].
      destruct (wrapErr _ (OpenFile_CREATE_RDWR cwd (absPath (rs ++ ns))
                  (FileMode (Mode header))) fs1) as [[h|e2] fs2]; [|reflexivity].
      destruct (wrapErr _ (Copy h payload) fs2) as [[[]|e3] fs3]; reflexivity.
  - destruct (String.eqb (sanitizeExtractPath Unix (Name header)) EmptyString);
      [reflexivity|].
    cbn [negb andb] in Hspec. now rewrite Hspec.
Qed.

Lemma isDir_kept (fs fs' : FS) (k : string) :
  (forall k, fs' !! k = fs !! k \/ fs !! k = None /\ fs' !! k <> None) ->
  isDir fs k -> isDir fs' k.
Proof.
  intros Hframe [p Hp]. exists p.
  destruct (Hframe k) as [-> | [Hnone _]]; congruence.
Qed.

Lemma Copy_file (k : string) (perm : Z) (data payload : string) (fs : FS) :
  fs !! k = Some (FileNode perm data) ->
  Copy k payload fs =
  (Ok tt, <[k := FileNode perm (payload +:+ sliceFrom (String.length payload) data)]> fs).
Proof. intros H. unfold Copy. now rewrite H. Qed.

Lemma sliceFrom_nil (n : nat) : sliceFrom n EmptyString = EmptyString.
Proof. now destruct n. Qed.

(** Whatever an entry is, one turn of the loop changes nodes only at
    its target and between the root and its target. *)
Lemma extractOne_frame (rs ns : list string) (header : Header) (payload : string)
    (fs : FS) (r : result bool) (fs' : FS) :
  normalAll rs -> normalAll ns -> ns <> [] -> isDir fs (absPath rs) ->
  extractOne cwd (absPath (rs ++ ns)) header payload fs = (r, fs') ->
  forall k, fs' !! k = fs !! k \/ onChain rs ns k.
Proof.
  intros Hrs Hns Hnn Hdir.
  destruct (exists_last Hnn) as [ms [m ->]].
  apply normalAll_app in Hns as [Hms Hm]. inversion Hm as [|? ? Hm' _]; subst.
  assert (Hrm : normalAll (rs ++ ms)) by (apply normalAll_app; auto).
  assert (Htarget : onChain rs (ms ++ [m]) (absPath (rs ++ ms ++ [m])))
    by (apply onChain_last; now right).
  unfold extractOne, bind, wrapErr.
  rewrite (app_assoc rs ms [m]), Dir_absPath_snoc by assumption.
  destruct (MkdirAll_abs cwd 493 rs ms fs Hrs Hms Hdir)
    as (r1 & fs1 & Hrun1 & Hf1 & Hd1 & _ & _).
  rewrite Hrun1.
  assert (Hstep1 : forall k, fs1 !! k = fs !! k \/ onChain rs (ms ++ [m]) k).
  { intros k. destruct (Hf1 k) as [-> | (_ & _ & Hch)];
      [now left | right; now apply onChain_snoc]. }
  destruct r1 as [[]|e1]; [|intros [= <- <-]; exact Hstep1].
  assert (Hdir1 : isDir fs1 (absPath rs)).
  { apply (isDir_kept fs); [|assumption]. intros k.
    destruct (Hf1 k) as [-> | (H1 & H2 & _)]; [now left|right]. split; congruence. }
  destruct (Ascii.eqb (Typeflag header) TypeDir).
  - rewrite <- (app_assoc rs ms [m]).
    destruct (MkdirAll_abs cwd (FileMode (Mode header)) rs (ms ++ [m]) fs1 Hrs)
      as (r2 & fs2 & Hrun2 & Hf2 & _); auto.
    { apply normalAll_app; auto. }
    rewrite Hrun2.
    assert (Hstep2 : forall k, fs2 !! k = fs !! k \/ onChain rs (ms ++ [m]) k).
    { intros k. destruct (Hf2 k) as [-> | (_ & _ & Hch)]; [apply Hstep1 | now right]. }
    destruct r2 as [[]|e2]; intros [= <- <-]; exact Hstep2.
  - destruct (Ascii.eqb (Typeflag header) TypeReg);
      [|intros [= <- <-]; exact Hstep1].
    rewrite OpenFile_abs by auto.
    rewrite <- (app_assoc rs ms [m]).
    destruct (fs1 !! absPath (rs ++ ms ++ [m])) as [[p|p d]|] eqn:Hlook.
    + intros [= <- <-]. exact Hstep1.
    + rewrite (Copy_file _ p d) by assumption. intros [= <- <-].
      intros k. destruct (decide (k = absPath (rs ++ ms ++ [m]))) as [-> | Hk];
        [now right|].
      rewrite lookup_insert_ne by congruence. apply Hstep1.
    + rewrite (Copy_file _ (FileMode (Mode header)) EmptyString)
        by apply lookup_insert_eq.
      intros [= <- <-].
      intros k. destruct (decide (k = absPath (rs ++ ms ++ [m]))) as [-> | Hk];
        [now right|].
      rewrite !lookup_insert_ne by congruence. apply Hstep1.
Qed.

(** One turn of the loop for an entry whose target is free. *)
Lemma extractOne_ok (rs ms : list string) (m : string) (header : Header)
    (payload : string) (fs : FS) :
  let target := absPath (rs ++ ms ++ [m]) in
  normalAll rs -> normalAll ms -> normalElem m = true -> isDir fs (absPath rs) ->
  (forall k, onChain rs ms k -> notFile fs k) ->
  (Typeflag header = TypeDir -> notFile fs target) ->
  (Typeflag header = TypeReg -> fs !! target = None) ->
  exists fs',
    extractOne cwd target header payload fs =
      (Ok (Ascii.eqb (Typeflag header) TypeReg), fs') /\
    (forall k,
        fs' !! k = fs !! k \/
        (fs !! k = None /\
         (((exists p, fs' !! k = Some (DirNode p)) /\
           (onChain rs ms k \/ (Typeflag header = TypeDir /\ k = target))) \/
          (Typeflag header = TypeReg /\ k = target /\
           fs' !! k = Some (FileNode (FileMode (Mode header)) payload))))) /\
    (Typeflag header = TypeDir -> isDir fs' target) /\
    (Typeflag header = TypeReg ->
     fs' !! target = Some (FileNode (FileMode (Mode header)) payload)).
Proof.
  intros target Hrs Hms Hm Hdir Hanc HisDir HisReg. subst target.
  assert (Hrm : normalAll (rs ++ ms)) by (apply normalAll_app; auto).
  unfold extractOne, bind, wrapErr.
  rewrite (app_assoc rs ms [m]), Dir_absPath_snoc by assumption.
  destruct (MkdirAll_abs cwd 493 rs ms fs Hrs Hms Hdir)
    as (r1 & fs1 & Hrun1 & Hf1 & Hd1 & Hok1 & _).
  rewrite Hrun1, (Hok1 Hanc) in *. specialize (Hd1 eq_refl).
  assert (Hdir1 : isDir fs1 (absPath rs)).
  { apply (isDir_kept fs); [|assumption]. intros k.
    destruct (Hf1 k) as [-> | (H1 & H2 & _)]; [now left|right]. split; congruence. }
  rewrite <- (app_assoc rs ms [m]).
  assert (Hsame1 : fs1 !! absPath (rs ++ ms ++ [m]) = fs !! absPath (rs ++ ms ++ [m])).
  { destruct (Hf1 (absPath (rs ++ ms ++ [m]))) as [-> | (_ & _ & Hch)]; [reflexivity|].
    destruct Hch as (ms1 & ms2 & Hs & _ & Heq).
    destruct (absPath_snoc_neq rs ms ms1 ms2 m Hrs Hms Hm Hs Heq). }
  assert (Hstep1 : forall k, fs1 !! k = fs !! k \/
     (fs !! k = None /\ (exists p, fs1 !! k = Some (DirNode p)) /\ onChain rs ms k)).
  { intros k. destruct (Hf1 k) as [-> | (H1 & H2 & H3)]; [now left|right]. eauto. }
  destruct (Ascii.eqb (Typeflag header) TypeDir) eqn:Hd.
  - apply Ascii.eqb_eq in Hd.
    assert (Hreg : Ascii.eqb (Typeflag header) TypeReg = false) by now rewrite Hd.
    rewrite Hreg.
    destruct (MkdirAll_abs cwd (FileMode (Mode header)) rs (ms ++ [m]) fs1 Hrs)
      as (r2 & fs2 & Hrun2 & Hf2 & Hd2 & Hok2 & _); auto.
    { apply normalAll_app; auto. }
    assert (Hr2 : r2 = Ok tt).
    { apply Hok2. intros k [Hch | ->]%onChain_last.
      - intros p d Hk. destruct (Hstep1 k) as [Heq | (_ & [q Hq] & _)];
          [|congruence].
        rewrite Heq in Hk. exact (Hanc k Hch p d Hk).
      - unfold notFile. rewrite Hsame1. now apply HisDir. }
    rewrite Hrun2, Hr2. exists fs2. split; [reflexivity|]. split.
    + intros k. destruct (Hf2 k) as [-> | (H1 & H2 & Hch)].
      * destruct (Hstep1 k) as [-> | (H1 & H2 & H3)]; [now left|].
        right. split; [assumption|]. left. auto.
      * destruct (Hstep1 k) as [Heq | (H3 & [q Hq] & _)]; [|congruence].
        right. rewrite <- Heq. split; [assumption|]. left.
        split; [eauto|]. apply onChain_last in Hch as [Hch | ->]; auto.
    + split; [intros _; now apply Hd2|].
      intros Hr'. rewrite Hr' in Hd. discriminate.
  - destruct (Ascii.eqb (Typeflag header) TypeReg) eqn:Hr.
    + apply Ascii.eqb_eq in Hr. specialize (HisReg Hr).
      rewrite (app_assoc rs ms [m]) in *.
      rewrite (OpenFile_abs _ _ (rs ++ ms) m) by auto.
      rewrite Hsame1, HisReg.
      rewrite (Copy_file _ (FileMode (Mode header)) EmptyString)
        by apply lookup_insert_eq.
      rewrite sliceFrom_nil, append_nil_r, insert_insert_eq.
      eexists. split; [reflexivity|]. split.
      * intros k. destruct (decide (k = absPath ((rs ++ ms) ++ [m]))) as [-> | Hk].
        -- right. split; [assumption|]. right. rewrite lookup_insert_eq. auto.
        -- rewrite lookup_insert_ne by congruence.
           destruct (Hstep1 k) as [-> | (H1 & H2 & H3)]; [now left|].
           right. split; [assumption|]. left. auto.
      * split; [intros Hd'; rewrite Hd' in Hd; discriminate|].
        intros _. apply lookup_insert_eq.
    + exists fs1. split; [reflexivity|]. split.
      * intros k. destruct (Hstep1 k) as [-> | (H1 & H2 & H3)]; [now left|].
        right. split; [assumption|]. left. auto.
      * split; [intros Hd'; rewrite Hd' in Hd; discriminate|].
        intros Hr'. rewrite Hr' in Hr. discriminate.
Qed.

Lemma extractEntries_at_root (header : Header) (payload : string)
    (rest : TarStream) (n : Z) (fs : FS) :
  extractEntries cwd (absPath []) (TarEntry header payload rest) n fs =
  extractEntries cwd (absPath []) rest n fs.
Proof.
  pose proof (target_spec [] (Name header) (List.Forall_nil _)) as Hspec.
  cbv zeta in Hspec. cbn [extractEntries].
  destruct (String.eqb (sanitizeExtractPath Unix (Name header)) EmptyString) eqn:He;
    [reflexivity|].
  destruct (targetElems (Name header)) as [ns|].
  - destruct Hspec as (_ & _ & _ & Hacc & _). cbn [negb andb] in Hacc.
    destruct (decide (@nil string = [])); [|congruence].
    now rewrite Hacc.
  - cbn [negb andb] in Hspec. now rewrite Hspec.
Qed.

(** The loop changes nothing outside the destination root. *)
Lemma extractEntries_frame (rs : list string) :
  normalAll rs ->
  forall (tarReader : TarStream) (n : Z) (fs : FS) (r : result Z) (fs' : FS),
    isDir fs (absPath rs) ->
    extractEntries cwd (absPath rs) tarReader n fs = (r, fs') ->
    forall k, HasPrefix k (absPath rs +:+ "/") = false -> fs' !! k = fs !! k.
Proof.
  intros Hrs tarReader.
  induction tarReader as [| |header payload rest IH]; intros n fs r fs' Hdir.
  - intros [= <- <-]. reflexivity.
  - intros [= <- <-]. reflexivity.
  - destruct (decide (rs = [])) as [-> | Hne].
    { rewrite extractEntries_at_root. now apply IH. }
    rewrite extractEntries_step by assumption.
    pose proof (target_spec rs (Name header) Hrs) as Hspec. cbv zeta in Hspec.
    destruct (targetElems (Name header)) as [ns|]; [|now apply IH].
    destruct Hspec as (Hns & Hnn & _).
    destruct (extractOne cwd (absPath (rs ++ ns)) header payload fs)
      as [r1 fs1] eqn:Hone.
    pose proof (extractOne_frame rs ns header payload fs r1 fs1 Hrs Hns Hnn Hdir Hone)
      as Hframe.
    assert (Hout : forall k, HasPrefix k (absPath rs +:+ "/") = false ->
                     fs1 !! k = fs !! k).
    { intros k Hk. destruct (Hframe k) as [-> | Hch]; [reflexivity|].
      apply (onChain_under rs ns k Hne) in Hch. congruence. }
    destruct r1 as [b|e].
    + intros Hrun k Hk. rewrite <- (Hout k Hk).
      apply (IH (if b then incr n else n) fs1 r fs'); auto.
      destruct Hdir as [p Hp]. exists p. rewrite Hout; [assumption|].
      apply HasPrefix_longer. discriminate.
    + intros [= <- <-]. exact Hout.
Qed.

Lemma onChain_properPrefix (rs ms : list string) (m k : string) :
  onChain rs ms k ->
  exists d, d ∈ properPrefixes (ms ++ [m]) /\ k = absPath (rs ++ d).
Proof.
  intros (ms1 & ms2 & -> & Hn & ->). exists ms1. split; [|reflexivity].
  apply list_elem_of_In. unfold properPrefixes. apply in_map_iff.
  exists (List.length ms1). split.
  - rewrite <- app_assoc. now rewrite take_app_length.
  - apply in_seq. rewrite !length_app. simpl.
    destruct ms1; [congruence | simpl; lia].
Qed.

Lemma properPrefixes_normal (ns d : list string) :
  normalAll ns -> d ∈ properPrefixes ns -> normalAll d.
Proof.
  intros Hns Hd. apply list_elem_of_In in Hd. unfold properPrefixes in Hd.
  apply in_map_iff in Hd as [i [<- _]]. now apply Forall_take.
Qed.

Lemma targetElems_normal (name : string) (ns : list string) :
  targetElems name = Some ns -> normalAll ns /\ ns <> [].
Proof.
  intros H. pose proof (target_spec [] name (List.Forall_nil _)) as Hspec.
  cbv zeta in Hspec. rewrite H in Hspec. tauto.
Qed.

Lemma dirTargetsOf_normal (e : Header * string) (d : list string) :
  d ∈ dirTargetsOf e -> normalAll d.
Proof.
  unfold dirTargetsOf. destruct (targetElems (Name e.1)) as [ns|] eqn:Ht;
    [|now intros ?%elem_of_nil].
  apply targetElems_normal in Ht as [Hns _].
  intros [Hd | Hd]%elem_of_app.
  - now apply (properPrefixes_normal ns).
  - destruct (Ascii.eqb (Typeflag e.1) TypeDir); [|now apply elem_of_nil in Hd].
    apply list_elem_of_singleton in Hd. now subst.
Qed.

Lemma dirTargets_normal (es : list (Header * string)) (d : list string) :
  d ∈ dirTargets es -> normalAll d.
Proof.
  induction es as [|e es IH]; [now intros ?%elem_of_nil|].
  unfold dirTargets. simpl. intros [Hd | Hd]%elem_of_app.
  - now apply (dirTargetsOf_normal e).
  - now apply IH.
Qed.

Lemma fileTargets_normal (es : list (Header * string)) (f : list string) :
  f ∈ fileTargets es -> normalAll f.
Proof.
  induction es as [|e es IH]; [now intros ?%elem_of_nil|].
  unfold fileTargets. simpl. intros [Hf | Hf]%elem_of_app; [|now apply IH].
  unfold fileTargetsOf in Hf.
  destruct (targetElems (Name e.1)) as [ns|] eqn:Ht; [|now apply elem_of_nil in Hf].
  apply targetElems_normal in Ht as [Hns _].
  destruct (Ascii.eqb (Typeflag e.1) TypeReg); [|now apply elem_of_nil in Hf].
  apply list_elem_of_singleton in Hf. now subst.
Qed.

Lemma incr_small (n : Z) : -2 ^ 63 <= n + 1 < 2 ^ 63 -> incr n = n + 1.
Proof.
  intros H. unfold incr. rewrite Z.mod_small; lia.
Qed.

Lemma absPath_under_inj (rs a b : list string) :
  normalAll rs -> normalAll a -> normalAll b ->
  absPath (rs ++ a) = absPath (rs ++ b) -> a = b.
Proof.
  intros Hrs Ha Hb Heq. apply absPath_inj in Heq.
  - now apply app_inv_head in Heq.
  - apply normalAll_app; auto.
  - apply normalAll_app; auto.
Qed.

Lemma fileTargets_cons (e : Header * string) (es : list (Header * string)) :
  fileTargets (e :: es) = (fileTargetsOf e ++ fileTargets es)%list.
Proof. reflexivity. Qed.

Lemma dirTargets_cons (e : Header * string) (es : list (Header * string)) :
  dirTargets (e :: es) = (dirTargetsOf e ++ dirTargets es)%list.
Proof. reflexivity. Qed.

Lemma extractable_cons (e : Header * string) (es : list (Header * string)) :
  extractable (e :: es) -> extractable es.
Proof.
  intros [Hnd Hall]. rewrite fileTargets_cons in Hnd, Hall.
  apply NoDup_app in Hnd as (_ & _ & Hnd). apply Forall_app in Hall as [_ Hall].
  split; [assumption|].
  eapply Forall_impl; [exact Hall|]. intros f Hf Hin. apply Hf.
  rewrite dirTargets_cons. apply elem_of_app. now right.
Qed.

(** On a destination whose targets are free, entries that do not
    collide are all extracted. *)
Lemma extractEntries_fresh (rs : list string) :
  normalAll rs -> rs <> [] ->
  forall (es : list (Header * string)) (n : Z) (fs : FS),
    isDir fs (absPath rs) ->
    extractable es ->
    (forall d, d ∈ dirTargets es -> notFile fs (absPath (rs ++ d))) ->
    (forall f, f ∈ fileTargets es -> fs !! absPath (rs ++ f) = None) ->
    0 <= n -> n + Z.of_nat (countFiles es) < 2 ^ 63 ->
    exists fs',
      extractEntries cwd (absPath rs) (streamOf es) n fs =
        (Ok (n + Z.of_nat (countFiles es)), fs') /\
      (forall k v, fs !! k = Some v -> fs' !! k = Some v) /\
      (forall e ns, e ∈ es -> targetElems (Name e.1) = Some ns ->
         Typeflag e.1 = TypeReg ->
         fs' !! absPath (rs ++ ns) = Some (FileNode (FileMode (Mode e.1)) e.2)) /\
      (forall e ns, e ∈ es -> targetElems (Name e.1) = Some ns ->
         Typeflag e.1 = TypeDir -> isDir fs' (absPath (rs ++ ns))) /\
      (forall k, fs !! k = None -> fs' !! k <> None ->
         exists t, (t ∈ dirTargets es \/ t ∈ fileTargets es) /\ k = absPath (rs ++ t)).
Proof.
  intros Hrs Hne es.
  induction es as [|e es IH]; intros n fs Hdir Hext Hdirs Hfiles Hn Hbound.
  - exists fs. unfold countFiles. simpl. rewrite Z.add_0_r.
    split; [reflexivity|]. split; [auto|].
    split; [intros e ns He; now apply elem_of_nil in He|].
    split; [intros e ns He; now apply elem_of_nil in He|].
    intros k H1 H2. congruence.
  - change (streamOf (e :: es)) with (TarEntry e.1 e.2 (streamOf es)).
    rewrite extractEntries_step by assumption.
    destruct (targetElems (Name e.1)) as [ns|] eqn:Ht.
    + (* the entry has a target *)
      destruct (targetElems_normal _ _ Ht) as [Hns Hnn].
      destruct (exists_last Hnn) as [ms [m ->]].
      apply normalAll_app in Hns as [Hms Hm]. inversion Hm as [|? ? Hm' _]; subst.
      assert (HdOf : dirTargetsOf e =
                (properPrefixes (ms ++ [m]) ++
                 if Ascii.eqb (Typeflag e.1) TypeDir then [(ms ++ [m])%list] else [])%list)
        by (unfold dirTargetsOf; now rewrite Ht).
      assert (HfOf : fileTargetsOf e =
                if Ascii.eqb (Typeflag e.1) TypeReg then [(ms ++ [m])%list] else [])
        by (unfold fileTargetsOf; now rewrite Ht).
      assert (Hself_dir : Typeflag e.1 = TypeDir ->
                (ms ++ [m])%list ∈ dirTargets (e :: es)).
      { intros Hd. rewrite dirTargets_cons, HdOf, Hd. simpl.
        apply elem_of_app. left. apply elem_of_app. right. apply list_elem_of_here. }
      assert (Hself_file : Typeflag e.1 = TypeReg ->
                (ms ++ [m])%list ∈ fileTargets (e :: es)).
      { intros Hr. rewrite fileTargets_cons, HfOf, Hr. simpl. apply list_elem_of_here. }
      assert (Hchain : forall k, onChain rs ms k ->
                exists d, d ∈ dirTargets (e :: es) /\ k = absPath (rs ++ d)).
      { intros k Hch. destruct (onChain_properPrefix rs ms m k Hch) as [d [Hd ->]].
        exists d. split; [|reflexivity].
        rewrite dirTargets_cons, HdOf. apply elem_of_app. left.
        apply elem_of_app. now left. }
      destruct (extractOne_ok rs ms m e.1 e.2 fs Hrs Hms Hm' Hdir)
        as (fs1 & Hone & Hstep & HdirT & HregT).
      { intros k Hch. destruct (Hchain k Hch) as [d [Hd ->]]. now apply Hdirs. }
      { intros Hd. rewrite app_assoc. rewrite <- (app_assoc rs). apply Hdirs. auto. }
      { intros Hr. apply Hfiles. auto. }
      cbv zeta in Hone. rewrite Hone.
      (* the state after this entry *)
      assert (Hmono1 : forall k, fs1 !! k = fs !! k \/ fs !! k = None /\ fs1 !! k <> None).
      { intros k. destruct (Hstep k) as [-> | [H0 [[[p Hp] _] | (_ & _ & Hf)]]];
          [now left | right | right]; split; congruence. }
      assert (Hdir1 : isDir fs1 (absPath rs)) by now apply (isDir_kept fs).
      pose proof (extractable_cons e es Hext) as Hext'.
      destruct Hext as [Hnd Hdisj]. rewrite fileTargets_cons, HfOf in Hnd, Hdisj.
      assert (Hcount : countFiles (e :: es) =
                ((if Ascii.eqb (Typeflag e.1) TypeReg then 1 else 0) + countFiles es)%nat).
      { unfold countFiles. rewrite fileTargets_cons, HfOf, length_app.
        now destruct (Ascii.eqb (Typeflag e.1) TypeReg). }
      assert (Hn1 : (if Ascii.eqb (Typeflag e.1) TypeReg then incr n else n) =
                n + Z.of_nat (if Ascii.eqb (Typeflag e.1) TypeReg then 1 else 0)).
      { destruct (Ascii.eqb (Typeflag e.1) TypeReg); [|simpl; lia].
        rewrite incr_small; [simpl; lia|]. rewrite Hcount in Hbound. lia. }
      rewrite Hn1.
      destruct (IH (n + Z.of_nat (if Ascii.eqb (Typeflag e.1) TypeReg then 1 else 0))
                  fs1 Hdir1 Hext')
        as (fs' & Hrun & Hmono & Hreg & Hdirs' & Hnew).
      { (* directories needed later are not files now *)
        intros d Hd p data Hk.
        assert (Hd' : d ∈ dirTargets (e :: es))
          by (rewrite dirTargets_cons; apply elem_of_app; now right).
        destruct (Hstep (absPath (rs ++ d))) as [Heq | [H0 [[[q Hq] _] | (Hr & Heq & _)]]].
        - rewrite Heq in Hk. exact (Hdirs d Hd' p data Hk).
        - congruence.
        - apply absPath_under_inj in Heq; auto;
            [|now apply (dirTargets_normal es) | apply normalAll_app; auto].
          subst d. apply Ascii.eqb_eq in Hr. rewrite Hr in Hdisj.
          apply Forall_app in Hdisj as [Hdisj _].
          inversion Hdisj as [|? ? Hnot _]; subst. now apply Hnot. }
      { (* files needed later are still free *)
        intros f Hf.
        assert (Hf' : f ∈ fileTargets (e :: es))
          by (rewrite fileTargets_cons; apply elem_of_app; now right).
        assert (Hfn : normalAll f) by now apply (fileTargets_normal es).
        assert (Hnotdir : f ∉ dirTargets (e :: es)).
        { rewrite fileTargets_cons, HfOf in Hf'.
          rewrite Forall_forall in Hdisj. now apply Hdisj. }
        destruct (Hstep (absPath (rs ++ f)))
          as [Heq | [H0 [[_ [Hch | [Hd Heq]]] | (Hr & Heq & _)]]].
        - rewrite Heq. now apply Hfiles.
        - destruct (Hchain _ Hch) as [d [Hd Heq]].
          apply absPath_under_inj in Heq; auto;
            [|now apply (dirTargets_normal (e :: es))].
          subst d. contradiction.
        - apply absPath_under_inj in Heq; auto; [|apply normalAll_app; auto].
          subst f. exfalso. apply Hnotdir. auto.
        - apply absPath_under_inj in Heq; auto; [|apply normalAll_app; auto].
          subst f. apply Ascii.eqb_eq in Hr. rewrite Hr in Hnd.
          apply NoDup_app in Hnd as (_ & Hnd & _).
          exfalso. apply (Hnd (ms ++ [m])%list); [apply list_elem_of_here | assumption]. }
      { lia. }
      { rewrite Hcount in Hbound. rewrite Nat2Z.inj_add in Hbound. lia. }
      exists fs'. split; [|split; [|split; [|split]]].
      * rewrite Hrun. f_equal. f_equal. rewrite Hcount, Nat2Z.inj_add. lia.
      * intros k v Hk. apply Hmono.
        destruct (Hmono1 k) as [-> | [H0 _]]; congruence.
      * intros e' ns' [-> | He']%elem_of_cons Ht' Hr.
        -- rewrite Ht in Ht'. injection Ht' as <-. apply Hmono. now apply HregT.
        -- now apply Hreg.
      * intros e' ns' [-> | He']%elem_of_cons Ht' Hd.
        -- rewrite Ht in Ht'. injection Ht' as <-.
           destruct (HdirT Hd) as [p Hp]. exists p. now apply Hmono.
        -- now apply (Hdirs' e').
      * intros k H0 Hk'.
        destruct (fs1 !! k) as [v|] eqn:H1.
        -- destruct (Hstep k) as [Heq | [_ [[_ [Hch | [Hd ->]]] | (Hr & -> & _)]]].
           ++ congruence.
           ++ destruct (Hchain k Hch) as [d [Hd ->]]. exists d. auto.
           ++ exists (ms ++ [m])%list. auto.
           ++ exists (ms ++ [m])%list. auto.
        -- destruct (Hnew k H1 Hk') as [t [[Ht1 | Ht1] ->]]; exists t; split; auto.
           ++ left. rewrite dirTargets_cons. apply elem_of_app. now right.
           ++ right. rewrite fileTargets_cons. apply elem_of_app. now right.
    + (* the entry is skipped *)
      assert (HdOf : dirTargetsOf e = []) by (unfold dirTargetsOf; now rewrite Ht).
      assert (HfOf : fileTargetsOf e = []) by (unfold fileTargetsOf; now rewrite Ht).
      assert (Hd : dirTargets (e :: es) = dirTargets es)
        by now rewrite dirTargets_cons, HdOf.
      assert (Hf : fileTargets (e :: es) = fileTargets es)
        by now rewrite fileTargets_cons, HfOf.
      assert (Hc : countFiles (e :: es) = countFiles es)
        by (unfold countFiles; now rewrite Hf).
      rewrite Hd, Hf, Hc in *.
      destruct (IH n fs Hdir (extractable_cons e es Hext) Hdirs Hfiles Hn Hbound)
        as (fs' & Hrun & Hmono & Hreg & Hdirs' & Hnew).
      exists fs'. split; [|split; [|split; [|split]]]; auto.
      * intros e' ns' [-> | He']%elem_of_cons Ht' Hr; [congruence | now apply Hreg].
      * intros e' ns' [-> | He']%elem_of_cons Ht' Hr; [congruence | now apply (Hdirs' e')].
Qed.

End LoopFacts.

(** ** The calls of [decompressFile] before its loop *)

Section Prologue.

Import filepath.

Variables (cs : list string) (outputDir archiveFile : string).
Variables (zstdTarReader : string -> TarStream) (fs : FS) (data : string).
Hypothesis Hready : unpackReady cs outputDir archiveFile fs data.

Lemma outputRoot_normal : normalAll (cs ++ [outputDir]).
Proof.
  destruct Hready as (Hcs & Hout & _). apply normalAll_app. split; [assumption|].
  now constructor.
Qed.

Lemma outputRoot_not_slash : String.eqb (outputRoot cs outputDir) "/" = false.
Proof.
  apply String.eqb_neq. intros Heq.
  change "/" with (absPath []) in Heq. unfold outputRoot in Heq.
  apply absPath_inj in Heq; [| apply outputRoot_normal | constructor].
  now destruct cs.
Qed.

Lemma cwd_outside_root :
  absPath cs <> outputRoot cs outputDir /\
  HasPrefix (absPath cs) (outputRoot cs outputDir +:+ "/") = false.
Proof.
  destruct Hready as (Hcs & Hout & _).
  assert (Hlen : (String.length (absPath cs) < String.length (outputRoot cs outputDir))%nat).
  { unfold outputRoot. rewrite absPath_snoc.
    apply normalElem_spec in Hout as [Hne _].
    destruct (decide (cs = [])) as [-> | _]; simpl;
      rewrite ?length_append; simpl; destruct outputDir; try congruence; simpl; lia. }
  split.
  - intros Heq. rewrite Heq in Hlen. lia.
  - destruct (HasPrefix _ _) eqn:E; [|reflexivity].
    apply HasPrefix_length in E. rewrite length_append in E. lia.
Qed.

Lemma Stat_outputRoot (m : FS) :
  Stat (absPath cs) (outputRoot cs outputDir) m = m !! outputRoot cs outputDir.
Proof. apply Stat_absPath, outputRoot_normal. Qed.

Lemma resolve_outputRoot :
  resolve (absPath cs) (outputRoot cs outputDir) = outputRoot cs outputDir.
Proof. apply resolve_absPath, outputRoot_normal. Qed.

Lemma Join_outputRoot : Join [absPath cs; outputDir] = outputRoot cs outputDir.
Proof.
  destruct Hready as (Hcs & Hout & _).
  rewrite Join_abs by (auto using normalElem_elements).
  now rewrite keptElems_single.
Qed.

Lemma onChain_outputRoot (k : string) :
  onChain cs [outputDir] k -> k = outputRoot cs outputDir.
Proof.
  intros (ms1 & ms2 & Hs & Hn & ->).
  destruct ms1 as [|x ms1]; [congruence|]. destruct ms1; [|destruct ms1; discriminate].
  now injection Hs as <- _.
Qed.

(** The filesystem the loop starts on: the destination is an empty
    directory and the rest is as before. *)
Lemma decompressFile_prologue :
  exists fs1,
    isDir fs1 (outputRoot cs outputDir) /\
    emptyBelow fs1 (outputRoot cs outputDir) /\
    (forall k, k <> outputRoot cs outputDir ->
               HasPrefix k (outputRoot cs outputDir +:+ "/") = false ->
               fs1 !! k = fs !! k) /\
    decompressFile (absPath cs) zstdTarReader archiveFile outputDir fs =
    match extractEntries (absPath cs) (outputRoot cs outputDir)
            (zstdTarReader data) 0 fs1 with
    | (Ok fileCount, fs2) => (Ok (fileCount, outputRoot cs outputDir), fs2)
    | (Err e, fs2) => (Err e, fs2)
    end.
Proof.
  pose proof outputRoot_normal as Hroot.
  pose proof outputRoot_not_slash as Hslash.
  destruct cwd_outside_root as [Hcwd1 Hcwd2].
  destruct Hready as (Hcs & Hout & [pc Hpc] & Hfresh & Harch & [pa Hpa] & Hout1 & Hout2).
  (* the destination is cleared *)
  set (fs0 := match fs !! outputRoot cs outputDir with
              | Some _ =>
                  filter (fun kv => negb (String.eqb (fst kv) (outputRoot cs outputDir)
                                          || pathUnder (outputRoot cs outputDir) (fst kv)) = true) fs
              | None => fs
              end).
  assert (Hfs0_root : fs0 !! outputRoot cs outputDir = None).
  { subst fs0. destruct (fs !! outputRoot cs outputDir) eqn:E; [|assumption].
    apply map_lookup_filter_None. right. intros x _. simpl.
    now rewrite String.eqb_refl. }
  assert (Hfs0_below : emptyBelow fs0 (outputRoot cs outputDir)).
  { subst fs0. intros k Hk.
    destruct (fs !! outputRoot cs outputDir) eqn:E; [|now apply Hfresh].
    apply map_lookup_filter_None. right. intros x _. simpl.
    unfold pathUnder. rewrite Hslash, Hk. now rewrite orb_true_r. }
  assert (Hfs0_out : forall k, k <> outputRoot cs outputDir ->
                       HasPrefix k (outputRoot cs outputDir +:+ "/") = false ->
                       fs0 !! k = fs !! k).
  { subst fs0. intros k Hk1 Hk2.
    destruct (fs !! outputRoot cs outputDir) eqn:E; [|reflexivity].
    destruct (fs !! k) as [v|] eqn:Ek.
    - apply map_lookup_filter_Some_2; [assumption|]. simpl.
      unfold pathUnder. rewrite Hslash, Hk2.
      apply String.eqb_neq in Hk1. now rewrite Hk1.
    - apply map_lookup_filter_None. now left. }
  (* and made again *)
  assert (Hdir0 : isDir fs0 (absPath cs)).
  { exists pc. now rewrite Hfs0_out. }
  assert (Hout' : normalAll [outputDir]) by (apply List.Forall_cons; auto).
  destruct (MkdirAll_abs (absPath cs) 493 cs [outputDir] fs0 Hcs Hout' Hdir0)
    as (r1 & fs1 & Hrun1 & Hf1 & Hd1 & Hok1 & _).
  fold (outputRoot cs outputDir) in Hrun1, Hd1.
  assert (Hr1 : r1 = Ok tt).
  { apply Hok1. intros k Hch p d. apply onChain_outputRoot in Hch. congruence. }
  subst r1. specialize (Hd1 eq_refl).
  exists fs1. split; [exact Hd1|]. split; [|split].
  - intros k Hk. destruct (Hf1 k) as [-> | (_ & _ & Hch)]; [now apply Hfs0_below|].
    apply onChain_outputRoot in Hch. subst k.
    rewrite HasPrefix_longer in Hk; [discriminate | discriminate].
  - intros k Hk1 Hk2. destruct (Hf1 k) as [-> | (_ & _ & Hch)]; [now apply Hfs0_out|].
    apply onChain_outputRoot in Hch. contradiction.
  - unfold decompressFile, bind, wrapErr, Getwd. rewrite Hpc.
    rewrite Join_outputRoot, Stat_outputRoot.
    assert (Hclear :
      (match fs !! outputRoot cs outputDir with
       | Some _ => RemoveAll (absPath cs) (outputRoot cs outputDir) fs
       | None => (Ok tt, fs)
       end) = (Ok tt, fs0)).
    { subst fs0. destruct (fs !! outputRoot cs outputDir); [|reflexivity].
      unfold RemoveAll.
      assert (Hne : String.eqb (outputRoot cs outputDir) EmptyString = false)
        by reflexivity.
      now rewrite Hne, resolve_outputRoot. }
    rewrite Hclear, Hrun1.
    unfold openArchive, Stat.
    apply String.eqb_neq in Harch. rewrite Harch.
    assert (Ha1 : fs1 !! resolve (absPath cs) archiveFile = Some (FileNode pa data)).
    { destruct (Hf1 (resolve (absPath cs) archiveFile)) as [-> | (_ & _ & Hch)].
      - now rewrite Hfs0_out.
      - apply onChain_outputRoot in Hch. contradiction. }
    rewrite Ha1.
    destruct (extractEntries (absPath cs) (outputRoot cs outputDir)
                (zstdTarReader data) 0 fs1) as [[n|e] fs2]; reflexivity.
Qed.

End Prologue.

(** ** More on the sanitizers *)

Section SanitizerShape.

Lemma ReplaceAllByte_map (s : string) (old new : ascii) :
  ReplaceAllByte s old new = mapBytes (fun c => if Ascii.eqb c old then new else c) s.
Proof. induction s as [|c s IH]; simpl; [reflexivity | now rewrite IH]. Qed.

Lemma ReplaceClass_map (class s : string) :
  ReplaceClass class s =
  mapBytes (fun c => if ContainsByte class c then "_"%char else c) s.
Proof. induction s as [|c s IH]; simpl; [reflexivity | now rewrite IH]. Qed.

Lemma HasPrefix_dotdot (s : string) :
  HasPrefix s ".." =
  match s with
  | String c (String d _) => Ascii.eqb c "." && Ascii.eqb d "."
  | _ => false
  end.
Proof.
  destruct s as [|c [|d s]]; simpl; auto.
  - now rewrite andb_false_r.
  - now rewrite andb_true_r.
Qed.

Lemma Contains_dotdot_map (f : ascii -> ascii) (s : string) :
  (forall c, Ascii.eqb (f c) "." = Ascii.eqb c ".") ->
  Contains (mapBytes f s) ".." = Contains s "..".
Proof.
  intros Hf. induction s as [|c s IH]; [reflexivity|].
  cbn [mapBytes]. rewrite !Contains_cons, IH. f_equal.
  rewrite !HasPrefix_dotdot. destruct s as [|d s]; [reflexivity|].
  cbn [mapBytes]. now rewrite !Hf.
Qed.

Lemma mapBytes_nil (f : ascii -> ascii) (s : string) :
  mapBytes f s = EmptyString <-> s = EmptyString.
Proof. destruct s; simpl; split; congruence. Qed.

Lemma ContainsByte_map (f : ascii -> ascii) (s : string) (c : ascii) :
  (forall d, Ascii.eqb c (f d) = false) -> ContainsByte (mapBytes f s) c = false.
Proof.
  intros Hf. induction s as [|d s IH]; [reflexivity|].
  simpl. now rewrite Hf, IH.
Qed.

Lemma Contains_TrimLeft (s : string) :
  Contains s ".." = true -> Contains (TrimLeft s "/\") ".." = true.
Proof.
  induction s as [|c s IH]; [discriminate|].
  rewrite Contains_cons. cbn [TrimLeft].
  destruct (ContainsByte "/\" c) eqn:Hc.
  - rewrite HasPrefix_dotdot. intros H. apply IH.
    destruct s as [|d s]; [discriminate|].
    apply orb_true_iff in H as [H | H]; [|assumption].
    apply andb_true_iff in H as [H _]. apply Ascii.eqb_eq in H. subst c.
    discriminate.
  - now rewrite Contains_cons.
Qed.

Lemma Contains_dropDrive (path : string) :
  Contains path ".." = true ->
  Contains (if hasDrivePrefix path then sliceFrom 2 path else path) ".." = true.
Proof.
  intros H. destruct (hasDrivePrefix path) eqn:Hd; [|assumption].
  destruct path as [|c [|d rest]]; try discriminate.
  unfold hasDrivePrefix in Hd. simpl in Hd. apply Ascii.eqb_eq in Hd. subst d.
  simpl sliceFrom.
  rewrite Contains_cons, HasPrefix_dotdot in H.
  change (Ascii.eqb ":" ".") with false in H. rewrite andb_false_r in H.
  cbn [orb] in H. rewrite Contains_cons, HasPrefix_dotdot in H.
  destruct rest as [|x rest]; [discriminate|].
  change (Ascii.eqb ":" ".") with false in H. exact H.
Qed.

(** A name that holds [..] is rejected on every host. *)
Lemma dotdot_rejected (os : GOOS) (name : string) :
  Contains name ".." = true -> sanitizeExtractPath os name = EmptyString.
Proof.
  intros H. apply Contains_dropDrive, Contains_TrimLeft in H.
  destruct (sanitizeExtractPath_cases os name) as [[Hr _] | (_ & _ & Hc & _)];
    [assumption | congruence].
Qed.

(** What [sanitizeExtractPath] returns when it does not reject. *)
Lemma sanitizeExtractPath_shape (os : GOOS) (path : string) :
  let r := sanitizeExtractPath os path in
  r = EmptyString \/
  (Contains r ".." = false /\ beginsWithSeparator r = false /\
   (os = Windows -> forall c, ContainsByte invalidChars c = true ->
                              ContainsByte r c = false)).
Proof.
  cbv zeta.
  destruct (sanitizeExtractPath_cases os path) as [[Hr _] | (Hne & _ & Hdd & Hr)];
    [now left | right].
  set (p := TrimLeft (if hasDrivePrefix path then sliceFrom 2 path else path) "/\") in *.
  pose proof (TrimLeft_head (if hasDrivePrefix path then sliceFrom 2 path else path) "/\")
    as Hhead. fold p in Hhead.
  rewrite Hr.
  destruct os;
    [change (Ascii.eqb (Separator Unix) "\") with false
    |change (Ascii.eqb (Separator Windows) "\") with true];
    cbn [FromSlash Separator].
  - split; [assumption|]. split; [|discriminate].
    destruct p; [reflexivity | exact Hhead].
  - rewrite ReplaceAllByte_map, ReplaceClass_map. split; [|split].
    + rewrite !Contains_dotdot_map; [assumption | |].
      * intros c. destruct (Ascii.eqb c "/") eqn:E; [|reflexivity].
        apply Ascii.eqb_eq in E. now subst c.
      * intros c. destruct (ContainsByte invalidChars c) eqn:E; [|reflexivity].
        destruct (Ascii.eqb c ".") eqn:E'; [|reflexivity].
        apply Ascii.eqb_eq in E'. subst c. discriminate.
    + destruct p as [|c p]; [reflexivity|]. cbn [mapBytes beginsWithSeparator].
      simpl in Hhead. apply orb_false_iff in Hhead as [H1 H2].
      rewrite orb_false_r in H2. rewrite H1.
      destruct (ContainsByte invalidChars c); [reflexivity|].
      simpl. now rewrite H1, H2.
    + intros _ c Hc. apply ContainsByte_map. intros d.
      destruct (ContainsByte invalidChars d) eqn:E;
        apply not_true_is_false; intros E'; apply Ascii.eqb_eq in E'; subst c;
        [vm_compute in Hc; discriminate | congruence].
Qed.

(** Whether a path is rejected does not depend on the host. *)
Lemma rejected_on_every_host (path : string) :
  sanitizeExtractPath Windows path = EmptyString <->
  sanitizeExtractPath Unix path = EmptyString.
Proof.
  destruct (sanitizeExtractPath_cases Windows path) as [[Hw Hc] | (Hne & Ht & Hdd & Hw)];
    destruct (sanitizeExtractPath_cases Unix path) as [[Hu Hc'] | (Hne' & Ht' & Hdd' & Hu)];
    rewrite Hw, Hu; try tauto.
  - destruct Hc as [? | [? | ?]]; congruence.
  - destruct Hc' as [? | [? | ?]]; congruence.
  - simpl. rewrite ReplaceAllByte_map, ReplaceClass_map, !mapBytes_nil. tauto.
Qed.

End SanitizerShape.

(** ** Clean destination roots *)

Section CleanRoots.

Import filepath.

Lemma cleanStep_normal (els acc : list string) :
  Forall noSlash els -> normalAll acc ->
  normalAll (fold_left (cleanStep true) els acc).
Proof.
  intros Hels. revert acc.
  induction Hels as [|e els He Hels IH]; intros acc Hacc; [exact Hacc|].
  simpl. apply IH. unfold cleanStep.
  destruct (String.eqb e EmptyString || String.eqb e ".") eqn:H1; [exact Hacc|].
  apply orb_false_iff in H1 as [H1 H2].
  destruct (String.eqb e "..") eqn:H3.
  - destruct acc as [|top acc]; [constructor|].
    inversion Hacc as [|? ? Htop Hrest]; subst.
    destruct (String.eqb top "..") eqn:Ht; [|assumption].
    apply String.eqb_eq in Ht. subst top. discriminate Htop.
  - constructor; [|assumption]. apply normalElem_spec.
    apply String.eqb_neq in H1, H2, H3. auto.
Qed.

(** A clean absolute path is the path of its elements. *)
Lemma Clean_abs_form (path : string) :
  IsAbs path = true -> exists rs, normalAll rs /\ Clean path = absPath rs.
Proof.
  intros Habs. unfold Clean. rewrite Habs.
  destruct path as [|c path]; [discriminate|].
  change (String.eqb (String c path) EmptyString) with false. cbn iota.
  set (out := fold_left (cleanStep true) (elements (String c path)) []).
  exists (rev out). split.
  - apply Forall_rev. apply cleanStep_normal; [apply elements_all_noSlash | constructor].
  - reflexivity.
Qed.

Lemma accepts_target (rs : list string) (name : string) :
  normalAll rs -> rs <> [] ->
  accepts (absPath rs) name = true <-> exists ns, targetElems name = Some ns.
Proof.
  intros Hrs Hne. unfold accepts.
  pose proof (target_spec rs name Hrs) as Hspec. cbv zeta in Hspec.
  destruct (targetElems name) as [ns|].
  - destruct Hspec as (_ & _ & _ & -> & _).
    destruct (decide (rs = [])); [congruence|]. split; eauto.
  - rewrite Hspec. split; [discriminate | intros [ns H]; discriminate].
Qed.

Lemma hasDrivePrefix_no_colon (r : string) :
  ContainsByte r ":" = false -> hasDrivePrefix r = false.
Proof.
  destruct r as [|c [|d r]]; try reflexivity.
  simpl. intros [_ [H _]%orb_false_iff]%orb_false_iff.
  unfold hasDrivePrefix. simpl. now rewrite Ascii.eqb_sym, H.
Qed.

End CleanRoots.

(** ** Extraction into a cleared destination *)

Section FreshUnpack.

Import filepath.

Variables (cs : list string) (outputDir archiveFile : string).
Variables (zstdTarReader : string -> TarStream) (fs : FS) (data : string).
Hypothesis Hready : unpackReady cs outputDir archiveFile fs data.

Lemma properPrefixes_nonempty (ns d : list string) :
  d ∈ properPrefixes ns -> d <> [].
Proof.
  intros Hd. apply list_elem_of_In in Hd. unfold properPrefixes in Hd.
  apply in_map_iff in Hd as [i [<- Hi]]. apply in_seq in Hi.
  destruct ns as [|x ns]; [simpl in Hi; lia|].
  destruct i; [lia | discriminate].
Qed.

Lemma dirTargets_nonempty (es : list (Header * string)) (d : list string) :
  d ∈ dirTargets es -> d <> [].
Proof.
  induction es as [|e es IH]; [now intros ?%elem_of_nil|].
  rewrite dirTargets_cons. intros [Hd | Hd]%elem_of_app; [|now apply IH].
  unfold dirTargetsOf in Hd.
  destruct (targetElems (Name e.1)) as [ns|] eqn:Ht; [|now apply elem_of_nil in Hd].
  apply targetElems_normal in Ht as [_ Hnn].
  apply elem_of_app in Hd as [Hd | Hd]; [now apply (properPrefixes_nonempty ns)|].
  destruct (Ascii.eqb (Typeflag e.1) TypeDir); [|now apply elem_of_nil in Hd].
  apply list_elem_of_singleton in Hd. now subst.
Qed.

Lemma fileTargets_nonempty (es : list (Header * string)) (f : list string) :
  f ∈ fileTargets es -> f <> [].
Proof.
  induction es as [|e es IH]; [now intros ?%elem_of_nil|].
  rewrite fileTargets_cons. intros [Hf | Hf]%elem_of_app; [|now apply IH].
  unfold fileTargetsOf in Hf.
  destruct (targetElems (Name e.1)) as [ns|] eqn:Ht; [|now apply elem_of_nil in Hf].
  apply targetElems_normal in Ht as [_ Hnn].
  destruct (Ascii.eqb (Typeflag e.1) TypeReg); [|now apply elem_of_nil in Hf].
  apply list_elem_of_singleton in Hf. now subst.
Qed.

(** Entries that do not collide are all extracted into the cleared
    destination, and nothing else appears there. *)
Lemma decompressFile_fresh (es : list (Header * string)) :
  zstdTarReader data = streamOf es ->
  extractable es ->
  Z.of_nat (countFiles es) < 2 ^ 63 ->
  exists fs',
    decompressFile (absPath cs) zstdTarReader archiveFile outputDir fs =
      (Ok (Z.of_nat (countFiles es), outputRoot cs outputDir), fs') /\
    (forall e ns, e ∈ es -> targetElems (Name e.1) = Some ns ->
       Typeflag e.1 = TypeReg ->
       fs' !! absPath ((cs ++ [outputDir]) ++ ns) =
         Some (FileNode (FileMode (Mode e.1)) e.2)) /\
    (forall e ns, e ∈ es -> targetElems (Name e.1) = Some ns ->
       Typeflag e.1 = TypeDir -> isDir fs' (absPath ((cs ++ [outputDir]) ++ ns))) /\
    (forall k, HasPrefix k (outputRoot cs outputDir +:+ "/") = true ->
       fs' !! k <> None ->
       exists t, (t ∈ dirTargets es \/ t ∈ fileTargets es) /\
                 k = absPath ((cs ++ [outputDir]) ++ t)) /\
    (forall k, k <> outputRoot cs outputDir ->
       HasPrefix k (outputRoot cs outputDir +:+ "/") = false ->
       fs' !! k = fs !! k) /\
    isDir fs' (outputRoot cs outputDir).
Proof.
  intros Hstream Hext Hbound.
  pose proof (outputRoot_normal cs outputDir archiveFile fs data Hready) as Hroot.
  destruct (decompressFile_prologue cs outputDir archiveFile zstdTarReader fs data Hready)
    as (fs1 & Hdir1 & Hempty & Hout & Hrun).
  assert (Hne : (cs ++ [outputDir])%list <> []) by now destruct cs.
  assert (Hbelow : forall t, t <> [] ->
            HasPrefix (absPath ((cs ++ [outputDir]) ++ t)) (outputRoot cs outputDir +:+ "/") = true).
  { intros t Ht. now apply HasPrefix_absPath_under. }
  destruct (extractEntries_fresh (absPath cs) (cs ++ [outputDir]) Hroot Hne es 0 fs1 Hdir1 Hext)
    as (fs' & Hloop & Hmono & Hreg & Hdirs & Hnew).
  - intros d Hd p dat. rewrite Hempty; [discriminate|].
    apply Hbelow. now apply (dirTargets_nonempty es).
  - intros f Hf. apply Hempty, Hbelow. now apply (fileTargets_nonempty es).
  - lia.
  - lia.
  - exists fs'. rewrite Hrun, Hstream. fold (outputRoot cs outputDir) in Hloop.
    rewrite Hloop. simpl. split; [reflexivity|].
    split; [exact Hreg|]. split; [exact Hdirs|]. split; [|split].
    + intros k Hk Hsome. apply Hnew; [|assumption]. now apply Hempty.
    + intros k Hk1 Hk2. rewrite <- (Hout k Hk1 Hk2).
      apply (extractEntries_frame (absPath cs) (cs ++ [outputDir]) Hroot
               (streamOf es) 0 fs1 _ fs' Hdir1 Hloop k Hk2).
    + destruct Hdir1 as [p Hp]. exists p. now apply Hmono.
Qed.

Lemma targetElems_rejected (name : string) :
  accepts (outputRoot cs outputDir) name = false -> targetElems name = None.
Proof.
  pose proof (outputRoot_normal cs outputDir archiveFile fs data Hready) as Hroot.
  intros Hacc. destruct (targetElems name) as [ns|] eqn:Ht; [|reflexivity].
  assert (H : accepts (outputRoot cs outputDir) name = true).
  { apply accepts_target; eauto. now destruct cs. }
  congruence.
Qed.

Lemma targetElems_accepted (name : string) :
  accepts (outputRoot cs outputDir) name = true ->
  exists ns, targetElems name = Some ns.
Proof.
  pose proof (outputRoot_normal cs outputDir archiveFile fs data Hready) as Hroot.
  apply accepts_target; auto. now destruct cs.
Qed.

Lemma countFiles_regular (es : list (Header * string)) :
  Forall (fun e => accepts (outputRoot cs outputDir) (Name e.1) = true /\
                   Typeflag e.1 = TypeReg) es ->
  countFiles es = List.length es.
Proof.
  induction 1 as [|e es [Hacc Hreg] _ IH]; [reflexivity|].
  unfold countFiles in *. rewrite fileTargets_cons, length_app, IH.
  unfold fileTargetsOf. destruct (targetElems_accepted _ Hacc) as [ns ->].
  now rewrite Hreg.
Qed.

End FreshUnpack.

(** ** The output directory of a request *)

Section OutputDirFacts.

Lemma ContainsByte_cons (d c : ascii) (s : string) :
  ContainsByte (String d s) c = Ascii.eqb c d || ContainsByte s c.
Proof. reflexivity. Qed.

Lemma ReplaceClass_dir_noSlash (s : string) :
  noSlash (ReplaceClass invalidDirChars s).
Proof.
  unfold noSlash. induction s as [|c s IH]; [reflexivity|].
  change (ReplaceClass invalidDirChars (String c s))
    with (String (if ContainsByte invalidDirChars c then "_"%char else c)
            (ReplaceClass invalidDirChars s)).
  rewrite ContainsByte_cons, IH, orb_false_r.
  destruct (ContainsByte invalidDirChars c) eqn:Hc; [reflexivity|].
  destruct (Ascii.eqb "/" c) eqn:E; [|reflexivity].
  apply Ascii.eqb_eq in E. subst c. discriminate.
Qed.

Lemma TrimLeft_noSlash (s cutset : string) :
  noSlash s -> noSlash (TrimLeft s cutset).
Proof.
  unfold noSlash. induction s as [|c s IH]; [reflexivity|].
  simpl. intros H. destruct (ContainsByte cutset c); [|exact H].
  apply IH. now apply orb_false_iff in H as [_ H].
Qed.

Lemma TrimRight_noSlash (s cutset : string) :
  noSlash s -> noSlash (TrimRight s cutset).
Proof.
  unfold noSlash. induction s as [|c s IH]; [reflexivity|].
  simpl. intros [Hc Hs]%orb_false_iff. specialize (IH Hs).
  destruct (TrimRight s cutset) as [|d t].
  - destruct (ContainsByte cutset c); [reflexivity|].
    simpl. now rewrite Hc.
  - change (ContainsByte (String c (String d t)) "/")
      with (Ascii.eqb "/" c || ContainsByte (String d t) "/").
    now rewrite Hc, IH.
Qed.

Lemma sliceTo_noSlash (n : nat) (s : string) :
  noSlash s -> noSlash (sliceTo n s).
Proof.
  unfold noSlash. revert n. induction s as [|c s IH]; intros [|n]; try reflexivity.
  simpl. intros [Hc Hs]%orb_false_iff. now rewrite Hc, IH.
Qed.

Lemma TrimRight_head (c : ascii) (s cutset : string) :
  ContainsByte cutset c = false ->
  exists t, TrimRight (String c s) cutset = String c t.
Proof.
  intros Hc. simpl. destruct (TrimRight s cutset) as [|d t].
  - rewrite Hc. now exists EmptyString.
  - now exists (String d t).
Qed.

(** A trimmed name is empty or begins with a byte outside the cutset. *)
Lemma Trim_head (s cutset : string) :
  match Trim s cutset with
  | EmptyString => True
  | String c _ => ContainsByte cutset c = false
  end.
Proof.
  unfold Trim. pose proof (TrimLeft_head s cutset) as H.
  destruct (TrimLeft s cutset) as [|c r]; [exact I|].
  destruct (TrimRight_head c r cutset H) as [t ->]. exact H.
Qed.

Lemma sanitizeDirectoryName_plain (name : string) :
  plainName (sanitizeDirectoryName name).
Proof.
  unfold sanitizeDirectoryName.
  pose proof (Trim_head (ReplaceClass invalidDirChars name) " .") as Hh.
  assert (Hs : noSlash (Trim (ReplaceClass invalidDirChars name) " .")).
  { apply TrimRight_noSlash, TrimLeft_noSlash, ReplaceClass_dir_noSlash. }
  set (n1 := Trim (ReplaceClass invalidDirChars name) " .") in *.
  assert (H2 : plainName (if String.eqb n1 EmptyString then "extracted" else n1)).
  { destruct n1 as [|c t].
    - split; [reflexivity|]. now exists "e"%char, "xtracted".
    - split; [exact Hs|]. now exists c, t. }
  set (n2 := if String.eqb n1 EmptyString then "extracted" else n1) in *.
  destruct (100 <? String.length n2)%nat; [|exact H2].
  destruct H2 as [Hn [c [t [E Hc]]]]. split; [now apply sliceTo_noSlash|].
  rewrite E. now exists c, (sliceTo 99 t).
Qed.

Lemma plainName_app (name suffix : string) :
  plainName name -> noSlash suffix -> plainName (name +:+ suffix).
Proof.
  intros [Hn [c [t [-> Hc]]]] Hs. split.
  - unfold noSlash in *. now rewrite ContainsByte_app, Hn, Hs.
  - now exists c, (t +:+ suffix).
Qed.

Lemma Base_plain (name : string) : plainName name -> filepath.Base name = name.
Proof.
  intros [Hn [c [t [E Hc]]]]. unfold filepath.Base, filepath.lastElement.
  assert (Hne : name <> EmptyString) by (rewrite E; discriminate).
  rewrite (proj2 (String.eqb_neq _ _) Hne).
  pose proof (TrimRight_keep EmptyString name Hne Hn) as Ht.
  change (EmptyString +:+ name) with name in Ht. rewrite Ht.
  rewrite (elements_noSlash name Hn).
  change (List.last [name] EmptyString) with name.
  now rewrite (proj2 (String.eqb_neq _ _) Hne).
Qed.

Lemma plainName_normal (name : string) : plainName name -> normalElem name = true.
Proof.
  intros [Hn [c [t [-> Hc]]]]. unfold normalElem.
  unfold noSlash in Hn. rewrite Hn.
  simpl in Hc. apply orb_false_iff in Hc as [_ [Hdot _]%orb_false_iff].
  rewrite Ascii.eqb_sym in Hdot.
  assert (H1 : String.eqb (String c t) "." = false).
  { apply String.eqb_neq. intros [= -> _]. discriminate. }
  assert (H2 : String.eqb (String c t) ".." = false).
  { apply String.eqb_neq. intros [= -> _]. discriminate. }
  assert (H0 : String.eqb (String c t) EmptyString = false) by reflexivity.
  now rewrite H0, H1, H2.
Qed.

(** [handleDecompress] hands [decompressFile] a single normal element. *)
Lemma requestedOutputDir_normal (req : DecompressRequest) :
  normalElem (requestedOutputDir req) = true.
Proof.
  unfold requestedOutputDir. apply plainName_normal.
  destruct (String.eqb (OutputDir req) EmptyString).
  - rewrite Base_plain; apply plainName_app;
      try apply sanitizeDirectoryName_plain; reflexivity.
  - rewrite Base_plain; apply sanitizeDirectoryName_plain.
Qed.

End OutputDirFacts.

(** ** The decompression handler *)

Section Handler.

Variables (cs : list string) (zstdTarReader : string -> TarStream).
Variables (req : DecompressRequest) (fs : FS) (data : string).
Hypothesis Hready : unpackReady cs (requestedOutputDir req) (Archive req) fs data.

(** A request for a readable archive whose entries do not collide is
    answered with the number of regular entries and the destination. *)
Lemma handleDecompress_fresh (es : list (Header * string)) :
  zstdTarReader data = streamOf es ->
  extractable es ->
  Z.of_nat (countFiles es) < 2 ^ 63 ->
  exists fs',
    handleDecompress (absPath cs) zstdTarReader "POST" (Some req) fs =
      (Response true
         ("Decompression completed. Extracted " +:+ pretty (Z.of_nat (countFiles es))
          +:+ " files to " +:+ requestedOutputDir req)
         None
         (Some (ExtractedData (Z.of_nat (countFiles es))
                  (outputRoot cs (requestedOutputDir req)))), fs') /\
    isDir fs' (outputRoot cs (requestedOutputDir req)).
Proof.
  intros Hstream Hext Hbound.
  destruct (decompressFile_fresh cs (requestedOutputDir req) (Archive req)
              zstdTarReader fs data Hready es Hstream Hext Hbound)
    as (fs' & Hrun & _ & _ & _ & _ & Hdir).
  exists fs'. split; [|exact Hdir].
  unfold handleDecompress.
  change (negb (String.eqb "POST" "POST")) with false. cbv iota.
  destruct Hready as (_ & _ & _ & _ & Harch & _).
  rewrite (proj2 (String.eqb_neq _ _) Harch).
  cbv zeta. now rewrite Hrun.
Qed.

End Handler.

(** * The claims *)

Lemma exampleReady : unpackReady ["work"] "out" "a.zst" exampleFs "zst".
Proof.
  unfold unpackReady. repeat split.
  - repeat constructor.
  - exists 493. reflexivity.
  - intros H. vm_compute in H. discriminate.
  - discriminate.
  - exists 420. reflexivity.
  - vm_compute. discriminate.
Qed.

Lemma decompressFile_contained (cs : list string) (outputDir archiveFile : string)
    (zstdTarReader : string -> TarStream) (fs : FS) (data : string)
    (r : result (Z * string)) (fs' : FS) :
  unpackReady cs outputDir archiveFile fs data ->
  decompressFile (absPath cs) zstdTarReader archiveFile outputDir fs = (r, fs') ->
  forall k, k <> outputRoot cs outputDir ->
            HasPrefix k (outputRoot cs outputDir +:+ "/") = false ->
            fs' !! k = fs !! k.
Proof.
  intros Hready Hrun k Hk1 Hk2.
  pose proof (outputRoot_normal cs outputDir archiveFile fs data Hready) as Hroot.
  destruct (decompressFile_prologue cs outputDir archiveFile zstdTarReader fs data Hready)
    as (fs1 & Hdir1 & _ & Hout & Heq).
  rewrite Heq in Hrun. rewrite <- (Hout k Hk1 Hk2).
  destruct (extractEntries (absPath cs) (outputRoot cs outputDir) (zstdTarReader data) 0 fs1)
    as [r2 fs2] eqn:Hloop.
  assert (fs2 = fs') as -> by (destruct r2; now injection Hrun).
  exact (extractEntries_frame (absPath cs) (cs ++ [outputDir]) Hroot _ 0 fs1 r2 fs'
           Hdir1 Hloop k Hk2).
Qed.

Lemma properPrefixes_shorter (ns d : list string) :
  d ∈ properPrefixes ns -> (List.length d < List.length ns)%nat.
Proof.
  intros Hd. apply list_elem_of_In in Hd. unfold properPrefixes in Hd.
  apply in_map_iff in Hd as [i [<- Hi]]. apply in_seq in Hi.
  rewrite length_take. lia.
Qed.

(** An archive of one regular-file entry that is not skipped. *)
Lemma decompressFile_single (cs : list string) (outputDir archiveFile : string)
    (zstdTarReader : string -> TarStream) (fs : FS) (data : string)
    (header : Header) (payload : string) (ns : list string) :
  unpackReady cs outputDir archiveFile fs data ->
  zstdTarReader data = TarEntry header payload TarEOF ->
  Typeflag header = TypeReg ->
  targetElems (Name header) = Some ns ->
  exists fs',
    decompressFile (absPath cs) zstdTarReader archiveFile outputDir fs =
      (Ok (1, outputRoot cs outputDir), fs') /\
    fs' !! (outputRoot cs outputDir +:+ "/" +:+ GoStrings.Join ns "/") =
      Some (FileNode (FileMode (Mode header)) payload).
Proof.
  intros Hready Hstream Hreg Ht.
  assert (Hf : fileTargets [(header, payload)] = [ns]).
  { unfold fileTargets, fileTargetsOf. simpl. now rewrite Ht, Hreg. }
  assert (Hd : dirTargets [(header, payload)] = properPrefixes ns).
  { unfold dirTargets, dirTargetsOf. simpl. rewrite Ht, Hreg. simpl.
    now rewrite !app_nil_r. }
  destruct (decompressFile_fresh cs outputDir archiveFile zstdTarReader fs data Hready
              [(header, payload)]) as (fs' & Hrun & Hfile & _).
  - exact Hstream.
  - unfold extractable. rewrite Hf, Hd. split; [apply NoDup_singleton|].
    constructor; [|constructor].
    intros Hin. apply properPrefixes_shorter in Hin. lia.
  - unfold countFiles. rewrite Hf. simpl. lia.
  - exists fs'. split.
    + rewrite Hrun. unfold countFiles. now rewrite Hf.
    + specialize (Hfile (header, payload) ns (list_elem_of_here _ _) Ht Hreg).
      simpl in Hfile. rewrite <- Hfile. unfold outputRoot.
      destruct (targetElems_normal _ _ Ht) as [_ Hnn].
      rewrite (absPath_app (cs ++ [outputDir]) ns);
        [reflexivity | now destruct cs | assumption].
Qed.

(** C1, as stated, fails: the entry of the absolute path [/etc/passwd]
    is not skipped.  It is extracted below the destination root, as
    [/work/out/etc/passwd], and it is counted. *)
Lemma absolute_path_entry_is_extracted :
  let run := decompressFile "/work" (holding [regular "/etc/passwd" "evil"])
               "a.zst" "out" exampleFs in
  run.1 = Ok (1, "/work/out") /\
  run.2 !! "/work/out/etc/passwd" = Some (FileNode 420 "evil").
Proof. split; vm_compute; reflexivity. Qed.

(** C1 (amended).  A stored path that holds [..] (such as
    [../../etc/passwd] or [..\..\x]) is rejected by the sanitizer on
    every host and its entry is passed over: the loop goes on as if the
    entry were not there, so nothing is written for it and it is not
    counted.  Whatever the entries are, an extraction changes no node
    outside the destination root.  An absolute path is not skipped:
    its leading separators are dropped, and the entry [/etc/passwd] is
    extracted as [etc/passwd] below the destination root and counted. *)
Theorem traversal_skipped_absolute_contained
    (cs : list string) (outputDir archiveFile : string)
    (zstdTarReader : string -> TarStream) (fs : FS) (data : string) :
  unpackReady cs outputDir archiveFile fs data ->
  (forall os name,
     Contains name ".." = true -> sanitizeExtractPath os name = EmptyString) /\
  (forall header payload rest fileCount fs0,
     Contains (Name header) ".." = true ->
     extractEntries (absPath cs) (outputRoot cs outputDir)
       (TarEntry header payload rest) fileCount fs0 =
     extractEntries (absPath cs) (outputRoot cs outputDir) rest fileCount fs0) /\
  (forall r fs',
     decompressFile (absPath cs) zstdTarReader archiveFile outputDir fs = (r, fs') ->
     forall k, k <> outputRoot cs outputDir ->
               HasPrefix k (outputRoot cs outputDir +:+ "/") = false ->
               fs' !! k = fs !! k) /\
  (forall mode size payload,
     zstdTarReader data =
       TarEntry {| Name := "/etc/passwd"; Typeflag := TypeReg;
                   Mode := mode; Size := size |} payload TarEOF ->
     exists fs',
       decompressFile (absPath cs) zstdTarReader archiveFile outputDir fs =
         (Ok (1, outputRoot cs outputDir), fs') /\
       fs' !! (outputRoot cs outputDir +:+ "/etc/passwd") =
         Some (FileNode (FileMode mode) payload)).
Proof.
  intros Hready. split; [|split; [|split]].
  - intros os name. apply dotdot_rejected.
  - intros header payload rest fileCount fs0 Hdd. cbn [extractEntries].
    now rewrite (dotdot_rejected Unix (Name header) Hdd).
  - intros r fs' Hrun. now apply (decompressFile_contained cs outputDir archiveFile
                                    zstdTarReader fs data r fs').
  - intros mode size payload Hstream.
    apply (decompressFile_single cs outputDir archiveFile zstdTarReader fs data
             _ payload ["etc"; "passwd"] Hready Hstream); reflexivity.
Qed.

Lemma traversal_skipped_absolute_contained_witness :
  unpackReady ["work"] "out" "a.zst" exampleFs "zst" /\
  sanitizeExtractPath Unix "..\..\x" = EmptyString /\
  (decompressFile "/work" (holding [regular "../../etc/passwd" "evil"])
     "a.zst" "out" exampleFs).2 !! "/etc/passwd" = exampleFs !! "/etc/passwd".
Proof.
  split; [exact exampleReady|].
  destruct (traversal_skipped_absolute_contained ["work"] "out" "a.zst"
              (holding [regular "../../etc/passwd" "evil"]) exampleFs "zst"
              exampleReady) as (Hrej & _ & Hout & _).
  split.
  - apply Hrej. reflexivity.
  - eapply Hout.
    + apply surjective_pairing.
    + discriminate.
    + reflexivity.
Defined.

(** C3.  An archive that holds one entry whose path fails sanitization
    or containment, followed by N regular-file entries whose paths pass
    both and do not collide: the bad entry is skipped, the call
    succeeds, every one of the N files is written with its bytes, and
    the count is N, one less than the number of entries. *)
Theorem bad_entry_skipped_rest_extracted
    (cs : list string) (outputDir archiveFile : string)
    (zstdTarReader : string -> TarStream) (fs : FS) (data : string)
    (bad : Header) (badPayload : string) (valid : list (Header * string)) :
  unpackReady cs outputDir archiveFile fs data ->
  zstdTarReader data = TarEntry bad badPayload (streamOf valid) ->
  accepts (outputRoot cs outputDir) (Name bad) = false ->
  Forall (fun e => accepts (outputRoot cs outputDir) (Name e.1) = true /\
                   Typeflag e.1 = TypeReg) valid ->
  extractable valid ->
  Z.of_nat (List.length valid) < 2 ^ 63 ->
  exists fs',
    decompressFile (absPath cs) zstdTarReader archiveFile outputDir fs =
      (Ok (Z.of_nat (List.length valid), outputRoot cs outputDir), fs') /\
    (forall e, e ∈ valid ->
       fs' !! filepath.Join [outputRoot cs outputDir;
                             sanitizeExtractPath Unix (Name e.1)] =
         Some (FileNode (FileMode (Mode e.1)) e.2)) /\
    Z.of_nat (List.length valid) =
      Z.of_nat (List.length ((bad, badPayload) :: valid)) - 1.
Proof.
  intros Hready Hstream Hbad Hvalid Hext Hbound.
  pose proof (outputRoot_normal cs outputDir archiveFile fs data Hready) as Hroot.
  pose proof (targetElems_rejected cs outputDir archiveFile fs data Hready _ Hbad) as Hnone.
  pose proof (countFiles_regular cs outputDir archiveFile fs data Hready valid Hvalid)
    as Hcount.
  assert (Hf : fileTargets ((bad, badPayload) :: valid) = fileTargets valid).
  { rewrite fileTargets_cons. unfold fileTargetsOf. simpl. now rewrite Hnone. }
  assert (Hd : dirTargets ((bad, badPayload) :: valid) = dirTargets valid).
  { rewrite dirTargets_cons. unfold dirTargetsOf. simpl. now rewrite Hnone. }
  destruct (decompressFile_fresh cs outputDir archiveFile zstdTarReader fs data Hready
              ((bad, badPayload) :: valid)) as (fs' & Hrun & Hfiles & _).
  - exact Hstream.
  - unfold extractable. now rewrite Hf, Hd.
  - unfold countFiles. rewrite Hf. fold (countFiles valid). lia.
  - exists fs'. split; [|split].
    + rewrite Hrun. unfold countFiles. rewrite Hf. fold (countFiles valid).
      now rewrite Hcount.
    + intros e He. rewrite Forall_forall in Hvalid.
      destruct (Hvalid e He) as [Hacc Hreg].
      destruct (targetElems_accepted cs outputDir archiveFile fs data Hready _ Hacc)
        as [ns Hns].
      pose proof (target_spec (cs ++ [outputDir]) (Name e.1) Hroot) as Hspec.
      cbv zeta in Hspec. rewrite Hns in Hspec. destruct Hspec as (_ & _ & Hjoin & _).
      unfold outputRoot. rewrite Hjoin.
      apply (Hfiles e ns); [apply elem_of_cons; now right | assumption | assumption].
    + simpl List.length. lia.
Qed.

Lemma bad_entry_skipped_rest_extracted_witness :
  exists fs',
    decompressFile "/work"
      (holding [regular "../../etc/passwd" "evil"; regular "a.txt" "A";
                regular "docs/b.txt" "B"])
      "a.zst" "out" exampleFs = (Ok (2, "/work/out"), fs') /\
    fs' !! "/work/out/docs/b.txt" = Some (FileNode 420 "B").
Proof.
  destruct (bad_entry_skipped_rest_extracted ["work"] "out" "a.zst"
              (holding [regular "../../etc/passwd" "evil"; regular "a.txt" "A";
                        regular "docs/b.txt" "B"])
              exampleFs "zst" (regular "../../etc/passwd" "evil").1 "evil"
              [regular "a.txt" "A"; regular "docs/b.txt" "B"])
    as (fs' & Hrun & Hfiles & _).
  - exact exampleReady.
  - reflexivity.
  - reflexivity.
  - repeat constructor.
  - apply (bool_decide_unpack _). vm_compute. exact I.
  - simpl. lia.
  - exists fs'. split; [exact Hrun|].
    apply (Hfiles (regular "docs/b.txt" "B")).
    apply elem_of_cons. right. apply list_elem_of_here.
Defined.

(** C4 fails on the code: [os.OpenFile] is called with
    [O_CREATE|O_RDWR] and no [O_TRUNC].  When two entries share a path
    the second is written over the first from offset 0: the file keeps
    the mode of the first entry and the tail of its bytes. *)
Theorem duplicate_entry_keeps_old_tail :
  let first :=
    ({| Name := "f.txt"; Typeflag := TypeReg; Mode := 420; Size := 11 |}, "HELLO WORLD") in
  let second :=
    ({| Name := "f.txt"; Typeflag := TypeReg; Mode := 384; Size := 3 |}, "bye") in
  let run := decompressFile "/work" (holding [first; second]) "a.zst" "out" exampleFs in
  run.1 = Ok (2, "/work/out") /\
  run.2 !! "/work/out/f.txt" = Some (FileNode 420 "byeLO WORLD").
Proof. split; vm_compute; reflexivity. Qed.

(** C5, as stated, fails on a host whose separator is ['/']: the
    backslashes of [C:\Windows\x.txt] stay ordinary bytes, so no
    directory [Windows] is made, and the file is [Windows\x.txt]
    directly below the destination root. *)
Lemma drive_letter_entry_on_slash_host :
  let run := decompressFile "/work" (holding [regular "C:\Windows\x.txt" "w"])
               "a.zst" "out" exampleFs in
  run.1 = Ok (1, "/work/out") /\
  run.2 !! "/work/out/Windows/x.txt" = None /\
  run.2 !! "/work/out/Windows" = None /\
  run.2 !! "/work/out/Windows\x.txt" = Some (FileNode 420 "w").
Proof. repeat split; vm_compute; reflexivity. Qed.

(** C5 (amended).  A two-byte drive prefix is dropped on every host,
    and what follows it is treated as any other path: the entry is not
    taken for a traversal attempt on account of the prefix, and it is
    not fatal.  [C:\Windows\x.txt] becomes [Windows\x.txt], which on a
    host whose separator is ['\\'] is the native relative path of
    [x.txt] in [Windows]; on a host whose separator is ['/'] the entry
    is extracted as the one file [Windows\x.txt] directly below the
    destination root, and counted. *)
Theorem drive_letter_stripped
    (cs : list string) (outputDir archiveFile : string)
    (zstdTarReader : string -> TarStream) (fs : FS) (data : string) :
  unpackReady cs outputDir archiveFile fs data ->
  (forall os, sanitizeExtractPath os "C:\Windows\x.txt" = "Windows\x.txt") /\
  (forall os drive rest,
     hasDrivePrefix rest = false ->
     sanitizeExtractPath os (String drive (String ":" rest)) =
     sanitizeExtractPath os rest) /\
  (forall mode size payload,
     zstdTarReader data =
       TarEntry {| Name := "C:\Windows\x.txt"; Typeflag := TypeReg;
                   Mode := mode; Size := size |} payload TarEOF ->
     exists fs',
       decompressFile (absPath cs) zstdTarReader archiveFile outputDir fs =
         (Ok (1, outputRoot cs outputDir), fs') /\
       fs' !! (outputRoot cs outputDir +:+ "/Windows\x.txt") =
         Some (FileNode (FileMode mode) payload)).
Proof.
  intros Hready. split; [|split].
  - intros []; reflexivity.
  - intros os drive rest Hrest. unfold sanitizeExtractPath.
    assert (Hd : hasDrivePrefix (String drive (String ":" rest)) = true) by reflexivity.
    now rewrite Hd, Hrest.
  - intros mode size payload Hstream.
    apply (decompressFile_single cs outputDir archiveFile zstdTarReader fs data
             _ payload ["Windows\x.txt"] Hready Hstream); reflexivity.
Qed.

Lemma drive_letter_stripped_witness :
  unpackReady ["work"] "out" "a.zst" exampleFs "zst" /\
  sanitizeExtractPath Windows "D:docs/r.txt" = sanitizeExtractPath Windows "docs/r.txt".
Proof.
  split; [exact exampleReady|].
  apply (drive_letter_stripped ["work"] "out" "a.zst" (holding []) exampleFs "zst"
           exampleReady).
  reflexivity.
Defined.

(** C8, as stated, fails: on a Windows host [a:b*c.txt] is not written
    as the name with its illegal bytes replaced, [a_b_c.txt]; its first
    two bytes are taken for a drive prefix and dropped. *)
Lemma colon_name_loses_its_first_bytes :
  sanitizeExtractPath Windows "a:b*c.txt" = "b_c.txt" /\
  sanitizeExtractPath Windows "a:b*c.txt" <> ReplaceClass invalidChars "a:b*c.txt" /\
  ReplaceClass invalidChars "a:b*c.txt" = "a_b_c.txt".
Proof. repeat split; vm_compute; congruence. Qed.

Lemma length_mapBytes (f : ascii -> ascii) (s : string) :
  String.length (mapBytes f s) = String.length s.
Proof. induction s as [|c s IH]; simpl; [reflexivity | now rewrite IH]. Qed.

Lemma get_mapBytes (f : ascii -> ascii) (s : string) (i : nat) :
  String.get i (mapBytes f s) = option_map f (String.get i s).
Proof.
  revert i. induction s as [|c s IH]; intros i; [reflexivity|].
  destruct i as [|i]; simpl; [reflexivity | apply IH].
Qed.

(** C8 (amended).  On a Windows host the seven bytes of the class
    never make the sanitizer reject a path.  With [p] what is left of
    the path when a two-byte drive prefix and then the leading slashes
    and backslashes are dropped, the path is rejected exactly when [p]
    is empty, holds only dots or contains [..], which are the paths
    rejected on a Unix host.  Every other path is returned as [p] of
    the same length, byte for byte: a slash becomes a backslash, a byte
    of the class becomes [_], any other byte stays; the result holds
    no byte of the class.  The drive prefix is dropped first, so
    [a:b*c.txt] becomes [b_c.txt]. *)
Theorem illegal_bytes_replaced_on_windows (path : string) :
  let p := TrimLeft (if hasDrivePrefix path then sliceFrom 2 path else path) "/\" in
  let r := sanitizeExtractPath Windows path in
  (r = EmptyString <->
   p = EmptyString \/ Trim p "." = EmptyString \/ Contains p ".." = true) /\
  (r = EmptyString <-> sanitizeExtractPath Unix path = EmptyString) /\
  (r <> EmptyString ->
   r = ReplaceClass invalidChars (FromSlash Windows p) /\
   String.length r = String.length p /\
   forall i c, String.get i p = Some c ->
     String.get i r =
     Some (if Ascii.eqb c "/" then "\"%char
           else if ContainsByte invalidChars c then "_"%char else c)) /\
  (forall c, ContainsByte invalidChars c = true -> ContainsByte r c = false) /\
  sanitizeExtractPath Windows "a:b*c.txt" = "b_c.txt".
Proof.
  cbv zeta.
  set (p := TrimLeft (if hasDrivePrefix path then sliceFrom 2 path else path) "/\").
  assert (Hshape : sanitizeExtractPath Windows path <> EmptyString ->
            p <> EmptyString /\ Trim p "." <> EmptyString /\ Contains p ".." = false /\
            sanitizeExtractPath Windows path =
            mapBytes (fun c => if ContainsByte invalidChars c then "_"%char else c)
              (mapBytes (fun c => if Ascii.eqb c "/" then "\"%char else c) p)).
  { intros Hne.
    destruct (sanitizeExtractPath_cases Windows path) as [[Hr _] | (H1 & H2 & H3 & Hr)];
      [congruence|].
    fold p in H1, H2, H3, Hr. repeat (split; [assumption|]).
    rewrite Hr. cbn [Separator FromSlash].
    change (Ascii.eqb "\" "\") with true. cbv iota.
    now rewrite ReplaceAllByte_map, ReplaceClass_map. }
  split; [|split; [|split; [|split]]].
  - split.
    + intros Hr.
      destruct (sanitizeExtractPath_cases Windows path) as [[_ Hc] | (H1 & _ & _ & Hw)];
        [exact Hc|].
      fold p in H1, Hw. rewrite Hr in Hw. symmetry in Hw. cbn [Separator FromSlash] in Hw.
      change (Ascii.eqb "\" "\") with true in Hw. cbv iota in Hw.
      rewrite ReplaceAllByte_map, ReplaceClass_map, !mapBytes_nil in Hw. contradiction.
    + intros Hc.
      destruct (String.eqb_spec (sanitizeExtractPath Windows path) EmptyString)
        as [Hr | Hr]; [exact Hr|].
      destruct (Hshape Hr) as (H1 & H2 & H3 & _).
      destruct Hc as [? | [? | ?]]; congruence.
  - apply rejected_on_every_host.
  - intros Hne. destruct (Hshape Hne) as (_ & _ & _ & Hr).
    split; [|split].
    + rewrite Hr. cbn [FromSlash Separator].
      now rewrite ReplaceAllByte_map, ReplaceClass_map.
    + rewrite Hr. now rewrite !length_mapBytes.
    + intros i c Hget. rewrite Hr, !get_mapBytes, Hget. cbn [option_map].
      destruct (Ascii.eqb c "/"); reflexivity.
  - intros c Hc.
    destruct (sanitizeExtractPath_shape Windows path) as [-> | (_ & _ & H)];
      [reflexivity | now apply H].
  - reflexivity.
Qed.

Lemma illegal_bytes_replaced_on_windows_witness :
  sanitizeExtractPath Windows "ab*c?.txt" = "ab_c_.txt" /\
  sanitizeExtractPath Windows "C:/in|out/x<y.txt" = "in_out\x_y.txt".
Proof.
  split.
  - destruct (illegal_bytes_replaced_on_windows "ab*c?.txt") as (_ & _ & H & _).
    destruct H as [H _]; [discriminate|]. rewrite H. reflexivity.
  - destruct (illegal_bytes_replaced_on_windows "C:/in|out/x<y.txt") as (_ & _ & H & _).
    destruct H as [H _]; [discriminate|]. rewrite H. reflexivity.
Defined.

(** C9, as stated, fails on a host whose separator is ['/']: only one
    drive prefix is dropped, so a second one stays. *)
Lemma second_drive_prefix_stays :
  ~ (let r := sanitizeExtractPath Unix "a:b:c" in
     r = EmptyString \/
     (Contains r ".." = false /\ beginsWithSeparator r = false /\
      hasDrivePrefix r = false)).
Proof. vm_compute. intros [H | (_ & _ & H)]; discriminate. Qed.

(** C9 (amended).  On every host [sanitizeExtractPath] returns the
    empty string or a path that holds no [..] and does not begin with
    a slash or a backslash; on a Windows host the path has no drive
    prefix either (on a host whose separator is ['/'] a colon may stay
    as its second byte).  With the prefix check that follows, the loop
    of [decompressFile] changes no node but those whose path begins with
    the clean destination root followed by the separator. *)
Theorem sanitized_paths_stay_under_root :
  (forall os path,
     let r := sanitizeExtractPath os path in
     r = EmptyString \/
     (Contains r ".." = false /\ beginsWithSeparator r = false /\
      (os = Windows -> hasDrivePrefix r = false))) /\
  (forall cwd fullOutputDir tarReader fileCount fs r fs',
     filepath.IsAbs fullOutputDir = true ->
     filepath.Clean fullOutputDir = fullOutputDir ->
     isDir fs fullOutputDir ->
     extractEntries cwd fullOutputDir tarReader fileCount fs = (r, fs') ->
     forall k,
       HasPrefix k (filepath.Clean fullOutputDir +:+ String (Separator Unix) EmptyString)
         = false ->
       fs' !! k = fs !! k).
Proof.
  split.
  - intros os path. cbv zeta.
    destruct (sanitizeExtractPath_shape os path) as [H | (H1 & H2 & H3)];
      [now left | right].
    split; [assumption|]. split; [assumption|].
    intros Hos. apply hasDrivePrefix_no_colon. now apply H3.
  - intros cwd fullOutputDir tarReader fileCount fs r fs' Habs Hclean Hdir Hrun k Hk.
    destruct (Clean_abs_form fullOutputDir Habs) as (rs & Hrs & Hform).
    rewrite Hclean in *. subst fullOutputDir.
    exact (extractEntries_frame cwd rs Hrs tarReader fileCount fs r fs' Hdir Hrun k Hk).
Qed.

Lemma sanitized_paths_stay_under_root_witness :
  hasDrivePrefix (sanitizeExtractPath Windows "a:b:c") = false /\
  (extractEntries "/work" "/work/out"
     (streamOf [regular "/etc/passwd" "evil"; regular "C:..\x" "y"]) 0 exampleFs).2
    !! "/etc/passwd" = exampleFs !! "/etc/passwd".
Proof.
  destruct sanitized_paths_stay_under_root as [Hshape Hframe]. split.
  - destruct (Hshape Windows "a:b:c") as [H | (_ & _ & H)].
    + vm_compute in H. discriminate.
    + now apply H.
  - eapply (Hframe "/work" "/work/out").
    + reflexivity.
    + reflexivity.
    + exists 493. reflexivity.
    + apply surjective_pairing.
    + reflexivity.
Defined.

(** C6 fails on the code.  For the root directory [/data/proj] the
    stored path of the root is the path as it was given, without its
    leading separator, and the stored path of an entry below it has
    the base name of the root twice; for the single file [/data/f.txt]
    the stored path is [data/f.txt], not its base name. *)
Theorem stored_paths_of_a_packed_root :
  map (fun e => Name e.1) (addToTar "/data" sourceFs "/data/proj" ([], 0)).2.1 =
    ["data/proj"; "proj/proj/a.txt"; "proj/proj/sub"] /\
  map (fun e => Name e.1) (addToTar "/data" sourceFs "proj" ([], 0)).2.1 =
    ["proj"; "proj/proj/a.txt"; "proj/proj/sub"] /\
  map (fun e => Name e.1) (addToTar "/data" sourceFs "/data/f.txt" ([], 0)).2.1 =
    ["data/f.txt"].
Proof. repeat split; vm_compute; reflexivity. Qed.

(** C7.  A compression request without source paths is answered with
    the failure [No files selected]; the filesystem is left as it was,
    and [compressFiles] is not reached. *)
Theorem no_files_no_compression
    (cwd : string) (zstdFlushed zstdTarWriter : Z -> list (Header * string) -> string)
    (output : string) (level : Z) (fs : FS) :
  handleCompress cwd zstdFlushed zstdTarWriter "POST"
    (Some {| Files := []; Output := output; Level := level |}) fs =
  (Response false "No files selected" None None, fs).
Proof. reflexivity. Qed.

(** [compressFiles] itself has no such guard: called with no source,
    it creates the output file and succeeds. *)
Example compressFiles_without_sources :
  let run := compressFiles "/data" zstBytes zstBytes [] "empty.zst" 3 sourceFs in
  run.1 = Ok {| OriginalSize := 0; CompressedSize := 3; OutputFile := "empty.zst" |} /\
  run.2 !! "/data/empty.zst" = Some (FileNode 438 "zst").
Proof. split; vm_compute; reflexivity. Qed.

(** ** Packing portable sources *)

Section PackFacts.

Import filepath.

Lemma noneOf_spec (class s : string) (c : ascii) :
  noneOf class s = true -> ContainsByte class c = true -> ContainsByte s c = false.
Proof.
  intros Hs Hc. induction s as [|d s IH]; [reflexivity|].
  simpl in Hs |- *. apply andb_true_iff in Hs as [Hd Hs].
  rewrite (IH Hs), orb_false_r.
  apply not_true_is_false. intros E. apply Ascii.eqb_eq in E. subst d.
  rewrite Hc in Hd. discriminate.
Qed.

Lemma ReplaceClass_id (class s : string) :
  noneOf class s = true -> ReplaceClass class s = s.
Proof.
  induction s as [|c s IH]; [reflexivity|]. simpl.
  intros [Hc Hs]%andb_true_iff. apply negb_true_iff in Hc.
  now rewrite Hc, IH.
Qed.

Lemma ReplaceAllByte_id (s : string) (old new : ascii) :
  ContainsByte s old = false -> ReplaceAllByte s old new = s.
Proof.
  induction s as [|c s IH]; [reflexivity|]. simpl.
  intros [Hc Hs]%orb_false_iff. rewrite Ascii.eqb_sym in Hc.
  now rewrite Hc, IH.
Qed.

Lemma noneOf_weaken (class s : string) (c : ascii) :
  noneOf (String c class) s = true -> noneOf class s = true.
Proof.
  induction s as [|d s IH]; [reflexivity|]. simpl.
  intros [Hd Hs]%andb_true_iff. rewrite (IH Hs), andb_true_r.
  apply negb_true_iff in Hd. apply orb_false_iff in Hd as [_ Hd].
  now rewrite Hd.
Qed.

Lemma TrimLeft_nil_dots (s : string) :
  TrimLeft s "." = EmptyString ->
  s = EmptyString \/ s = "." \/ Contains s ".." = true.
Proof.
  destruct s as [|c s]; [now left|]. right. simpl in H.
  change (Ascii.eqb "." "." || false) with true in *.
  destruct (Ascii.eqb c ".") eqn:Hc; [|rewrite orb_false_r in H; discriminate].
  apply Ascii.eqb_eq in Hc. subst c.
  destruct s as [|d s]; [now left|]. right.
  simpl in H. rewrite orb_false_r in H.
  destruct (Ascii.eqb d ".") eqn:Hd; [|discriminate].
  apply Ascii.eqb_eq in Hd. subst d.
  rewrite Contains_cons, HasPrefix_dotdot. reflexivity.
Qed.

Lemma TrimRight_nil (s cutset : string) :
  TrimRight s cutset = EmptyString ->
  match s with
  | EmptyString => True
  | String c _ => ContainsByte cutset c = true
  end.
Proof.
  destruct s as [|c s]; [trivial|]. simpl.
  destruct (TrimRight s cutset); [|discriminate].
  destruct (ContainsByte cutset c); [reflexivity | discriminate].
Qed.

Lemma Trim_nil_dots (s : string) :
  Trim s "." = EmptyString ->
  s = EmptyString \/ s = "." \/ Contains s ".." = true.
Proof.
  unfold Trim. intros H. apply TrimLeft_nil_dots.
  pose proof (TrimLeft_head s ".") as Hhead.
  apply TrimRight_nil in H.
  destruct (TrimLeft s "."); [reflexivity | congruence].
Qed.

Lemma portable_normal (e : string) : portable e = true -> normalElem e = true.
Proof.
  unfold portable. now intros [[H _]%andb_true_iff _]%andb_true_iff.
Qed.

Lemma portable_no_dotdot (e : string) :
  portable e = true -> Contains e ".." = false.
Proof.
  unfold portable. intros [[_ H]%andb_true_iff _]%andb_true_iff.
  now apply negb_true_iff in H.
Qed.

Lemma portable_noneOf (e : string) :
  portable e = true -> noneOf (String "\" invalidChars) e = true.
Proof. unfold portable. now intros [_ H]%andb_true_iff. Qed.

Lemma portable_stripped (e : string) :
  portable e = true ->
  TrimLeft (if hasDrivePrefix e then sliceFrom 2 e else e) "/\" = e.
Proof.
  intros He.
  pose proof (portable_noneOf e He) as Hnone.
  pose proof (portable_normal e He) as (Hne & Hns & _)%normalElem_spec.
  rewrite hasDrivePrefix_no_colon
    by (apply (noneOf_spec _ _ _ Hnone); reflexivity).
  pose proof (noneOf_spec _ _ "\"%char Hnone eq_refl) as Hback.
  destruct e as [|c s]; [congruence|].
  apply TrimLeft_id. simpl. rewrite orb_false_r. apply orb_false_iff. split.
  - unfold noSlash in Hns. simpl in Hns. now apply orb_false_iff in Hns as [Hns _].
  - simpl in Hback. now apply orb_false_iff in Hback as [H _].
Qed.

Lemma sanitizeTarPath_portable (e : string) :
  portable e = true -> sanitizeTarPath e = e.
Proof.
  intros He. pose proof (portable_noneOf e He) as Hnone.
  unfold sanitizeTarPath. rewrite portable_stripped by assumption.
  rewrite ReplaceAllByte_id
    by (apply (noneOf_spec _ _ _ Hnone); reflexivity).
  apply ReplaceClass_id. apply (noneOf_weaken _ _ _ Hnone).
Qed.

Lemma sanitizeExtractPath_portable (e : string) :
  portable e = true -> sanitizeExtractPath Unix e = e.
Proof.
  intros He.
  pose proof (portable_normal e He) as (Hne & _ & Hdot & _)%normalElem_spec.
  pose proof (portable_no_dotdot e He) as Hdd.
  destruct (sanitizeExtractPath_cases Unix e) as [[_ Hc] | (_ & _ & _ & Hr)].
  - rewrite portable_stripped in Hc by assumption. destruct Hc as [Hc | [Hc | Hc]].
    + congruence.
    + apply Trim_nil_dots in Hc as [Hc | [Hc | Hc]]; congruence.
    + congruence.
  - now rewrite Hr, portable_stripped.
Qed.

Lemma targetElems_portable (e : string) :
  portable e = true -> targetElems e = Some [e].
Proof.
  intros He. unfold targetElems. rewrite sanitizeExtractPath_portable by assumption.
  pose proof (portable_normal e He) as Hn.
  pose proof Hn as (Hne & _)%normalElem_spec.
  apply String.eqb_neq in Hne. rewrite Hne.
  now rewrite keptElems_single.
Qed.

(** *** The calls of [addToTar] on a name in the working directory *)

Variable cs : list string.
Hypothesis Hcs : normalAll cs.

Lemma IsAbs_normal (e : string) : normalElem e = true -> IsAbs e = false.
Proof.
  intros (Hne & Hns & _)%normalElem_spec. destruct e as [|c e]; [reflexivity|].
  unfold noSlash in Hns. simpl in Hns. apply orb_false_iff in Hns as [Hc _].
  unfold IsAbs. simpl. rewrite Ascii.eqb_sym in Hc. now rewrite Hc.
Qed.

Lemma resolve_rel (e : string) :
  normalElem e = true -> resolve (absPath cs) e = absPath (cs ++ [e]).
Proof.
  intros He. unfold resolve. rewrite IsAbs_normal by assumption.
  rewrite Clean_abs_join by (auto using normalElem_elements).
  now rewrite keptElems_single.
Qed.

Lemma Stat_rel (e : string) (fs : FS) :
  normalElem e = true -> Stat (absPath cs) e fs = fs !! absPath (cs ++ [e]).
Proof.
  intros He. unfold Stat. pose proof He as (Hne & _)%normalElem_spec.
  apply String.eqb_neq in Hne. now rewrite Hne, resolve_rel.
Qed.

Lemma omap_none {A B : Type} (f : A -> option B) (l : list A) :
  (forall x, x ∈ l -> f x = None) -> omap f l = [].
Proof.
  induction l as [|x l IH]; [reflexivity|]. intros H. simpl.
  rewrite (H x (list_elem_of_here _ _)). apply IH.
  intros y Hy. apply H. now apply list_elem_of_further.
Qed.

Lemma readDirNames_empty (e : string) (fs : FS) :
  normalElem e = true ->
  emptyBelow fs (absPath (cs ++ [e])) ->
  readDirNames (absPath cs) fs e = [].
Proof.
  intros He Hempty. unfold readDirNames. rewrite resolve_rel by assumption.
  rewrite omap_none; [reflexivity|].
  intros [k v] Hkv. apply elem_of_map_to_list in Hkv. simpl.
  unfold childName.
  assert (Hroot : String.eqb (absPath (cs ++ [e])) "/" = false).
  { apply String.eqb_neq. intros Heq. change "/" with (absPath []) in Heq.
    apply absPath_inj in Heq; [now destruct cs | | constructor].
    apply normalAll_app. split; [assumption | now constructor]. }
  rewrite Hroot.
  destruct (HasPrefix k (absPath (cs ++ [e]) +:+ "/")) eqn:Hk; [|reflexivity].
  apply Hempty in Hk. congruence.
Qed.

Lemma setName_FileInfoHeader (a b name : string) (info : node) :
  setName (setName (FileInfoHeader a info) b) name =
  setName (FileInfoHeader name info) name.
Proof. destruct info; reflexivity. Qed.

Lemma size_pos (fs : FS) (k : string) (v : node) :
  fs !! k = Some v -> exists n, size fs = S n.
Proof.
  intros Hk. destruct (size fs) as [|n] eqn:E; [|now exists n].
  apply map_size_empty_iff in E. subst fs. now rewrite lookup_empty in Hk.
Qed.

(** A source root that is a regular file or an empty directory gives
    one entry. *)
Lemma addToTar_source (fs : FS) (name : string) (info : node)
    (written : list (Header * string)) (total : Z) :
  portable name = true ->
  fs !! absPath (cs ++ [name]) = Some info ->
  (IsDir info = true -> emptyBelow fs (absPath (cs ++ [name]))) ->
  exists total',
    addToTar (absPath cs) fs name (written, total) =
    (Ok tt, ((written ++ [packedEntry name info])%list, total')).
Proof.
  intros Hp Hlook Hdir.
  pose proof (portable_normal name Hp) as Hn.
  unfold addToTar, Walk. rewrite Stat_rel, Hlook by assumption.
  destruct (size_pos fs _ _ Hlook) as [fuel ->].
  assert (Hfn : forall st,
    addToTar_walkFn (absPath cs) fs name name (Ok info) st =
    (WriteHeader (packedEntry name info).1 ;;;
     if negb (IsDir info) then
       match fs !! absPath (cs ++ [name]) with
       | Some (FileNode _ data) =>
           writePayload data ;;;
           addTotal (Size (FileInfoHeader (Base name) info))
       | Some (DirNode _) => fail EISDIR
       | None => fail ENOENT
       end
     else ret tt) st).
  { intros st. unfold addToTar_walkFn. rewrite String.eqb_refl. cbn [negb].
    unfold bind at 1. unfold ret at 1.
    cbn [Name setName ToSlash]. rewrite sanitizeTarPath_portable by assumption.
    rewrite setName_FileInfoHeader, Stat_rel by assumption. reflexivity. }
  destruct info as [perm | perm data].
  - cbn [walk]. unfold bind at 1. rewrite Hfn. cbn [IsDir negb].
    unfold bind, WriteHeader, ret. cbn [fst snd].
    rewrite readDirNames_empty by auto.
    exists total. reflexivity.
  - cbn [walk]. rewrite Hfn, Hlook. cbn [IsDir negb].
    unfold bind, WriteHeader, writePayload, addTotal. cbn [fst snd].
    rewrite rev_unit, rev_involutive. eexists. reflexivity.
Qed.

Lemma sourceEntries_cons (fs : FS) (name : string) (names : list string)
    (info : node) :
  fs !! absPath (cs ++ [name]) = Some info ->
  sourceEntries fs cs (name :: names) =
  packedEntry name info :: sourceEntries fs cs names.
Proof. intros H. unfold sourceEntries. simpl. now rewrite H. Qed.

Lemma addFiles_sources (fs : FS) (names : list string) :
  Forall (fun name => portable name = true) names ->
  Forall (isSource fs cs) names ->
  forall written total,
  exists total',
    addFiles (absPath cs) fs names (written, total) =
    (Ok tt, ((written ++ sourceEntries fs cs names)%list, total')).
Proof.
  intros Hport. induction Hport as [|name names Hp Hport IH]; intros Hsrc written total.
  - exists total. simpl. unfold sourceEntries. simpl. now rewrite app_nil_r.
  - inversion Hsrc as [|? ? Hs Hsrc']; subst. unfold isSource in Hs.
    destruct (fs !! absPath (cs ++ [name])) as [info|] eqn:Hlook; [|contradiction].
    destruct (addToTar_source fs name info written total Hp Hlook) as [t1 Hrun].
    { intros Hd. destruct info; [exact Hs | discriminate]. }
    destruct (IH Hsrc' (written ++ [packedEntry name info])%list t1) as [t2 Hrest].
    exists t2. cbn [addFiles]. unfold bind, wrapErr. rewrite Hrun, Hrest.
    rewrite (sourceEntries_cons fs name names info Hlook).
    now rewrite <- app_assoc.
Qed.

Lemma sibling_not_under (a b : string) :
  normalElem a = true -> normalElem b = true ->
  HasPrefix (absPath (cs ++ [a])) (absPath (cs ++ [b]) +:+ "/") = false.
Proof.
  intros Ha Hb. apply not_true_is_false. intros [t Ht]%HasPrefix_spec.
  rewrite append_assoc in Ht. change ("/" +:+ t) with (String "/" t) in Ht.
  apply (f_equal elements) in Ht.
  assert (Hna : normalAll (cs ++ [a])) by (apply normalAll_app; split; auto).
  assert (Hnb : normalAll (cs ++ [b])) by (apply normalAll_app; split; auto).
  rewrite elements_app_sep, !elements_absPath in Ht
    by (auto using normalElem_noSlash; now destruct cs).
  apply (f_equal (@List.length string)) in Ht.
  simpl in Ht. rewrite !length_app in Ht. simpl in Ht.
  pose proof (elements_ne t) as Hne. destruct (elements t); [congruence|].
  simpl in Ht. lia.
Qed.

Lemma sibling_neq (a b : string) :
  normalElem a = true -> normalElem b = true -> a <> b ->
  absPath (cs ++ [a]) <> absPath (cs ++ [b]).
Proof.
  intros Ha Hb Hab Heq. apply absPath_under_inj in Heq; auto.
  congruence.
Qed.

(** What [compressFiles] does for sources in the working directory:
    it succeeds, and leaves their archive in the output file and the
    rest of the filesystem as it was. *)
Lemma compressFiles_sources
    (zstdFlushed zstdTarWriter : Z -> list (Header * string) -> string)
    (names : list string) (outputFile : string) (level : Z) (fs : FS) :
  packReady cs names outputFile fs ->
  exists stats fs1 perm,
    compressFiles (absPath cs) zstdFlushed zstdTarWriter names outputFile level fs =
      (Ok stats, fs1) /\
    fs1 !! absPath (cs ++ [outputFile]) =
      Some (FileNode perm (zstdTarWriter level (sourceEntries fs cs names))) /\
    (forall k, k <> absPath (cs ++ [outputFile]) -> fs1 !! k = fs !! k).
Proof.
  intros (_ & [pc Hpc] & Hport & Hnd & Hsrc & Hout & Hnotin & Hnotdir).
  set (karc := absPath (cs ++ [outputFile])) in *.
  (* the output file is created *)
  assert (Hcreate : exists perm,
    Create (absPath cs) outputFile fs = (Ok karc, <[karc := FileNode perm EmptyString]> fs)).
  { unfold Create. pose proof Hout as (Hne & _)%normalElem_spec.
    apply String.eqb_neq in Hne. rewrite Hne, resolve_rel by assumption.
    fold karc. destruct (fs !! karc) as [[p | p d]|] eqn:Hk.
    - now destruct (Hnotdir p).
    - now exists p.
    - unfold karc. rewrite parentKey_snoc, Hpc by assumption. now exists 438. }
  destruct Hcreate as [perm Hcreate].
  set (fsC := <[karc := FileNode perm EmptyString]> fs) in *.
  assert (Hother : forall name, name ∈ names ->
            fsC !! absPath (cs ++ [name]) = fs !! absPath (cs ++ [name])).
  { intros name Hin. unfold fsC. apply lookup_insert_ne. unfold karc.
    rewrite Forall_forall in Hport.
    apply sibling_neq; auto using portable_normal. congruence. }
  assert (HsrcC : Forall (isSource fsC cs) names).
  { rewrite Forall_forall in Hsrc |- *. intros name Hin.
    specialize (Hsrc name Hin). unfold isSource in *. rewrite Hother by assumption.
    destruct (fs !! absPath (cs ++ [name])) as [[p|p d]|]; auto.
    intros k Hk. unfold fsC. rewrite lookup_insert_ne; [now apply Hsrc|].
    intros <-. unfold karc in Hk. rewrite Forall_forall in Hport.
    rewrite sibling_not_under in Hk; auto using portable_normal. discriminate. }
  assert (Hentries : sourceEntries fsC cs names = sourceEntries fs cs names).
  { unfold sourceEntries. clear - Hother. induction names as [|name names IH];
      [reflexivity|].
    simpl. rewrite Hother by apply list_elem_of_here.
    assert (IH' := IH (fun n Hn => Hother n (list_elem_of_further _ _ _ Hn))).
    unfold omap in IH'. now rewrite IH'. }
  destruct (addFiles_sources fsC names Hport HsrcC [] 0) as [total Hadd].
  rewrite Hentries in Hadd. simpl app in Hadd.
  unfold compressFiles, bind at 1, wrapErr. rewrite Hcreate. fold fsC.
  rewrite Hadd. unfold bind, writeAll, ret.
  assert (HkC : fsC !! karc = Some (FileNode perm EmptyString))
    by apply lookup_insert_eq.
  rewrite HkC, Stat_rel by assumption. fold karc.
  rewrite !lookup_insert_eq.
  eexists _, _, perm. split; [reflexivity|]. split.
  - apply lookup_insert_eq.
  - intros k Hk. unfold fsC. now rewrite !lookup_insert_ne by congruence.
Qed.

(** *** The targets of the packed entries *)

Lemma packedEntry_targets (name : string) (info : node) :
  portable name = true ->
  fileTargetsOf (packedEntry name info) =
    (if IsDir info then [] else [[name]]) /\
  dirTargetsOf (packedEntry name info) =
    (if IsDir info then [[name]] else []).
Proof.
  intros Hp. unfold fileTargetsOf, dirTargetsOf.
  assert (Hname : Name (packedEntry name info).1 = name) by now destruct info.
  rewrite Hname, targetElems_portable by assumption.
  destruct info; split; reflexivity.
Qed.

Lemma sourceEntries_targets (fs : FS) (names : list string) :
  Forall (fun name => portable name = true) names ->
  (forall f, f ∈ fileTargets (sourceEntries fs cs names) ->
     exists n p d, n ∈ names /\ f = [n] /\
                   fs !! absPath (cs ++ [n]) = Some (FileNode p d)) /\
  (forall d, d ∈ dirTargets (sourceEntries fs cs names) ->
     exists n p, n ∈ names /\ d = [n] /\
                 fs !! absPath (cs ++ [n]) = Some (DirNode p)) /\
  (List.length (fileTargets (sourceEntries fs cs names)) <= List.length names)%nat.
Proof.
  induction 1 as [|name names Hp Hport (IHf & IHd & IHl)].
  - repeat split; try (intros ? H; now apply elem_of_nil in H). simpl. lia.
  - destruct (fs !! absPath (cs ++ [name])) as [info|] eqn:Hlook.
    + rewrite (sourceEntries_cons fs name names info Hlook).
      destruct (packedEntry_targets name info Hp) as [Hf Hd].
      rewrite fileTargets_cons, dirTargets_cons, Hf, Hd.
      split; [|split].
      * intros f [Hin | Hin]%elem_of_app.
        -- destruct info as [p | p d]; [now apply elem_of_nil in Hin|].
           apply list_elem_of_singleton in Hin. subst f.
           exists name, p, d. split; [apply list_elem_of_here | auto].
        -- destruct (IHf f Hin) as (n & p & d & Hn & Hfn & Hk).
           exists n, p, d. split; [now apply list_elem_of_further | auto].
      * intros t [Hin | Hin]%elem_of_app.
        -- destruct info as [p | p d]; [|now apply elem_of_nil in Hin].
           apply list_elem_of_singleton in Hin. subst t.
           exists name, p. split; [apply list_elem_of_here | auto].
        -- destruct (IHd t Hin) as (n & p & Hn & Htn & Hk).
           exists n, p. split; [now apply list_elem_of_further | auto].
      * rewrite length_app. destruct info; simpl; lia.
    + assert (Hskip : sourceEntries fs cs (name :: names) = sourceEntries fs cs names)
        by (unfold sourceEntries; simpl; now rewrite Hlook).
      rewrite Hskip. split; [|split].
      * intros f Hin. destruct (IHf f Hin) as (n & p & d & Hn & Hfn & Hk).
        exists n, p, d. split; [now apply list_elem_of_further | auto].
      * intros t Hin. destruct (IHd t Hin) as (n & p & Hn & Htn & Hk).
        exists n, p. split; [now apply list_elem_of_further | auto].
      * simpl. lia.
Qed.

Lemma sourceEntries_extractable (fs : FS) (names : list string) :
  Forall (fun name => portable name = true) names ->
  NoDup names ->
  extractable (sourceEntries fs cs names).
Proof.
  intros Hport Hnd. split.
  - induction Hnd as [|name names Hnotin Hnd IH]; [constructor|].
    inversion Hport as [|? ? Hp Hport']; subst.
    destruct (fs !! absPath (cs ++ [name])) as [info|] eqn:Hlook.
    + rewrite (sourceEntries_cons fs name names info Hlook), fileTargets_cons.
      destruct (packedEntry_targets name info Hp) as [-> _].
      destruct info; simpl; [now apply IH|].
      constructor; [|now apply IH].
      intros Hin. destruct (sourceEntries_targets fs names Hport') as (Hf & _).
      destruct (Hf _ Hin) as (n & p & d & Hn & [= <-] & _). contradiction.
    + assert (Hskip : sourceEntries fs cs (name :: names) = sourceEntries fs cs names)
        by (unfold sourceEntries; simpl; now rewrite Hlook).
      rewrite Hskip. now apply IH.
  - destruct (sourceEntries_targets fs names Hport) as (Hf & Hd & _).
    apply Forall_forall. intros f Hin Hin'.
    destruct (Hf f Hin) as (n & p & d & _ & -> & Hk).
    destruct (Hd _ Hin') as (n' & p' & _ & [= <-] & Hk'). congruence.
Qed.

Lemma packedEntry_in (fs : FS) (names : list string) (name : string) (info : node) :
  name ∈ names -> fs !! absPath (cs ++ [name]) = Some info ->
  packedEntry name info ∈ sourceEntries fs cs names.
Proof.
  intros Hin Hlook. unfold sourceEntries. apply list_elem_of_omap.
  exists name. split; [assumption|]. now rewrite Hlook.
Qed.

End PackFacts.

(** C2, as stated, fails: a regular file whose name holds two dots in
    a row is packed under that name, and the inbound sanitizer then
    rejects the entry.  The extraction succeeds with no file written. *)
Lemma dotted_name_is_lost_in_round_trip :
  let packed := compressFiles "/data" zstBytes zstBytes ["a..b"] "arc.zst" 3 sourceFs in
  let entries := (addFiles "/data" sourceFs ["a..b"] ([], 0)).2.1 in
  let run := decompressFile "/data" (holding entries) "arc.zst" "out" packed.2 in
  entries = [regular "a..b" "x"] /\
  packed.1 = Ok {| OriginalSize := 1; CompressedSize := 3; OutputFile := "arc.zst" |} /\
  run.1 = Ok (0, "/data/out") /\
  run.2 !! "/data/out/a..b" = None.
Proof. repeat split; vm_compute; reflexivity. Qed.

(** C2 (amended).  Sources that are regular files (of any length) and
    empty directories of the working directory, given by distinct
    names that both sanitizers leave as they are: packing succeeds,
    and unpacking its archive under a destination that is another name
    succeeds too; it counts the files, gives every file back under its
    name with the same bytes and every directory as a directory, and
    puts nothing else below the destination root. *)
Theorem round_trip_of_portable_sources
    (cs : list string) (names : list string) (outputFile outputDir : string)
    (level : Z) (zstdFlushed zstdTarWriter : Z -> list (Header * string) -> string)
    (zstdTarReader : string -> TarStream) (fs : FS) :
  packReady cs names outputFile fs ->
  normalElem outputDir = true ->
  outputDir <> outputFile ->
  (fs !! outputRoot cs outputDir = None -> emptyBelow fs (outputRoot cs outputDir)) ->
  zstdTarReader (zstdTarWriter level (sourceEntries fs cs names)) =
    streamOf (sourceEntries fs cs names) ->
  Z.of_nat (List.length names) < 2 ^ 63 ->
  exists stats fs1 fs2,
    compressFiles (absPath cs) zstdFlushed zstdTarWriter names outputFile level fs =
      (Ok stats, fs1) /\
    decompressFile (absPath cs) zstdTarReader outputFile outputDir fs1 =
      (Ok (Z.of_nat (countFiles (sourceEntries fs cs names)), outputRoot cs outputDir),
       fs2) /\
    (forall name perm data,
       name ∈ names ->
       fs !! absPath (cs ++ [name]) = Some (FileNode perm data) ->
       fs2 !! absPath (cs ++ [outputDir; name]) =
         Some (FileNode (FileMode (Z.land perm 511)) data)) /\
    (forall name perm,
       name ∈ names ->
       fs !! absPath (cs ++ [name]) = Some (DirNode perm) ->
       isDir fs2 (absPath (cs ++ [outputDir; name]))) /\
    (forall k,
       HasPrefix k (outputRoot cs outputDir +:+ "/") = true ->
       fs2 !! k <> None ->
       exists name, name ∈ names /\ k = absPath (cs ++ [outputDir; name])).
Proof.
  intros Hpack Hout Hneq Hfresh Hcodec Hbound.
  pose proof Hpack as (Hcs & [pc Hpc] & Hport & Hnd & Hsrc & Harc & _ & _).
  destruct (compressFiles_sources cs Hcs zstdFlushed zstdTarWriter names outputFile
              level fs Hpack) as (stats & fs1 & perm & Hrun & Hfile & Hsame).
  set (es := sourceEntries fs cs names) in *.
  assert (Hkarc_root : absPath (cs ++ [outputFile]) <> outputRoot cs outputDir).
  { apply sibling_neq; auto. }
  assert (Hkarc_under :
    HasPrefix (absPath (cs ++ [outputFile])) (outputRoot cs outputDir +:+ "/") = false).
  { now apply sibling_not_under. }
  assert (Hready : unpackReady cs outputDir outputFile fs1 (zstdTarWriter level es)).
  { unfold unpackReady. split; [assumption|]. split; [assumption|].
    split; [|split; [|split; [|split; [|split]]]].
    - exists pc. rewrite Hsame; [assumption|].
      intros Heq. apply absPath_inj in Heq; auto.
      + apply (f_equal (@List.length string)) in Heq.
        rewrite length_app in Heq. simpl in Heq. lia.
      + apply normalAll_app. split; [assumption | now constructor].
    - intros Hnone k Hk. rewrite Hsame by congruence.
      apply Hfresh; [|assumption]. now rewrite <- Hsame by congruence.
    - now apply normalElem_spec in Harc as [Hne _].
    - exists perm. now rewrite resolve_rel.
    - now rewrite resolve_rel.
    - now rewrite resolve_rel. }
  destruct (sourceEntries_targets cs fs names Hport) as (Hft & Hdt & Hlen).
  destruct (decompressFile_fresh cs outputDir outputFile zstdTarReader fs1
              (zstdTarWriter level es) Hready es Hcodec)
    as (fs2 & Hrun2 & Hfiles & Hdirs & Hexact & _).
  - now apply sourceEntries_extractable.
  - unfold countFiles. fold es in Hlen. lia.
  - exists stats, fs1, fs2. split; [exact Hrun|]. split; [exact Hrun2|].
    split; [|split].
    + intros name p data Hin Hlook.
      rewrite Forall_forall in Hport.
      pose proof (packedEntry_in cs fs names name _ Hin Hlook) as He.
      specialize (Hfiles _ [name] He). simpl in Hfiles.
      rewrite <- app_assoc in Hfiles. apply Hfiles; [|reflexivity].
      apply targetElems_portable. auto.
    + intros name p Hin Hlook.
      rewrite Forall_forall in Hport.
      pose proof (packedEntry_in cs fs names name _ Hin Hlook) as He.
      specialize (Hdirs _ [name] He). simpl in Hdirs.
      rewrite <- app_assoc in Hdirs. apply Hdirs; [|reflexivity].
      apply targetElems_portable. auto.
    + intros k Hk Hsome. destruct (Hexact k Hk Hsome) as (t & [Ht | Ht] & ->).
      * destruct (Hdt t Ht) as (n & p & Hn & -> & _).
        exists n. split; [assumption|]. now rewrite <- app_assoc.
      * destruct (Hft t Ht) as (n & p & d & Hn & -> & _).
        exists n. split; [assumption|]. now rewrite <- app_assoc.
Qed.

(** Emptiness below a directory can be checked on the nodes. *)
Lemma emptyBelow_check (fs : FS) (root : string) :
  forallb (fun kv : string * node => negb (HasPrefix kv.1 (root +:+ "/")))
    (map_to_list fs) = true ->
  emptyBelow fs root.
Proof.
  intros H k Hk. destruct (fs !! k) as [v|] eqn:E; [|reflexivity].
  apply elem_of_map_to_list, list_elem_of_In in E.
  rewrite forallb_forall in H. specialize (H _ E). simpl in H.
  rewrite Hk in H. discriminate.
Qed.

Lemma sourcesReady : packReady ["data"] ["f.txt"; "empty"] "arc.zst" sourceFs.
Proof.
  unfold packReady. split; [repeat constructor|].
  split; [exists 493; reflexivity|].
  split; [repeat constructor|].
  split; [apply (bool_decide_unpack _); vm_compute; exact I|].
  split; [|split; [reflexivity|split]].
  - constructor; [exact I|]. constructor; [|constructor].
    unfold isSource. change (sourceFs !! absPath (["data"] ++ ["empty"]))
      with (Some (DirNode 493)).
    apply emptyBelow_check. vm_compute. reflexivity.
  - apply (bool_decide_unpack _). vm_compute. exact I.
  - intros p. vm_compute. discriminate.
Qed.

Lemma round_trip_of_portable_sources_witness :
  exists fs2,
    decompressFile "/data"
      (holding (sourceEntries sourceFs ["data"] ["f.txt"; "empty"])) "arc.zst" "out"
      (compressFiles "/data" zstBytes zstBytes ["f.txt"; "empty"] "arc.zst" 3 sourceFs).2 =
      (Ok (1, "/data/out"), fs2) /\
    fs2 !! "/data/out/f.txt" = Some (FileNode 420 "ff") /\
    isDir fs2 "/data/out/empty".
Proof.
  destruct (round_trip_of_portable_sources ["data"] ["f.txt"; "empty"] "arc.zst" "out" 3
              zstBytes zstBytes
              (holding (sourceEntries sourceFs ["data"] ["f.txt"; "empty"])) sourceFs)
    as (stats & fs1 & fs2 & Hrun & Hrun2 & Hfiles & Hdirs & _).
  - exact sourcesReady.
  - reflexivity.
  - discriminate.
  - intros _. apply emptyBelow_check. vm_compute. reflexivity.
  - reflexivity.
  - simpl. lia.
  - exists fs2.
    change (compressFiles "/data" zstBytes zstBytes ["f.txt"; "empty"] "arc.zst" 3 sourceFs)
      with (compressFiles (absPath ["data"]) zstBytes zstBytes ["f.txt"; "empty"]
              "arc.zst" 3 sourceFs).
    rewrite Hrun. split; [exact Hrun2|]. split.
    + apply (Hfiles "f.txt" 420 "ff"); [apply list_elem_of_here | reflexivity].
    + apply (Hdirs "empty" 493); [|reflexivity].
      apply list_elem_of_further, list_elem_of_here.
Defined.

(** * Further properties of the program *)

(** ** The three sanitizers *)

Section SanitizerLaws.

Lemma noneOf_TrimLeft (class s cutset : string) :
  noneOf class s = true -> noneOf class (TrimLeft s cutset) = true.
Proof.
  induction s as [|c s IH]; [reflexivity|].
  intros H. cbn [TrimLeft]. destruct (ContainsByte cutset c); [|exact H].
  apply IH. cbn [noneOf] in H. now apply andb_true_iff in H as [_ H].
Qed.

Lemma noneOf_TrimRight (class s cutset : string) :
  noneOf class s = true -> noneOf class (TrimRight s cutset) = true.
Proof.
  induction s as [|c s IH]; [reflexivity|].
  cbn [noneOf TrimRight]. intros [Hc Hs]%andb_true_iff. specialize (IH Hs).
  destruct (TrimRight s cutset) as [|d t].
  - destruct (ContainsByte cutset c); [reflexivity|].
    cbn [noneOf]. now rewrite Hc.
  - change (noneOf class (String c (String d t)))
      with (negb (ContainsByte class c) && noneOf class (String d t)).
    now rewrite Hc, IH.
Qed.

Lemma noneOf_sliceTo (class : string) (n : nat) (s : string) :
  noneOf class s = true -> noneOf class (sliceTo n s) = true.
Proof.
  revert n. induction s as [|c s IH]; intros [|n]; try reflexivity.
  cbn [noneOf sliceTo]. intros [Hc Hs]%andb_true_iff. now rewrite Hc, IH.
Qed.

Lemma noneOf_sliceFrom (class : string) (n : nat) (s : string) :
  noneOf class s = true -> noneOf class (sliceFrom n s) = true.
Proof.
  revert n. induction s as [|c s IH]; intros [|n]; try reflexivity; [auto|].
  cbn [noneOf sliceFrom]. intros [Hc Hs]%andb_true_iff. now apply IH.
Qed.

Lemma noneOf_ReplaceClass (class s : string) :
  ContainsByte class "_" = false -> noneOf class (ReplaceClass class s) = true.
Proof.
  intros Hu. induction s as [|c s IH]; [reflexivity|].
  cbn [ReplaceClass noneOf]. rewrite IH, andb_true_r.
  destruct (ContainsByte class c) eqn:Hc; [now rewrite Hu | now rewrite Hc].
Qed.

Lemma length_sliceTo (n : nat) (s : string) : (String.length (sliceTo n s) <= n)%nat.
Proof.
  revert n. induction s as [|c s IH]; intros [|n]; simpl; try lia.
  specialize (IH n). lia.
Qed.

End SanitizerLaws.

(** X1.  Whatever name it is given, [sanitizeDirectoryName] returns a
    name that can be used for a directory: it is not empty, it has at
    most 100 bytes, it holds none of the bytes of the class (so neither
    separator), and it begins with neither a space nor a dot. *)
Theorem sanitized_directory_name_is_usable (name : string) :
  let d := sanitizeDirectoryName name in
  d <> EmptyString /\
  (String.length d <= 100)%nat /\
  noneOf invalidDirChars d = true /\
  HasPrefix d " " = false /\ HasPrefix d "." = false.
Proof.
  cbv zeta.
  destruct (sanitizeDirectoryName_plain name) as [_ (c & t & E & Hc)].
  assert (Hnone : noneOf invalidDirChars (sanitizeDirectoryName name) = true).
  { unfold sanitizeDirectoryName.
    set (n1 := Trim (ReplaceClass invalidDirChars name) " .").
    assert (H1 : noneOf invalidDirChars n1 = true).
    { apply noneOf_TrimRight, noneOf_TrimLeft, noneOf_ReplaceClass. reflexivity. }
    assert (H2 : noneOf invalidDirChars
                   (if String.eqb n1 EmptyString then "extracted" else n1) = true).
    { destruct (String.eqb n1 EmptyString); [reflexivity | exact H1]. }
    destruct (100 <? String.length _)%nat; [now apply noneOf_sliceTo | exact H2]. }
  assert (Hlen : (String.length (sanitizeDirectoryName name) <= 100)%nat).
  { unfold sanitizeDirectoryName.
    set (n2 := if String.eqb _ EmptyString then "extracted" else _).
    destruct (100 <? String.length n2)%nat eqn:Hl; [apply length_sliceTo|].
    apply Nat.ltb_ge in Hl. exact Hl. }
  split; [rewrite E; discriminate|]. split; [exact Hlen|]. split; [exact Hnone|].
  rewrite E. cbn [ContainsByte] in Hc.
  apply orb_false_iff in Hc as [Hsp [Hdot _]%orb_false_iff].
  cbn [HasPrefix]. now rewrite Hsp, Hdot.
Qed.

Section TarPathLaws.

Lemma ContainsByte_ReplaceAllByte (s : string) (old new : ascii) :
  Ascii.eqb old new = false -> ContainsByte (ReplaceAllByte s old new) old = false.
Proof.
  intros Hne. induction s as [|c s IH]; [reflexivity|].
  cbn [ReplaceAllByte ContainsByte]. rewrite IH, orb_false_r.
  destruct (Ascii.eqb c old) eqn:Hc; [exact Hne | now rewrite Ascii.eqb_sym].
Qed.

Lemma ContainsByte_ReplaceClass (class s : string) (c : ascii) :
  Ascii.eqb c "_" = false ->
  ContainsByte s c = false -> ContainsByte (ReplaceClass class s) c = false.
Proof.
  intros Hu. induction s as [|d s IH]; [reflexivity|].
  cbn [ReplaceClass ContainsByte]. intros [Hd Hs]%orb_false_iff.
  rewrite (IH Hs), orb_false_r. now destruct (ContainsByte class d).
Qed.

Lemma noneOf_cons (c : ascii) (class s : string) :
  ContainsByte s c = false -> noneOf class s = true ->
  noneOf (String c class) s = true.
Proof.
  induction s as [|d s IH]; [reflexivity|].
  cbn [ContainsByte noneOf]. intros [Hd Hs]%orb_false_iff [Hc Hn]%andb_true_iff.
  rewrite (IH Hs Hn), andb_true_r. rewrite Ascii.eqb_sym in Hd.
  apply negb_true_iff. apply negb_true_iff in Hc. now rewrite Hd, Hc.
Qed.

Lemma beginsWithSeparator_TrimLeft (s : string) :
  beginsWithSeparator (TrimLeft s "/\") = false.
Proof.
  pose proof (TrimLeft_head s "/\") as H.
  destruct (TrimLeft s "/\"); [reflexivity | exact H].
Qed.

(** The name [sanitizeTarPath] returns does not begin with a separator
    and holds neither a backslash nor a byte of the class. *)
Lemma sanitizeTarPath_shape (path : string) :
  beginsWithSeparator (sanitizeTarPath path) = false /\
  noneOf (String "\" invalidChars) (sanitizeTarPath path) = true.
Proof.
  unfold sanitizeTarPath.
  set (p1 := TrimLeft (if hasDrivePrefix path then sliceFrom 2 path else path) "/\").
  split.
  - pose proof (beginsWithSeparator_TrimLeft
                  (if hasDrivePrefix path then sliceFrom 2 path else path)) as H.
    fold p1 in H. destruct p1 as [|c p1]; [reflexivity|].
    cbn [ReplaceAllByte ReplaceClass beginsWithSeparator] in H |- *.
    cbn [ContainsByte] in H. apply orb_false_iff in H as [H1 [H2 _]%orb_false_iff].
    rewrite H2.
    destruct (ContainsByte invalidChars c); [reflexivity|].
    cbn [ContainsByte]. now rewrite H1, H2.
  - apply noneOf_cons.
    + apply ContainsByte_ReplaceClass; [reflexivity|].
      now apply ContainsByte_ReplaceAllByte.
    + now apply noneOf_ReplaceClass.
Qed.

Lemma TrimLeft_no_separator (s : string) :
  beginsWithSeparator s = false -> TrimLeft s "/\" = s.
Proof.
  destruct s as [|c s]; [reflexivity|]. intros H. now apply TrimLeft_id.
Qed.

Lemma sanitized_no_drive (s : string) :
  noneOf (String "\" invalidChars) s = true -> hasDrivePrefix s = false.
Proof.
  intros H. apply hasDrivePrefix_no_colon.
  apply (noneOf_spec (String "\" invalidChars)); [exact H | reflexivity].
Qed.

Lemma noneOf_FromSlash (os : GOOS) (s : string) :
  noneOf invalidChars s = true -> noneOf invalidChars (FromSlash os s) = true.
Proof.
  destruct os; [auto|]. cbn [FromSlash Separator].
  induction s as [|c s IH]; [reflexivity|].
  cbn [ReplaceAllByte noneOf]. intros [Hc Hs]%andb_true_iff.
  rewrite (IH Hs), andb_true_r. destruct (Ascii.eqb c "/"); [reflexivity | exact Hc].
Qed.

(** A relative name without backslash or byte of the class is left as
    it is. *)
Lemma sanitizeTarPath_fixed (s : string) :
  beginsWithSeparator s = false ->
  noneOf (String "\" invalidChars) s = true ->
  sanitizeTarPath s = s.
Proof.
  intros Hb Hn. unfold sanitizeTarPath.
  rewrite (sanitized_no_drive s Hn), (TrimLeft_no_separator s Hb).
  rewrite ReplaceAllByte_id
    by (apply (noneOf_spec (String "\" invalidChars)); [exact Hn | reflexivity]).
  apply ReplaceClass_id. now apply (noneOf_weaken _ _ "\"%char).
Qed.

End TarPathLaws.

(** X2.  The stored name of every entry that is packed is relative and
    portable: whatever the path, the name [sanitizeTarPath] returns
    does not begin with a slash or a backslash and holds no backslash,
    colon, quote, angle bracket, bar, question mark or star. *)
Theorem stored_names_are_relative_and_portable (path : string) :
  beginsWithSeparator (sanitizeTarPath path) = false /\
  ContainsByte (sanitizeTarPath path) "\" = false /\
  noneOf invalidChars (sanitizeTarPath path) = true.
Proof.
  destruct (sanitizeTarPath_shape path) as [Hb Hn]. split; [exact Hb|]. split.
  - apply (noneOf_spec (String "\" invalidChars)); [exact Hn | reflexivity].
  - now apply (noneOf_weaken _ _ "\"%char).
Qed.

(** X3.  [sanitizeTarPath] is idempotent: a name it has returned is
    left as it is when it is sanitized again. *)
Theorem sanitizeTarPath_idempotent (path : string) :
  sanitizeTarPath (sanitizeTarPath path) = sanitizeTarPath path.
Proof.
  destruct (sanitizeTarPath_shape path) as [Hb Hn].
  now apply sanitizeTarPath_fixed.
Qed.

(** X4.  What the packer stores, the extractor takes as it is: on
    every host [sanitizeExtractPath] either rejects a name returned by
    [sanitizeTarPath] (when it is empty, made of dots only, or holds
    [..]) or returns it with nothing changed but the separators. *)
Theorem stored_name_is_rejected_or_kept (os : GOOS) (path : string) :
  let stored := sanitizeTarPath path in
  sanitizeExtractPath os stored =
  if String.eqb (Trim stored ".") EmptyString || Contains stored ".."
  then EmptyString
  else FromSlash os stored.
Proof.
  cbv zeta. destruct (sanitizeTarPath_shape path) as [Hb Hn].
  set (s := sanitizeTarPath path) in *.
  unfold sanitizeExtractPath.
  rewrite (sanitized_no_drive s Hn), (TrimLeft_no_separator s Hb).
  assert (Hempty : String.eqb s EmptyString = true ->
                   String.eqb (Trim s ".") EmptyString = true).
  { intros ->%String.eqb_eq. reflexivity. }
  destruct (String.eqb s EmptyString) eqn:H0.
  - now rewrite (Hempty eq_refl).
  - cbn [orb]. destruct (String.eqb (Trim s ".") EmptyString); [reflexivity|].
    cbn [orb]. destruct (Contains s ".."); [reflexivity|].
    destruct (Ascii.eqb (Separator os) "\"); [|reflexivity].
    apply ReplaceClass_id, noneOf_FromSlash. now apply (noneOf_weaken _ _ "\"%char).
Qed.

(** ** Extraction: what is left when it fails *)

Section Clearing.

Import filepath.

Variables (cs : list string) (outputDir : string) (fs : FS).
Hypothesis Hcs : normalAll cs.
Hypothesis Hout : normalElem outputDir = true.
Hypothesis Hcwd : isDir fs (absPath cs).

#[local] Abbreviation root := (outputRoot cs outputDir).

Lemma root_normal : normalAll (cs ++ [outputDir]).
Proof. apply normalAll_app. split; [assumption | now constructor]. Qed.

Lemma root_not_slash : String.eqb root "/" = false.
Proof.
  apply String.eqb_neq. intros Heq.
  change "/" with (absPath []) in Heq. unfold outputRoot in Heq.
  apply absPath_inj in Heq; [| apply root_normal | constructor].
  now destruct cs.
Qed.

Lemma cwd_not_in_root :
  absPath cs <> root /\ HasPrefix (absPath cs) (root +:+ "/") = false.
Proof.
  assert (Hlen : (String.length (absPath cs) < String.length root)%nat).
  { unfold outputRoot. rewrite absPath_snoc.
    pose proof Hout as [Hne _]%normalElem_spec.
    destruct (decide (cs = [])) as [-> | _]; simpl;
      rewrite ?length_append; simpl; destruct outputDir; try congruence; simpl; lia. }
  split.
  - intros Heq. rewrite Heq in Hlen. lia.
  - destruct (HasPrefix _ _) eqn:E; [|reflexivity].
    apply HasPrefix_length in E. rewrite length_append in E. lia.
Qed.

Lemma Join_root : Join [absPath cs; outputDir] = root.
Proof.
  rewrite Join_abs by (auto using normalElem_elements).
  now rewrite keptElems_single.
Qed.

Lemma onChain_root (k : string) : onChain cs [outputDir] k -> k = root.
Proof.
  intros (ms1 & ms2 & Hs & Hn & ->).
  destruct ms1 as [|x ms1]; [congruence|]. destruct ms1; [|destruct ms1; discriminate].
  now injection Hs as <- _.
Qed.

(** Before the archive is opened the destination has been removed and
    made again: it is a directory, nothing is left below it, and the
    rest of the filesystem is as before. *)
Lemma decompressFile_cleared (zstdTarReader : string -> TarStream)
    (archiveFile : string) :
  exists fs1,
    isDir fs1 root /\
    ((fs !! root = None -> emptyBelow fs root) -> emptyBelow fs1 root) /\
    (forall k, k <> root -> HasPrefix k (root +:+ "/") = false ->
               fs1 !! k = fs !! k) /\
    decompressFile (absPath cs) zstdTarReader archiveFile outputDir fs =
    match openArchive (absPath cs) zstdTarReader archiveFile fs1 with
    | (Ok tarReader, _) =>
        match extractEntries (absPath cs) root tarReader 0 fs1 with
        | (Ok fileCount, fs2) => (Ok (fileCount, root), fs2)
        | (Err e, fs2) => (Err e, fs2)
        end
    | (Err e, _) => (Err (Errorf "failed to open archive" e), fs1)
    end.
Proof.
  pose proof root_normal as Hroot.
  pose proof root_not_slash as Hslash.
  destruct Hcwd as [pc Hpc].
  set (fs0 := match fs !! root with
              | Some _ =>
                  filter (fun kv => negb (String.eqb (fst kv) root
                                          || pathUnder root (fst kv)) = true) fs
              | None => fs
              end).
  assert (Hfs0_below : (fs !! root = None -> emptyBelow fs root) -> emptyBelow fs0 root).
  { subst fs0. intros Hfresh k Hk.
    destruct (fs !! root) eqn:E; [|now apply Hfresh].
    apply map_lookup_filter_None. right. intros x _. simpl.
    unfold pathUnder. rewrite Hslash, Hk. now rewrite orb_true_r. }
  assert (Hfs0_out : forall k, k <> root -> HasPrefix k (root +:+ "/") = false ->
                       fs0 !! k = fs !! k).
  { subst fs0. intros k Hk1 Hk2.
    destruct (fs !! root) eqn:E; [|reflexivity].
    destruct (fs !! k) as [v|] eqn:Ek.
    - apply map_lookup_filter_Some_2; [assumption|]. simpl.
      unfold pathUnder. rewrite Hslash, Hk2.
      apply String.eqb_neq in Hk1. now rewrite Hk1.
    - apply map_lookup_filter_None. now left. }
  destruct cwd_not_in_root as [Hcwd1 Hcwd2].
  assert (Hdir0 : isDir fs0 (absPath cs)).
  { exists pc. now rewrite Hfs0_out. }
  assert (Hout' : normalAll [outputDir]) by (apply List.Forall_cons; auto).
  destruct (MkdirAll_abs (absPath cs) 493 cs [outputDir] fs0 Hcs Hout' Hdir0)
    as (r1 & fs1 & Hrun1 & Hf1 & Hd1 & Hok1 & _).
  fold (outputRoot cs outputDir) in Hrun1, Hd1.
  assert (Hfs0_root : fs0 !! root = None).
  { subst fs0. destruct (fs !! root) eqn:E; [|assumption].
    apply map_lookup_filter_None. right. intros x _. simpl.
    now rewrite String.eqb_refl. }
  assert (Hr1 : r1 = Ok tt).
  { apply Hok1. intros k Hch p d. apply onChain_root in Hch. congruence. }
  subst r1. specialize (Hd1 eq_refl).
  exists fs1. split; [exact Hd1|]. split; [|split].
  - intros Hfresh k Hk. destruct (Hf1 k) as [-> | (_ & _ & Hch)]; [now apply Hfs0_below|].
    apply onChain_root in Hch. subst k.
    rewrite HasPrefix_longer in Hk; [discriminate | discriminate].
  - intros k Hk1 Hk2. destruct (Hf1 k) as [-> | (_ & _ & Hch)]; [now apply Hfs0_out|].
    apply onChain_root in Hch. contradiction.
  - unfold decompressFile, bind, wrapErr, Getwd. rewrite Hpc.
    rewrite Join_root. unfold outputRoot at 1.
    rewrite (Stat_absPath (absPath cs) (cs ++ [outputDir]) fs Hroot).
    fold (outputRoot cs outputDir).
    assert (Hclear :
      (match fs !! root with
       | Some _ => RemoveAll (absPath cs) root fs
       | None => (Ok tt, fs)
       end) = (Ok tt, fs0)).
    { subst fs0. destruct (fs !! root); [|reflexivity].
      unfold RemoveAll.
      assert (Hne : String.eqb root EmptyString = false) by reflexivity.
      rewrite Hne. unfold outputRoot.
      now rewrite (resolve_absPath (absPath cs) (cs ++ [outputDir]) Hroot). }
    rewrite Hclear, Hrun1.
    destruct (openArchive (absPath cs) zstdTarReader archiveFile fs1)
      as [[tarReader|e] fsA] eqn:Hopen.
    + assert (fsA = fs1) as ->.
      { unfold openArchive in Hopen.
        destruct (Stat (absPath cs) archiveFile fs1) as [[?|? ?]|];
          now injection Hopen. }
      destruct (extractEntries (absPath cs) root tarReader 0 fs1) as [[n|e] fs2];
        reflexivity.
    + assert (fsA = fs1) as ->.
      { unfold openArchive in Hopen.
        destruct (Stat (absPath cs) archiveFile fs1) as [[?|? ?]|];
          now injection Hopen. }
      reflexivity.
Qed.

(** Whatever the archive is, the call changes no node outside the
    destination. *)
Lemma decompressFile_outside (zstdTarReader : string -> TarStream)
    (archiveFile : string) (r : result (Z * string)) (fs' : FS) :
  decompressFile (absPath cs) zstdTarReader archiveFile outputDir fs = (r, fs') ->
  forall k, k <> root -> HasPrefix k (root +:+ "/") = false -> fs' !! k = fs !! k.
Proof.
  intros Hrun k Hk1 Hk2.
  destruct (decompressFile_cleared zstdTarReader archiveFile)
    as (fs1 & Hdir1 & _ & Hsame & Heq).
  rewrite Heq in Hrun. rewrite <- (Hsame k Hk1 Hk2).
  destruct (openArchive (absPath cs) zstdTarReader archiveFile fs1)
    as [[tarReader|e] fsA].
  - destruct (extractEntries (absPath cs) root tarReader 0 fs1) as [r2 fs2] eqn:Hloop.
    assert (fs2 = fs') as -> by (destruct r2; now injection Hrun).
    exact (extractEntries_frame (absPath cs) (cs ++ [outputDir]) root_normal
             _ 0 fs1 r2 fs' Hdir1 Hloop k Hk2).
  - now injection Hrun as _ <-.
Qed.

End Clearing.

Section Interrupted.

Import filepath.

Variable cwd : string.

(** The loop on a stream that goes on after some entries: it runs on
    the entries, and goes on from the count and the filesystem it has
    reached. *)
Lemma extractEntries_then (root : string) (es : list (Header * string))
    (rest : TarStream) :
  forall (n : Z) (fs : FS),
    extractEntries cwd root (streamThen es rest) n fs =
    match extractEntries cwd root (streamOf es) n fs with
    | (Ok n', fs') => extractEntries cwd root rest n' fs'
    | (Err e, fs') => (Err e, fs')
    end.
Proof.
  induction es as [|e es IH]; intros n fs; [reflexivity|].
  change (streamThen (e :: es) rest) with (TarEntry e.1 e.2 (streamThen es rest)).
  change (streamOf (e :: es)) with (TarEntry e.1 e.2 (streamOf es)).
  cbn [extractEntries].
  destruct (String.eqb (sanitizeExtractPath Unix (Name e.1)) EmptyString); [apply IH|].
  destruct (negb (HasPrefix _ _)); [apply IH|].
  unfold bind.
  destruct (wrapErr "failed to create directory" _ fs) as [[[]|e1] fs1]; [|reflexivity].
  destruct (Ascii.eqb (Typeflag e.1) TypeDir).
  - destruct (wrapErr _ (MkdirAll cwd _ _) fs1) as [[[]|e2] fs2]; [apply IH | reflexivity].
  - destruct (Ascii.eqb (Typeflag e.1) TypeReg); [|apply IH].
    destruct (wrapErr _ (OpenFile_CREATE_RDWR cwd _ _) fs1) as [[h|e2] fs2];
      [|reflexivity].
    destruct (wrapErr _ (Copy h e.2) fs2) as [[[]|e3] fs3]; [apply IH | reflexivity].
Qed.

(** Below a regular file no directory can be made. *)
Lemma MkdirAll_under_file (perm : Z) (fp : list string) (p : Z) (d : string)
    (fs : FS) :
  normalAll fp -> fp <> [] ->
  fs !! absPath fp = Some (FileNode p d) ->
  forall ms : list string,
    normalAll ms ->
    (forall ms1 ms2, ms = (ms1 ++ ms2)%list -> ms1 <> [] ->
       fs !! absPath (fp ++ ms1) = None) ->
    forall fuel, (List.length ms <= fuel)%nat ->
    MkdirAll_rec cwd fuel (absPath (fp ++ ms)) perm fs = (Err ENOTDIR, fs).
Proof.
  intros Hfp Hne Hfile ms.
  induction ms as [|m ms IH] using rev_ind; intros Hms Hfree fuel Hfuel.
  - rewrite app_nil_r, MkdirAll_rec_unfold, Stat_absPath, Hfile by assumption.
    reflexivity.
  - apply normalAll_app in Hms as [Hms Hm]. inversion Hm as [|? ? Hm' _]; subst.
    assert (Hall : normalAll (fp ++ ms ++ [m])).
    { repeat (apply normalAll_app; split); auto. }
    assert (Hfm : normalAll (fp ++ ms)) by (apply normalAll_app; auto).
    rewrite MkdirAll_rec_unfold, Stat_absPath by assumption.
    rewrite (Hfree (ms ++ [m])%list []) by (rewrite ?app_nil_r; auto; now destruct ms).
    rewrite length_app in Hfuel. simpl in Hfuel.
    destruct fuel as [|fuel]; [lia|].
    rewrite (app_assoc fp ms [m]), parentPrefix_snoc by assumption.
    destruct (decide ((fp ++ ms)%list = [])) as [Hnil | _].
    { apply app_eq_nil in Hnil as [-> _]. congruence. }
    unfold bind at 1. rewrite IH; [reflexivity | assumption | | lia].
    intros ms1 ms2 -> Hn1. apply (Hfree ms1 (ms2 ++ [m])%list); [|assumption].
    now rewrite app_assoc.
Qed.

End Interrupted.

Section PartialUnpack.

Variables (cs : list string) (outputDir archiveFile : string).
Variables (zstdTarReader : string -> TarStream) (fs : FS) (data : string).
Hypothesis Hready : unpackReady cs outputDir archiveFile fs data.

(** Entries that do not collide, at the head of a stream: they are all
    extracted into the cleared destination, and the call goes on with
    what follows them. *)
Lemma decompressFile_then (es : list (Header * string)) (rest : TarStream) :
  zstdTarReader data = streamThen es rest ->
  extractable es ->
  Z.of_nat (countFiles es) < 2 ^ 63 ->
  exists fs2,
    isDir fs2 (outputRoot cs outputDir) /\
    (forall e ns, e ∈ es -> targetElems (Name e.1) = Some ns ->
       Typeflag e.1 = TypeReg ->
       fs2 !! absPath ((cs ++ [outputDir]) ++ ns) =
         Some (FileNode (FileMode (Mode e.1)) e.2)) /\
    (forall k, HasPrefix k (outputRoot cs outputDir +:+ "/") = true ->
       fs2 !! k <> None ->
       exists t, (t ∈ dirTargets es \/ t ∈ fileTargets es) /\
                 k = absPath ((cs ++ [outputDir]) ++ t)) /\
    decompressFile (absPath cs) zstdTarReader archiveFile outputDir fs =
    match extractEntries (absPath cs) (outputRoot cs outputDir) rest
            (Z.of_nat (countFiles es)) fs2 with
    | (Ok fileCount, fs3) => (Ok (fileCount, outputRoot cs outputDir), fs3)
    | (Err e, fs3) => (Err e, fs3)
    end.
Proof.
  intros Hstream Hext Hbound.
  pose proof (outputRoot_normal cs outputDir archiveFile fs data Hready) as Hroot.
  destruct (decompressFile_prologue cs outputDir archiveFile zstdTarReader fs data Hready)
    as (fs1 & Hdir1 & Hempty & Hsame & Hrun).
  assert (Hne : (cs ++ [outputDir])%list <> []) by now destruct cs.
  assert (Hbelow : forall t, t <> [] ->
            HasPrefix (absPath ((cs ++ [outputDir]) ++ t))
              (outputRoot cs outputDir +:+ "/") = true).
  { intros t Ht. now apply HasPrefix_absPath_under. }
  destruct (extractEntries_fresh (absPath cs) (cs ++ [outputDir]) Hroot Hne es 0 fs1
              Hdir1 Hext)
    as (fs2 & Hloop & Hmono & Hreg & _ & Hnew).
  - intros d Hd p dat. rewrite Hempty; [discriminate|].
    apply Hbelow. now apply (dirTargets_nonempty es).
  - intros f Hf. apply Hempty, Hbelow. now apply (fileTargets_nonempty es).
  - lia.
  - lia.
  - exists fs2. fold (outputRoot cs outputDir) in Hloop.
    split; [destruct Hdir1 as [p Hp]; exists p; now apply Hmono|].
    split; [exact Hreg|]. split.
    + intros k Hk Hsome. apply Hnew; [|assumption]. now apply Hempty.
    + rewrite Hrun, Hstream, extractEntries_then, Hloop. reflexivity.
Qed.

End PartialUnpack.

(** X5.  A decompression request changes nothing outside its
    destination.  Whatever the method, the request, the bytes of the
    archive and the entries in it, and whatever the filesystem holds,
    the handler leaves every node as it was except the directory
    named by the sanitized output name in the working directory and
    what lies below it. *)
Theorem decompress_request_touches_only_its_destination
    (cs : list string) (zstdTarReader : string -> TarStream)
    (method : string) (req : DecompressRequest) (fs : FS) (k : string) :
  normalAll cs ->
  k <> outputRoot cs (requestedOutputDir req) ->
  HasPrefix k (outputRoot cs (requestedOutputDir req) +:+ "/") = false ->
  (handleDecompress (absPath cs) zstdTarReader method (Some req) fs).2 !! k = fs !! k.
Proof.
  intros Hcs Hk1 Hk2. unfold handleDecompress.
  destruct (negb (String.eqb method "POST")); [reflexivity|].
  destruct (String.eqb (Archive req) EmptyString); [reflexivity|].
  cbv zeta.
  destruct (decompressFile (absPath cs) zstdTarReader (Archive req)
              (requestedOutputDir req) fs) as [r fs'] eqn:Hrun.
  assert (Hsame : fs' !! k = fs !! k).
  { destruct (fs !! absPath cs) as [[p|p d]|] eqn:Hcwd.
    - apply (decompressFile_outside cs (requestedOutputDir req) fs Hcs
               (requestedOutputDir_normal req) (ex_intro _ p Hcwd)
               zstdTarReader (Archive req) r fs' Hrun k Hk1 Hk2).
    - unfold decompressFile, bind, wrapErr, Getwd in Hrun. rewrite Hcwd in Hrun.
      now injection Hrun as _ <-.
    - unfold decompressFile, bind, wrapErr, Getwd in Hrun. rewrite Hcwd in Hrun.
      now injection Hrun as _ <-. }
  destruct r as [[n out]|e]; exact Hsame.
Qed.

Lemma decompress_request_touches_only_its_destination_witness :
  (handleDecompress "/work" (holding [regular "../../etc/passwd" "evil"; regular "a" "b"])
     "POST" (Some {| Archive := "a.zst"; OutputDir := "../out" |}) exampleFs).2
    !! "/etc/passwd" = exampleFs !! "/etc/passwd".
Proof.
  apply (decompress_request_touches_only_its_destination ["work"]
           (holding [regular "../../etc/passwd" "evil"; regular "a" "b"])
           "POST" {| Archive := "a.zst"; OutputDir := "../out" |} exampleFs "/etc/passwd").
  - repeat constructor.
  - vm_compute. discriminate.
  - vm_compute. reflexivity.
Defined.

(** X6.  The destination is cleared before the archive is looked at.
    When the archive does not exist the call fails with the error of
    [os.Open], and yet the output directory has been removed and made
    again: it is a directory with nothing in it, whatever it held
    before.  The rest of the filesystem is as it was. *)
Theorem missing_archive_still_clears_destination
    (cs : list string) (outputDir archiveFile : string)
    (zstdTarReader : string -> TarStream) (fs : FS) :
  normalAll cs ->
  normalElem outputDir = true ->
  isDir fs (absPath cs) ->
  (fs !! outputRoot cs outputDir = None -> emptyBelow fs (outputRoot cs outputDir)) ->
  Stat (absPath cs) archiveFile fs = None ->
  resolve (absPath cs) archiveFile <> outputRoot cs outputDir ->
  exists fs',
    decompressFile (absPath cs) zstdTarReader archiveFile outputDir fs =
      (Err (Errorf "failed to open archive" ENOENT), fs') /\
    isDir fs' (outputRoot cs outputDir) /\
    emptyBelow fs' (outputRoot cs outputDir) /\
    (forall k, k <> outputRoot cs outputDir ->
               HasPrefix k (outputRoot cs outputDir +:+ "/") = false ->
               fs' !! k = fs !! k).
Proof.
  intros Hcs Hout Hcwd Hfresh Hstat Hneq.
  destruct (decompressFile_cleared cs outputDir fs Hcs Hout Hcwd zstdTarReader archiveFile)
    as (fs1 & Hdir1 & Hempty & Hsame & Hrun).
  specialize (Hempty Hfresh).
  exists fs1. split; [|auto].
  rewrite Hrun. unfold openArchive, Stat in *.
  destruct (String.eqb archiveFile EmptyString); [reflexivity|].
  assert (Hnone : fs1 !! resolve (absPath cs) archiveFile = None).
  { destruct (HasPrefix (resolve (absPath cs) archiveFile)
                (outputRoot cs outputDir +:+ "/")) eqn:Hunder.
    - now apply Hempty.
    - now rewrite Hsame. }
  now rewrite Hnone.
Qed.

Lemma missing_archive_still_clears_destination_witness :
  exists fs',
    decompressFile "/work" (holding []) "gone.zst" "out" exampleFs =
      (Err (Errorf "failed to open archive" ENOENT), fs') /\
    fs' !! "/work/out/stale.txt" = None.
Proof.
  destruct (missing_archive_still_clears_destination ["work"] "out" "gone.zst"
              (holding []) exampleFs) as (fs' & Hrun & _ & Hempty & _).
  - repeat constructor.
  - reflexivity.
  - exists 493. reflexivity.
  - intros H. vm_compute in H. discriminate.
  - reflexivity.
  - vm_compute. discriminate.
  - exists fs'. split; [exact Hrun|]. apply Hempty. reflexivity.
Defined.

(** X7.  An archive that lies in the output directory is lost: it is
    removed with the directory before it is opened, so the call fails
    with the error of [os.Open] and the archive is gone. *)
Theorem archive_inside_destination_is_deleted
    (cs : list string) (outputDir archiveFile : string)
    (zstdTarReader : string -> TarStream) (fs : FS) :
  normalAll cs ->
  normalElem outputDir = true ->
  isDir fs (absPath cs) ->
  isDir fs (outputRoot cs outputDir) ->
  archiveFile <> EmptyString ->
  HasPrefix (resolve (absPath cs) archiveFile) (outputRoot cs outputDir +:+ "/") = true ->
  exists fs',
    decompressFile (absPath cs) zstdTarReader archiveFile outputDir fs =
      (Err (Errorf "failed to open archive" ENOENT), fs') /\
    fs' !! resolve (absPath cs) archiveFile = None.
Proof.
  intros Hcs Hout Hcwd [p Hroot] Hname Hunder.
  destruct (decompressFile_cleared cs outputDir fs Hcs Hout Hcwd zstdTarReader archiveFile)
    as (fs1 & Hdir1 & Hempty & Hsame & Hrun).
  assert (Hnone : fs1 !! resolve (absPath cs) archiveFile = None).
  { apply Hempty; [congruence | assumption]. }
  exists fs1. split; [|exact Hnone].
  rewrite Hrun. unfold openArchive, Stat.
  apply String.eqb_neq in Hname. now rewrite Hname, Hnone.
Qed.

Lemma archive_inside_destination_is_deleted_witness :
  exampleFs !! "/work/out/stale.txt" = Some (FileNode 420 "old") /\
  exists fs',
    decompressFile "/work" (holding [regular "a" "b"]) "out/stale.txt" "out" exampleFs =
      (Err (Errorf "failed to open archive" ENOENT), fs') /\
    fs' !! "/work/out/stale.txt" = None.
Proof.
  split; [reflexivity|].
  apply (archive_inside_destination_is_deleted ["work"] "out" "out/stale.txt"
           (holding [regular "a" "b"]) exampleFs).
  - repeat constructor.
  - reflexivity.
  - exists 493. reflexivity.
  - exists 493. reflexivity.
  - discriminate.
  - reflexivity.
Defined.

(** X8.  A stream that breaks is not undone.  When reading fails
    after entries that do not collide, and whose directory entries let
    the owner write and search the directories they make, the call
    fails with the error of the header read and reports no count, and
    the files of the entries read before are in the destination with
    their bytes. *)
Theorem read_error_leaves_partial_extraction
    (cs : list string) (outputDir archiveFile : string)
    (zstdTarReader : string -> TarStream) (fs : FS) (data : string)
    (es : list (Header * string)) :
  unpackReady cs outputDir archiveFile fs data ->
  zstdTarReader data = streamThen es TarError ->
  extractable es ->
  dirsWritable es = true ->
  Z.of_nat (countFiles es) < 2 ^ 63 ->
  exists fs',
    decompressFile (absPath cs) zstdTarReader archiveFile outputDir fs =
      (Err (Errorf "failed to read tar header" ErrRead), fs') /\
    (forall e ns, e ∈ es -> targetElems (Name e.1) = Some ns ->
       Typeflag e.1 = TypeReg ->
       fs' !! absPath ((cs ++ [outputDir]) ++ ns) =
         Some (FileNode (FileMode (Mode e.1)) e.2)).
Proof.
  intros Hready Hstream Hext _ Hbound.
  destruct (decompressFile_then cs outputDir archiveFile zstdTarReader fs data Hready
              es TarError Hstream Hext Hbound) as (fs2 & _ & Hreg & _ & Hrun).
  exists fs2. split; [exact Hrun | exact Hreg].
Qed.

Lemma read_error_leaves_partial_extraction_witness :
  exists fs',
    decompressFile "/work" (fun _ => streamThen [regular "a/b.txt" "bytes"] TarError)
      "a.zst" "out" exampleFs =
      (Err (Errorf "failed to read tar header" ErrRead), fs') /\
    fs' !! "/work/out/a/b.txt" = Some (FileNode 420 "bytes").
Proof.
  destruct (read_error_leaves_partial_extraction ["work"] "out" "a.zst"
              (fun _ => streamThen [regular "a/b.txt" "bytes"] TarError)
              exampleFs "zst" [regular "a/b.txt" "bytes"])
    as (fs' & Hrun & Hreg).
  - exact exampleReady.
  - reflexivity.
  - apply (bool_decide_unpack _). vm_compute. exact I.
  - reflexivity.
  - vm_compute. reflexivity.
  - exists fs'. split; [exact Hrun|].
    apply (Hreg (regular "a/b.txt" "bytes") ["a"; "b.txt"]);
      [apply list_elem_of_here | reflexivity | reflexivity].
Defined.

(** X9.  An entry that is neither a regular file nor a directory (a
    link, a device) is never made, but room is made for it: after an
    archive of one such entry the call succeeds with count 0, the
    directory that would hold the entry exists, and there is nothing
    at the path of the entry itself. *)
Theorem other_entry_kinds_leave_only_their_parent
    (cs : list string) (outputDir archiveFile : string)
    (zstdTarReader : string -> TarStream) (fs : FS) (data : string)
    (header : Header) (payload : string) (ms : list string) (m : string) :
  unpackReady cs outputDir archiveFile fs data ->
  zstdTarReader data = TarEntry header payload TarEOF ->
  Typeflag header <> TypeReg ->
  Typeflag header <> TypeDir ->
  targetElems (Name header) = Some (ms ++ [m])%list ->
  exists fs',
    decompressFile (absPath cs) zstdTarReader archiveFile outputDir fs =
      (Ok (0, outputRoot cs outputDir), fs') /\
    isDir fs' (absPath ((cs ++ [outputDir]) ++ ms)) /\
    fs' !! absPath ((cs ++ [outputDir]) ++ ms ++ [m]) = None.
Proof.
  intros Hready Hstream Hreg Hdir Ht.
  pose proof (outputRoot_normal cs outputDir archiveFile fs data Hready) as Hroot.
  destruct (decompressFile_prologue cs outputDir archiveFile zstdTarReader fs data Hready)
    as (fs1 & Hdir1 & Hempty & _ & Hrun).
  assert (Hne : (cs ++ [outputDir])%list <> []) by now destruct cs.
  destruct (targetElems_normal _ _ Ht) as [Hns _].
  apply normalAll_app in Hns as [Hms Hm]. inversion Hm as [|? ? Hm' _]; subst.
  assert (Hbelow : forall t, t <> [] ->
            fs1 !! absPath ((cs ++ [outputDir]) ++ t) = None).
  { intros t Hnn. apply Hempty. now apply HasPrefix_absPath_under. }
  destruct (MkdirAll_abs (absPath cs) 493 (cs ++ [outputDir]) ms fs1 Hroot Hms Hdir1)
    as (r1 & fs2 & Hmk & Hframe & Hd2 & Hok & _).
  assert (Hr1 : r1 = Ok tt).
  { apply Hok. intros k (ms1 & ms2 & -> & Hn1 & ->) p d. now rewrite Hbelow. }
  subst r1. exists fs2.
  split; [|split].
  - rewrite Hrun, Hstream.
    unfold outputRoot. rewrite extractEntries_step, Ht by assumption.
    unfold extractOne, bind, wrapErr.
    rewrite (app_assoc (cs ++ [outputDir]) ms [m]), Dir_absPath_snoc, Hmk
      by (auto; apply normalAll_app; auto).
    apply Ascii.eqb_neq in Hreg, Hdir. rewrite Hreg, Hdir. reflexivity.
  - now apply Hd2.
  - destruct (Hframe (absPath ((cs ++ [outputDir]) ++ ms ++ [m])))
      as [-> | (_ & _ & (ms1 & ms2 & Hs & _ & Heq))].
    + apply Hbelow. now destruct ms.
    + destruct (absPath_snoc_neq (cs ++ [outputDir]) ms ms1 ms2 m Hroot Hms Hm' Hs Heq).
Qed.

Lemma other_entry_kinds_leave_only_their_parent_witness :
  exists fs',
    decompressFile "/work"
      (fun _ => TarEntry {| Name := "bin/sh"; Typeflag := "2"; Mode := 511; Size := 0 |}
                  EmptyString TarEOF)
      "a.zst" "out" exampleFs = (Ok (0, "/work/out"), fs') /\
    isDir fs' "/work/out/bin" /\
    fs' !! "/work/out/bin/sh" = None.
Proof.
  apply (other_entry_kinds_leave_only_their_parent ["work"] "out" "a.zst"
           (fun _ => TarEntry {| Name := "bin/sh"; Typeflag := "2"; Mode := 511; Size := 0 |}
                       EmptyString TarEOF)
           exampleFs "zst"
           {| Name := "bin/sh"; Typeflag := "2"; Mode := 511; Size := 0 |}
           EmptyString ["bin"] "sh").
  - exact exampleReady.
  - reflexivity.
  - discriminate.
  - discriminate.
  - reflexivity.
Defined.

(** X10.  An entry beneath a regular file stops the extraction.  When
    a regular file has been extracted and a later entry has its path
    below that of the file, the directory for it cannot be made: the
    call fails there, what follows in the archive is not read, and
    the file extracted before stays. *)
Theorem entry_beneath_a_file_aborts
    (cs : list string) (outputDir archiveFile : string)
    (zstdTarReader : string -> TarStream) (fs : FS) (data : string)
    (header1 header2 : Header) (payload1 payload2 : string) (rest : TarStream)
    (ns ms : list string) :
  unpackReady cs outputDir archiveFile fs data ->
  zstdTarReader data =
    TarEntry header1 payload1 (TarEntry header2 payload2 rest) ->
  Typeflag header1 = TypeReg ->
  targetElems (Name header1) = Some ns ->
  targetElems (Name header2) = Some (ns ++ ms)%list ->
  ms <> [] ->
  exists fs',
    decompressFile (absPath cs) zstdTarReader archiveFile outputDir fs =
      (Err (Errorf "failed to create directory" ENOTDIR), fs') /\
    fs' !! absPath ((cs ++ [outputDir]) ++ ns) =
      Some (FileNode (FileMode (Mode header1)) payload1).
Proof.
  intros Hready Hstream Hreg Ht1 Ht2 Hms.
  pose proof (outputRoot_normal cs outputDir archiveFile fs data Hready) as Hroot.
  assert (Hne : (cs ++ [outputDir])%list <> []) by now destruct cs.
  assert (Hf : fileTargets [(header1, payload1)] = [ns]).
  { unfold fileTargets, fileTargetsOf. simpl. now rewrite Ht1, Hreg. }
  assert (Hd : dirTargets [(header1, payload1)] = properPrefixes ns).
  { unfold dirTargets, dirTargetsOf. simpl. rewrite Ht1, Hreg. simpl.
    now rewrite !app_nil_r. }
  destruct (decompressFile_then cs outputDir archiveFile zstdTarReader fs data Hready
              [(header1, payload1)] (TarEntry header2 payload2 rest))
    as (fs2 & Hdir2 & Hfile & Hnew & Hrun).
  { exact Hstream. }
  { unfold extractable. rewrite Hf, Hd. split; [apply NoDup_singleton|].
    constructor; [|constructor].
    intros Hin. apply properPrefixes_shorter in Hin. lia. }
  { unfold countFiles. rewrite Hf. simpl. lia. }
  specialize (Hfile (header1, payload1) ns (list_elem_of_here _ _) Ht1 Hreg).
  simpl in Hfile.
  exists fs2. split; [|exact Hfile].
  destruct (targetElems_normal _ _ Ht1) as [Hns Hnn].
  destruct (targetElems_normal _ _ Ht2) as [Hnm _].
  apply normalAll_app in Hnm as [_ Hmsn].
  destruct (exists_last Hms) as [ms' [m ->]].
  apply normalAll_app in Hmsn as [Hms' Hm]. inversion Hm as [|? ? Hm' _]; subst.
  assert (Hfp : normalAll ((cs ++ [outputDir]) ++ ns)) by (apply normalAll_app; auto).
  rewrite Hrun. unfold outputRoot.
  rewrite extractEntries_step, Ht2 by assumption.
  unfold extractOne, bind, wrapErr.
  rewrite (app_assoc ns ms' [m]), (app_assoc (cs ++ [outputDir]) (ns ++ ms') [m]).
  assert (Hall : normalAll ((cs ++ [outputDir]) ++ ns ++ ms')).
  { repeat (apply normalAll_app; split); auto;
      apply normalAll_app in Hroot as [Hr1 Hr2]; assumption. }
  rewrite (Dir_absPath_snoc _ m Hall Hm').
  rewrite (app_assoc (cs ++ [outputDir]) ns ms').
  assert (Hmk : MkdirAll (absPath cs) (absPath (((cs ++ [outputDir]) ++ ns) ++ ms')) 493 fs2 =
                (Err ENOTDIR, fs2)).
  { unfold MkdirAll.
    apply (MkdirAll_under_file (absPath cs) 493 ((cs ++ [outputDir]) ++ ns)
             (FileMode (Mode header1)) payload1 fs2 Hfp).
    - now destruct (cs ++ [outputDir])%list.
    - exact Hfile.
    - exact Hms'.
    - intros ms1 ms2 -> Hn1.
      destruct (fs2 !! absPath (((cs ++ [outputDir]) ++ ns) ++ ms1)) eqn:Hk;
        [|reflexivity].
      exfalso. rewrite <- (app_assoc (cs ++ [outputDir]) ns ms1) in Hk.
      destruct (Hnew (absPath ((cs ++ [outputDir]) ++ ns ++ ms1))) as (t & Hin & Heq).
      + apply HasPrefix_absPath_under; [assumption | now destruct ns].
      + congruence.
      + apply normalAll_app in Hms' as [Hms1 _].
        assert (Hlen : (List.length t <= List.length ns)%nat).
        { destruct Hin as [Hin | Hin].
          - rewrite Hd in Hin. apply properPrefixes_shorter in Hin. lia.
          - rewrite Hf in Hin. apply list_elem_of_singleton in Hin. subst t. lia. }
        apply absPath_under_inj in Heq; auto.
        * apply (f_equal (@List.length string)) in Heq. rewrite length_app in Heq.
          destruct ms1; [congruence | simpl in Heq; lia].
        * apply normalAll_app; auto.
        * destruct Hin as [Hin | Hin].
          -- rewrite Hd in Hin. now apply (properPrefixes_normal ns).
          -- rewrite Hf in Hin. apply list_elem_of_singleton in Hin. now subst t.
    - pose proof (absPath_length (((cs ++ [outputDir]) ++ ns) ++ ms')) as Hl.
      rewrite length_app in Hl. lia. }
  rewrite Hmk. reflexivity.
Qed.

Lemma entry_beneath_a_file_aborts_witness :
  exists fs',
    decompressFile "/work"
      (holding [regular "a" "first"; regular "a/b" "second"; regular "c" "third"])
      "a.zst" "out" exampleFs =
      (Err (Errorf "failed to create directory" ENOTDIR), fs') /\
    fs' !! "/work/out/a" = Some (FileNode 420 "first").
Proof.
  apply (entry_beneath_a_file_aborts ["work"] "out" "a.zst"
           (holding [regular "a" "first"; regular "a/b" "second"; regular "c" "third"])
           exampleFs "zst" (regular "a" "first").1 (regular "a/b" "second").1
           "first" "second" (streamOf [regular "c" "third"]) ["a"] ["b"]).
  - exact exampleReady.
  - reflexivity.
  - reflexivity.
  - reflexivity.
  - reflexivity.
  - discriminate.
Defined.

(** ** Packing: the statistics, and what is left when it fails *)

Section PackTotals.

Import filepath.

Variable cs : list string.
Hypothesis Hcs : normalAll cs.

Lemma payloadTotal_nonneg (entries : list (Header * string)) :
  0 <= payloadTotal entries.
Proof. induction entries as [|e entries IH]; simpl; lia. Qed.

Lemma payloadTotal_app (a b : list (Header * string)) :
  payloadTotal (a ++ b) = payloadTotal a + payloadTotal b.
Proof. induction a as [|e a IH]; simpl; [reflexivity | rewrite IH; lia]. Qed.

(** The entry of a source root, with the total kept by [addToTar]. *)
Lemma addToTar_source_total (fs : FS) (name : string) (info : node)
    (written : list (Header * string)) (total : Z) :
  portable name = true ->
  fs !! absPath (cs ++ [name]) = Some info ->
  (IsDir info = true -> emptyBelow fs (absPath (cs ++ [name]))) ->
  0 <= total ->
  total + payloadTotal [packedEntry name info] < 2 ^ 63 ->
  addToTar (absPath cs) fs name (written, total) =
  (Ok tt, ((written ++ [packedEntry name info])%list,
           total + payloadTotal [packedEntry name info])).
Proof.
  intros Hp Hlook Hdir Htotal Hbound.
  pose proof (portable_normal name Hp) as Hn.
  unfold addToTar, Walk. rewrite (Stat_rel cs Hcs), Hlook by assumption.
  destruct (size_pos fs _ _ Hlook) as [fuel ->].
  assert (Hfn : forall st,
    addToTar_walkFn (absPath cs) fs name name (Ok info) st =
    (WriteHeader (packedEntry name info).1 ;;;
     if negb (IsDir info) then
       match fs !! absPath (cs ++ [name]) with
       | Some (FileNode _ data) =>
           writePayload data ;;;
           addTotal (Size (FileInfoHeader (Base name) info))
       | Some (DirNode _) => fail EISDIR
       | None => fail ENOENT
       end
     else ret tt) st).
  { intros st. unfold addToTar_walkFn. rewrite String.eqb_refl. cbn [negb].
    unfold bind at 1. unfold ret at 1.
    cbn [Name setName ToSlash]. rewrite sanitizeTarPath_portable by assumption.
    rewrite setName_FileInfoHeader, (Stat_rel cs Hcs) by assumption. reflexivity. }
  destruct info as [perm | perm data].
  - cbn [walk]. unfold bind at 1. rewrite Hfn. cbn [IsDir negb].
    unfold bind, WriteHeader, ret. cbn [fst snd].
    rewrite (readDirNames_empty cs Hcs) by auto.
    cbn. now rewrite Z.add_0_r.
  - cbn [walk]. rewrite Hfn, Hlook. cbn [IsDir negb].
    unfold bind, WriteHeader, writePayload, addTotal. cbn [fst snd].
    rewrite rev_unit, rev_involutive.
    cbn [packedEntry payloadTotal foldr snd FileInfoHeader Size] in Hbound |- *.
    do 3 f_equal. rewrite Z.add_0_r in *.
    pose proof (Nat2Z.is_nonneg (String.length data)).
    rewrite Z.mod_small; lia.
Qed.

Lemma addFiles_sources_total (fs : FS) (names : list string) :
  Forall (fun name => portable name = true) names ->
  Forall (isSource fs cs) names ->
  forall written total,
    0 <= total ->
    total + payloadTotal (sourceEntries fs cs names) < 2 ^ 63 ->
    addFiles (absPath cs) fs names (written, total) =
    (Ok tt, ((written ++ sourceEntries fs cs names)%list,
             total + payloadTotal (sourceEntries fs cs names))).
Proof.
  intros Hport. induction Hport as [|name names Hp Hport IH];
    intros Hsrc written total Htotal Hbound.
  - simpl. unfold sourceEntries. simpl. now rewrite app_nil_r, Z.add_0_r.
  - inversion Hsrc as [|? ? Hs Hsrc']; subst. unfold isSource in Hs.
    destruct (fs !! absPath (cs ++ [name])) as [info|] eqn:Hlook; [|contradiction].
    rewrite (sourceEntries_cons cs fs name names info Hlook) in Hbound |- *.
    change (packedEntry name info :: sourceEntries fs cs names)
      with ([packedEntry name info] ++ sourceEntries fs cs names)%list in Hbound |- *.
    rewrite payloadTotal_app in Hbound |- *.
    pose proof (payloadTotal_nonneg [packedEntry name info]).
    pose proof (payloadTotal_nonneg (sourceEntries fs cs names)).
    cbn [addFiles]. unfold bind, wrapErr.
    rewrite (addToTar_source_total fs name info written total Hp Hlook); [| |lia|lia].
    + rewrite IH by (auto; lia). now rewrite <- app_assoc, Z.add_assoc.
    + intros Hd. destruct info; [exact Hs | discriminate].
Qed.

Lemma addFiles_app (fs : FS) (a b : list string)
    (st : list (Header * string) * Z) :
  addFiles (absPath cs) fs (a ++ b) st =
  match addFiles (absPath cs) fs a st with
  | (Ok _, st') => addFiles (absPath cs) fs b st'
  | (Err e, st') => (Err e, st')
  end.
Proof.
  revert st. induction a as [|x a IH]; intros st; [reflexivity|].
  cbn [app addFiles]. unfold bind.
  destruct (wrapErr _ (addToTar (absPath cs) fs x) st) as [[[]|e] st1];
    [apply IH | reflexivity].
Qed.

(** The first step of a packing call: the output file is created, or
    emptied, and the sources are as they were. *)
Lemma compressFiles_created (names : list string) (outputFile : string) (fs : FS) :
  packReady cs names outputFile fs ->
  exists perm,
    let karc := absPath (cs ++ [outputFile]) in
    let fsC := <[karc := FileNode perm EmptyString]> fs in
    Create (absPath cs) outputFile fs = (Ok karc, fsC) /\
    Forall (isSource fsC cs) names /\
    sourceEntries fsC cs names = sourceEntries fs cs names.
Proof.
  intros (_ & [pc Hpc] & Hport & Hnd & Hsrc & Hout & Hnotin & Hnotdir).
  set (karc := absPath (cs ++ [outputFile])) in *.
  assert (Hcreate : exists perm,
    Create (absPath cs) outputFile fs = (Ok karc, <[karc := FileNode perm EmptyString]> fs)).
  { unfold Create. pose proof Hout as (Hne & _)%normalElem_spec.
    apply String.eqb_neq in Hne. rewrite Hne, (resolve_rel cs Hcs) by assumption.
    fold karc. destruct (fs !! karc) as [[p | p d]|] eqn:Hk.
    - now destruct (Hnotdir p).
    - now exists p.
    - unfold karc. rewrite parentKey_snoc, Hpc by assumption. now exists 438. }
  destruct Hcreate as [perm Hcreate]. exists perm. cbv zeta. fold karc.
  set (fsC := <[karc := FileNode perm EmptyString]> fs) in *.
  assert (Hother : forall name, name ∈ names ->
            fsC !! absPath (cs ++ [name]) = fs !! absPath (cs ++ [name])).
  { intros name Hin. unfold fsC. apply lookup_insert_ne. unfold karc.
    rewrite Forall_forall in Hport.
    apply (sibling_neq cs Hcs); auto using portable_normal. congruence. }
  split; [exact Hcreate|]. split.
  - rewrite Forall_forall in Hsrc |- *. intros name Hin.
    specialize (Hsrc name Hin). unfold isSource in *. rewrite Hother by assumption.
    destruct (fs !! absPath (cs ++ [name])) as [[p|p d]|]; auto.
    intros k Hk. unfold fsC. rewrite lookup_insert_ne; [now apply Hsrc|].
    intros <-. unfold karc in Hk. rewrite Forall_forall in Hport.
    rewrite (sibling_not_under cs Hcs) in Hk; auto using portable_normal. discriminate.
  - unfold sourceEntries. clear - Hother. induction names as [|name names IH];
      [reflexivity|].
    simpl. rewrite Hother by apply list_elem_of_here.
    assert (IH' := IH (fun n Hn => Hother n (list_elem_of_further _ _ _ Hn))).
    unfold omap in IH'. now rewrite IH'.
Qed.

End PackTotals.

(** X11.  What the statistics of a compression report.  For sources
    in the working directory the original size is the number of bytes
    of the regular files among them.  The compressed size is the size
    of the output file when the last entry has been written, before
    the writers are closed: it is not the size of the archive that the
    closing writers leave in the file. *)
Theorem compression_stats_are_taken_before_closing
    (cs : list string)
    (zstdFlushed zstdTarWriter : Z -> list (Header * string) -> string)
    (names : list string) (outputFile : string) (level : Z) (fs : FS) :
  packReady cs names outputFile fs ->
  payloadTotal (sourceEntries fs cs names) < 2 ^ 63 ->
  let entries := sourceEntries fs cs names in
  exists fs' perm,
    compressFiles (absPath cs) zstdFlushed zstdTarWriter names outputFile level fs =
      (Ok {| OriginalSize := payloadTotal entries;
             CompressedSize := Z.of_nat (String.length (zstdFlushed level entries));
             OutputFile := outputFile |}, fs') /\
    fs' !! absPath (cs ++ [outputFile]) =
      Some (FileNode perm (zstdTarWriter level entries)).
Proof.
  intros Hready Hbound entries.
  pose proof Hready as (Hcs & _ & Hport & _ & _ & Hout & _).
  destruct (compressFiles_created cs Hcs names outputFile fs Hready)
    as (perm & Hcreate & HsrcC & Hentries).
  set (karc := absPath (cs ++ [outputFile])) in *.
  set (fsC := <[karc := FileNode perm EmptyString]> fs) in *.
  pose proof (addFiles_sources_total cs Hcs fsC names Hport HsrcC [] 0) as Hadd.
  rewrite Hentries in Hadd. fold entries in Hadd. simpl app in Hadd.
  rewrite Z.add_0_l in Hadd. specialize (Hadd (Z.le_refl 0) Hbound).
  unfold compressFiles, bind at 1, wrapErr. rewrite Hcreate.
  rewrite Hadd. unfold bind, writeAll, ret.
  assert (HkC : fsC !! karc = Some (FileNode perm EmptyString))
    by apply lookup_insert_eq.
  rewrite HkC, (Stat_rel cs Hcs) by assumption. fold karc.
  rewrite !lookup_insert_eq.
  eexists _, perm. split; [reflexivity|]. apply lookup_insert_eq.
Qed.

Lemma compression_stats_are_taken_before_closing_witness :
  exists fs' perm,
    compressFiles "/data" (fun _ _ => EmptyString) zstBytes ["f.txt"; "empty"]
      "arc.zst" 3 sourceFs =
      (Ok {| OriginalSize := 2; CompressedSize := 0; OutputFile := "arc.zst" |}, fs') /\
    fs' !! "/data/arc.zst" = Some (FileNode perm "zst").
Proof.
  apply (compression_stats_are_taken_before_closing ["data"] (fun _ _ => EmptyString)
           zstBytes ["f.txt"; "empty"] "arc.zst" 3 sourceFs).
  - exact sourcesReady.
  - vm_compute. reflexivity.
Defined.

(** X12.  A failed compression leaves an archive behind.  When a
    source does not exist the call fails with the error of the walk,
    and yet the output file has been created, or emptied if it was
    there, and holds the archive of the sources that came before the
    missing one.  Nothing else is changed. *)
Theorem missing_source_leaves_partial_archive
    (cs : list string)
    (zstdFlushed zstdTarWriter : Z -> list (Header * string) -> string)
    (names : list string) (missing : string) (rest : list string)
    (outputFile : string) (level : Z) (fs : FS) :
  packReady cs names outputFile fs ->
  Stat (absPath cs) missing fs = None ->
  resolve (absPath cs) missing <> absPath (cs ++ [outputFile]) ->
  exists fs' perm,
    compressFiles (absPath cs) zstdFlushed zstdTarWriter
      (names ++ missing :: rest) outputFile level fs =
      (Err (Errorf ("failed to add " +:+ missing +:+ " to archive") ENOENT), fs') /\
    fs' !! absPath (cs ++ [outputFile]) =
      Some (FileNode perm (zstdTarWriter level (sourceEntries fs cs names))) /\
    (forall k, k <> absPath (cs ++ [outputFile]) -> fs' !! k = fs !! k).
Proof.
  intros Hready Hstat Hneq.
  pose proof Hready as (Hcs & _ & Hport & _ & _ & Hout & _).
  destruct (compressFiles_created cs Hcs names outputFile fs Hready)
    as (perm & Hcreate & HsrcC & Hentries).
  set (karc := absPath (cs ++ [outputFile])) in *.
  set (fsC := <[karc := FileNode perm EmptyString]> fs) in *.
  destruct (addFiles_sources cs Hcs fsC names Hport HsrcC [] 0) as [total Hadd].
  rewrite Hentries in Hadd. simpl app in Hadd.
  assert (HstatC : Stat (absPath cs) missing fsC = None).
  { unfold Stat in *. destruct (String.eqb missing EmptyString); [reflexivity|].
    unfold fsC. now rewrite lookup_insert_ne by congruence. }
  assert (Hrun : addFiles (absPath cs) fsC (names ++ missing :: rest) ([], 0) =
                 (Err (Errorf ("failed to add " +:+ missing +:+ " to archive") ENOENT),
                  (sourceEntries fs cs names, total))).
  { rewrite (addFiles_app cs), Hadd. cbn [addFiles]. unfold bind, wrapErr.
    unfold addToTar, Walk. rewrite HstatC. reflexivity. }
  unfold compressFiles, bind at 1, wrapErr. rewrite Hcreate.
  rewrite Hrun. unfold bind, writeAll, fail.
  assert (HkC : fsC !! karc = Some (FileNode perm EmptyString))
    by apply lookup_insert_eq.
  rewrite HkC.
  eexists _, perm. split; [reflexivity|]. split.
  - apply lookup_insert_eq.
  - intros k Hk. unfold fsC. now rewrite !lookup_insert_ne by congruence.
Qed.

Lemma missing_source_leaves_partial_archive_witness :
  exists fs' perm,
    compressFiles "/data" zstBytes (fun _ es => if es is [] then "none" else "some")
      ["f.txt"; "gone.txt"; "empty"] "f.zst" 3 sourceFs =
      (Err (Errorf "failed to add gone.txt to archive" ENOENT), fs') /\
    fs' !! "/data/f.zst" = Some (FileNode perm "some").
Proof.
  destruct (missing_source_leaves_partial_archive ["data"] zstBytes
              (fun _ es => if es is [] then "none" else "some")
              ["f.txt"] "gone.txt" ["empty"] "f.zst" 3 sourceFs)
    as (fs' & perm & Hrun & Hfile & _).
  - unfold packReady. split; [repeat constructor|]. split; [exists 493; reflexivity|].
    split; [repeat constructor|].
    split; [apply (bool_decide_unpack _); vm_compute; exact I|].
    split; [repeat constructor|]. split; [reflexivity|].
    split; [apply (bool_decide_unpack _); vm_compute; exact I|].
    intros p H. vm_compute in H. discriminate.
  - reflexivity.
  - vm_compute. discriminate.
  - exists fs', perm. split; [exact Hrun | exact Hfile].
Defined.

(** ** The name of the archive *)

Section ArchiveName.

Import filepath.

Lemma rev_app_append (a b acc : string) :
  String.rev_app (a +:+ b) acc = String.rev_app b (String.rev_app a acc).
Proof.
  revert acc. induction a as [|c a IH]; intros acc; [reflexivity|].
  cbn [String.append String.rev_app]. apply IH.
Qed.

Lemma rev_app_acc (s acc : string) :
  String.rev_app s acc = String.rev_app s EmptyString +:+ acc.
Proof.
  revert acc. induction s as [|c s IH]; intros acc; [reflexivity|].
  cbn [String.rev_app]. rewrite IH, (IH (String c EmptyString)).
  now rewrite append_assoc.
Qed.

Lemma HasSuffix_app (a b : string) : HasSuffix (a +:+ b) b = true.
Proof.
  unfold HasSuffix, String.rev. rewrite rev_app_append, rev_app_acc.
  apply HasPrefix_app.
Qed.

Lemma TrimSuffix_app (a b : string) : TrimSuffix (a +:+ b) b = a.
Proof.
  unfold TrimSuffix. rewrite HasSuffix_app, length_append.
  replace (String.length a + String.length b - String.length b)%nat
    with (String.length a) by lia.
  apply sliceTo_app.
Qed.

Lemma Base_noSlash (name : string) :
  name <> EmptyString -> noSlash name -> Base name = name.
Proof.
  intros Hne Hn. unfold Base, lastElement.
  rewrite (proj2 (String.eqb_neq _ _) Hne).
  pose proof (TrimRight_keep EmptyString name Hne Hn) as Ht.
  change (EmptyString +:+ name) with name in Ht. rewrite Ht.
  rewrite (elements_noSlash name Hn).
  change (List.last [name] EmptyString) with name.
  now rewrite (proj2 (String.eqb_neq _ _) Hne).
Qed.

Lemma extOf_zst (stem : string) : extOf (stem +:+ ".zst") = ".zst".
Proof.
  induction stem as [|c stem IH]; [reflexivity|].
  cbn [String.append extOf].
  now rewrite ContainsByte_app, orb_true_r.
Qed.

(** [compressFiles] reports the output name it was given. *)
Lemma compressFiles_OutputFile (cwd : string)
    (zstdFlushed zstdTarWriter : Z -> list (Header * string) -> string)
    (files : list string) (outputFile : string) (level : Z) (fs : FS)
    (stats : CompressionStats) (fs' : FS) :
  compressFiles cwd zstdFlushed zstdTarWriter files outputFile level fs =
    (Ok stats, fs') ->
  OutputFile stats = outputFile.
Proof.
  unfold compressFiles, bind, wrapErr, writeAll, fail, ret.
  destruct (Create cwd outputFile fs) as [[h|e] fs1]; [|discriminate].
  destruct (addFiles cwd fs1 files ([], 0)) as [[[]|e] [entries total]].
  - destruct (fs1 !! h) as [[?|? ?]|]; try discriminate.
    destruct (Stat cwd outputFile _) as [stat|].
    + rewrite lookup_insert_eq. now intros [= <- _].
    + rewrite lookup_insert_eq. discriminate.
  - destruct (fs1 !! h) as [[?|? ?]|]; discriminate.
Qed.

End ArchiveName.

(** X13.  The archive of a compression request always has a name that
    ends in [.zst]: whatever the request, a compression that succeeds
    reports such an output file. *)
Theorem archive_name_always_ends_in_zst
    (cwd : string) (zstdFlushed zstdTarWriter : Z -> list (Header * string) -> string)
    (method : string) (body : option CompressRequest) (fs : FS) :
  match (handleCompress cwd zstdFlushed zstdTarWriter method body fs).1 with
  | Response true _ _ (Some (StatsData stats)) =>
      HasSuffix (OutputFile stats) ".zst" = true
  | _ => True
  end.
Proof.
  unfold handleCompress.
  destruct (negb (String.eqb method "POST")); [exact I|].
  destruct body as [req|]; [|exact I].
  destruct (List.length (Files req) =? 0)%nat; [exact I|].
  cbv zeta.
  set (o := if String.eqb (Output req) EmptyString then _ else _).
  destruct (compressFiles cwd zstdFlushed zstdTarWriter (Files req) _ _ fs)
    as [[stats|e] fs'] eqn:Hrun; [|exact I].
  apply compressFiles_OutputFile in Hrun. cbn [fst]. unfold sendResponse, encodes.
  destruct (OriginalSize stats =? 0); cbn [negb]; [exact I|]. rewrite Hrun.
  destruct (HasSuffix o ".zst") eqn:Hs; cbn [negb]; [exact Hs | apply HasSuffix_app].
Qed.

(** X14.  Compressing a [.zst] file without naming the output
    destroys it.  For a single source in the working directory whose
    name ends in [.zst], a file its owner may read and write, the
    derived output name is the name of the
    source: the file is emptied before it is read, so the original
    size is 0 and the compression ratio is not a number; the reply
    cannot be encoded and nothing is sent, and the file is left
    holding an archive of its own empty self. *)
Theorem compressing_a_zst_file_in_place_destroys_it
    (cs : list string)
    (zstdFlushed zstdTarWriter : Z -> list (Header * string) -> string)
    (stem : string) (level : Z) (fs : FS) (perm : Z) (data : string) :
  normalAll cs ->
  portable (stem +:+ ".zst") = true ->
  fs !! absPath (cs ++ [stem +:+ ".zst"]) = Some (FileNode perm data) ->
  grants perm 384 = true ->
  let name := stem +:+ ".zst" in
  let emptied := packedEntry name (FileNode perm EmptyString) in
  let used := if (level <? 1) || (19 <? level) then 3 else level in
  exists fs',
    handleCompress (absPath cs) zstdFlushed zstdTarWriter "POST"
      (Some {| Files := [name]; Output := EmptyString; Level := level |}) fs =
      (NoBody, fs') /\
    fs' !! absPath (cs ++ [name]) =
      Some (FileNode perm (zstdTarWriter used [emptied])).
Proof.
  intros Hcs Hp Hfile _ name emptied used.
  change (stem +:+ ".zst") with name in Hp, Hfile.
  pose proof (portable_normal _ Hp) as Hn.
  pose proof Hn as (Hne & Hns & _)%normalElem_spec.
  set (key := absPath (cs ++ [name])) in *.
  set (fsC := <[key := FileNode perm EmptyString]> fs).
  assert (Hext : filepath.Ext name = ".zst").
  { unfold filepath.Ext, filepath.lastElement.
    rewrite (elements_noSlash name Hns).
    change (List.last [name] EmptyString) with name. apply extOf_zst. }
  assert (Htrim : TrimSuffix name ".zst" = stem) by apply TrimSuffix_app.
  assert (Hsuf : HasSuffix name ".zst" = true) by apply HasSuffix_app.
  assert (Hcontains : Contains name "." = true).
  { apply Contains_spec. exists stem, "zst". reflexivity. }
  assert (Hcreate : Create (absPath cs) name fs = (Ok key, fsC)).
  { unfold Create. rewrite (proj2 (String.eqb_neq _ _) Hne).
    rewrite (resolve_rel cs Hcs) by assumption. fold key. now rewrite Hfile. }
  assert (Hadd : addFiles (absPath cs) fsC [name] ([], 0) = (Ok tt, ([emptied], 0))).
  { cbn [addFiles]. unfold bind, wrapErr.
    rewrite (addToTar_source_total cs Hcs fsC name (FileNode perm EmptyString) [] 0 Hp).
    - reflexivity.
    - apply lookup_insert_eq.
    - discriminate.
    - lia.
    - cbn. lia. }
  exists (<[key := FileNode perm (zstdTarWriter used [emptied])]> fsC).
  split; [|apply lookup_insert_eq].
  unfold handleCompress. cbn [negb String.eqb Files Output Level List.length Nat.eqb].
  change (String.eqb "POST" "POST") with true.
  change (String.eqb EmptyString EmptyString) with true. cbn [negb]. cbv zeta.
  rewrite (Base_noSlash name Hne Hns), Hcontains, Hext, Htrim.
  change (stem +:+ ".zst") with name. rewrite Hsuf. cbn [negb]. fold used.
  unfold compressFiles, bind at 1, wrapErr. rewrite Hcreate, Hadd.
  unfold bind, writeAll, ret.
  assert (HkC : fsC !! key = Some (FileNode perm EmptyString))
    by apply lookup_insert_eq.
  rewrite HkC, (Stat_rel cs Hcs) by assumption. fold key.
  rewrite !lookup_insert_eq. unfold fsC. rewrite !insert_insert_eq. reflexivity.
Qed.

Lemma compressing_a_zst_file_in_place_destroys_it_witness :
  exampleFs !! "/work/a.zst" = Some (FileNode 420 "zst") /\
  exists fs',
    handleCompress "/work" zstBytes
      (fun _ es => GoStrings.Join (map (fun e => Name e.1 +:+ "=" +:+ e.2) es) ",") "POST"
      (Some {| Files := ["a.zst"]; Output := EmptyString; Level := 0 |}) exampleFs =
      (NoBody, fs') /\
    fs' !! "/work/a.zst" = Some (FileNode 420 "a.zst=").
Proof.
  split; [reflexivity|].
  refine (compressing_a_zst_file_in_place_destroys_it ["work"] zstBytes
            (fun _ es => GoStrings.Join (map (fun e => Name e.1 +:+ "=" +:+ e.2) es) ",")
            "a" 0 exampleFs 420 "zst" _ _ _ _).
  - repeat constructor.
  - reflexivity.
  - reflexivity.
  - reflexivity.
Defined.

(** ** Listing a directory *)

Section Ordering.

Lemma ascii_compare_refl (a : ascii) : Ascii.compare a a = Eq.
Proof. unfold Ascii.compare. apply N.compare_refl. Qed.

Lemma ascii_compare_trans (a b c : ascii) (o : comparison) :
  Ascii.compare a b = o -> Ascii.compare b c = o -> Ascii.compare a c = o.
Proof.
  unfold Ascii.compare. destruct o; intros H1 H2.
  - apply N.compare_eq in H1, H2. rewrite H1, H2. apply N.compare_refl.
  - apply N.compare_lt_iff in H1. apply N.compare_lt_iff in H2.
    apply N.compare_lt_iff. now apply (N.lt_trans _ _ _ H1 H2).
  - apply N.compare_gt_iff in H1. apply N.compare_gt_iff in H2.
    apply N.compare_gt_iff. now apply (N.lt_trans _ _ _ H2 H1).
Qed.

Lemma leb_trans (s1 s2 s3 : string) :
  String.leb s1 s2 = true -> String.leb s2 s3 = true -> String.leb s1 s3 = true.
Proof.
  unfold String.leb. revert s2 s3.
  induction s1 as [|c1 s1 IH]; intros [|c2 s2] [|c3 s3]; cbn [String.compare];
    try reflexivity; try discriminate.
  destruct (Ascii.compare c1 c2) eqn:H12; try discriminate.
  - apply Ascii.compare_eq_iff in H12. subst c2.
    destruct (Ascii.compare c1 c3); try reflexivity; try discriminate. apply IH.
  - destruct (Ascii.compare c2 c3) eqn:H23; try discriminate.
    + apply Ascii.compare_eq_iff in H23. subst c3. now rewrite H12.
    + now rewrite (ascii_compare_trans c1 c2 c3 Lt H12 H23).
Qed.

Lemma leb_refl (s : string) : String.leb s s = true.
Proof. destruct (String.leb_total s s); assumption. Qed.

Lemma elem_of_insertSorted (x name : string) (names : list string) :
  x ∈ insertSorted name names <-> x = name \/ x ∈ names.
Proof.
  induction names as [|n names IH]; cbn [insertSorted].
  - rewrite list_elem_of_singleton, elem_of_nil. tauto.
  - destruct (String.leb name n); [rewrite !elem_of_cons; tauto|].
    rewrite !elem_of_cons, IH. tauto.
Qed.

Lemma elem_of_sorted (x : string) (names : list string) :
  x ∈ foldr insertSorted [] names <-> x ∈ names.
Proof.
  induction names as [|n names IH]; [reflexivity|].
  cbn [foldr]. rewrite elem_of_insertSorted, IH, elem_of_cons. tauto.
Qed.

Lemma insertSorted_sorted (name : string) (names : list string) :
  StronglySorted (fun a b => String.leb a b = true) names ->
  StronglySorted (fun a b => String.leb a b = true) (insertSorted name names).
Proof.
  induction 1 as [|n names Hs IH Hall]; cbn [insertSorted].
  - repeat constructor.
  - destruct (String.leb name n) eqn:Hle.
    + constructor; [now constructor|]. constructor; [assumption|].
      eapply Forall_impl; [exact Hall|]. intros y Hy. now apply (leb_trans name n y).
    + constructor; [assumption|].
      apply Forall_forall. intros y [-> | Hy]%elem_of_insertSorted.
      * destruct (String.leb_total name n) as [H | H]; [congruence | assumption].
      * rewrite Forall_forall in Hall. now apply Hall.
Qed.

Lemma foldr_insertSorted_sorted (names : list string) :
  StronglySorted (fun a b => String.leb a b = true) (foldr insertSorted [] names).
Proof.
  induction names as [|n names IH]; [constructor|].
  cbn [foldr]. now apply insertSorted_sorted.
Qed.

Lemma insertSorted_NoDup (name : string) (names : list string) :
  name ∉ names -> NoDup names -> NoDup (insertSorted name names).
Proof.
  induction names as [|n names IH]; cbn [insertSorted]; intros Hnot Hnd.
  - apply NoDup_singleton.
  - destruct (String.leb name n); [now constructor|].
    apply NoDup_cons in Hnd as [Hn Hnd]. apply not_elem_of_cons in Hnot as [Hne Hnot].
    constructor; [|now apply IH].
    rewrite elem_of_insertSorted. intros [-> | H]; [congruence | contradiction].
Qed.

Lemma foldr_insertSorted_NoDup (names : list string) :
  NoDup names -> NoDup (foldr insertSorted [] names).
Proof.
  induction 1 as [|n names Hn Hnd IH]; [constructor|].
  cbn [foldr]. apply insertSorted_NoDup; [|assumption].
  now rewrite elem_of_sorted.
Qed.

End Ordering.

Section ChildKeys.

Import filepath.

Lemma childName_spec (dir k name : string) :
  childName dir k = Some name <->
  k = childKey dir name /\ name <> EmptyString /\ noSlash name.
Proof.
  unfold childName, childKey, noSlash.
  set (prefix := if String.eqb dir "/" then dir else dir +:+ "/").
  split.
  - destruct (HasPrefix k prefix) eqn:Hp; [|discriminate].
    apply HasPrefix_spec in Hp as [t ->]. rewrite sliceFrom_app.
    destruct (String.eqb t EmptyString) eqn:Ht; [discriminate|].
    destruct (ContainsByte t "/") eqn:Hs; [discriminate|].
    cbn [orb]. intros [= <-]. apply String.eqb_neq in Ht. auto.
  - intros (-> & Hne & Hs). rewrite HasPrefix_app, sliceFrom_app.
    apply String.eqb_neq in Hne. now rewrite Hne, Hs.
Qed.

Lemma childKey_inj (dir a b : string) : childKey dir a = childKey dir b -> a = b.
Proof.
  unfold childKey. set (prefix := if String.eqb dir "/" then dir else dir +:+ "/").
  clearbody prefix. induction prefix as [|c p IH]; [auto|].
  cbn [String.append]. intros [= H]. auto.
Qed.

Lemma absPath_not_slash (ds : list string) :
  normalAll ds -> ds <> [] -> String.eqb (absPath ds) "/" = false.
Proof.
  intros Hds Hne. apply String.eqb_neq. intros Heq.
  change "/" with (absPath []) in Heq.
  apply absPath_inj in Heq; [congruence | assumption | constructor].
Qed.

Lemma childKey_absPath (ds : list string) (name : string) :
  normalAll ds -> childKey (absPath ds) name = absPath (ds ++ [name]).
Proof.
  intros Hds. unfold childKey. rewrite absPath_snoc.
  destruct (decide (ds = [])) as [-> | Hne]; [reflexivity|].
  rewrite (absPath_not_slash ds Hds Hne). now rewrite append_assoc.
Qed.

(** A clean key below a clean directory ends in a normal element. *)
Lemma cleanKeys_child (fs : FS) (ds : list string) (name : string) (info : node) :
  cleanKeys fs -> normalAll ds -> name <> EmptyString -> noSlash name ->
  fs !! absPath (ds ++ [name]) = Some info -> normalElem name = true.
Proof.
  intros Hclean Hds Hname Hs Hk. destruct (Hclean _ _ Hk) as (els & Hels & Heq).
  apply (f_equal elements) in Heq.
  assert (Hall : Forall noSlash (ds ++ [name])).
  { rewrite Forall_app. split; [now apply normalElem_noSlash | now constructor]. }
  rewrite (elements_absPath (ds ++ [name])) in Heq by (auto; now destruct ds).
  destruct (decide (els = [])) as [-> | Hne].
  - change (elements (absPath [])) with [EmptyString; EmptyString] in Heq.
    injection Heq as Heq. destruct ds as [|d ds]; cbn [app] in Heq.
    + injection Heq as Heq. congruence.
    + injection Heq as _ Heq. now destruct ds.
  - rewrite elements_absPath in Heq by auto using normalElem_noSlash.
    injection Heq as Heq.
    assert (Hin : name ∈ els) by (rewrite <- Heq; set_solver).
    rewrite Forall_forall in Hels. now apply Hels.
Qed.

End ChildKeys.

Section Listing.

Import filepath.

Variables (cwd : string) (dirSize : string -> Z).

Lemma elem_of_readDirNames (fs : FS) (path name : string) :
  name ∈ readDirNames cwd fs path <->
  name <> EmptyString /\ noSlash name /\
  exists info, fs !! childKey (resolve cwd path) name = Some info.
Proof.
  unfold readDirNames. rewrite elem_of_sorted, list_elem_of_omap. split.
  - intros ([k v] & Hin & Hc). apply elem_of_map_to_list in Hin.
    apply childName_spec in Hc as (Hk & Hne & Hs). cbn [fst] in Hk. subst k. eauto.
  - intros (Hne & Hs & info & Hk). exists (childKey (resolve cwd path) name, info).
    split; [now apply elem_of_map_to_list|]. now apply childName_spec.
Qed.

Lemma readDirNames_sorted (fs : FS) (path : string) :
  StronglySorted (fun a b => String.leb a b = true) (readDirNames cwd fs path).
Proof. apply foldr_insertSorted_sorted. Qed.

Lemma readDirNames_NoDup (fs : FS) (path : string) :
  NoDup (readDirNames cwd fs path).
Proof.
  unfold readDirNames. apply foldr_insertSorted_NoDup.
  pose proof (NoDup_fst_map_to_list fs) as Hnd.
  induction (map_to_list fs) as [|[k v] l IH]; [constructor|].
  cbn [fmap list_fmap fst] in Hnd. apply NoDup_cons in Hnd as [Hk Hnd].
  cbn [omap list_omap fst].
  destruct (childName (resolve cwd path) k) as [name|] eqn:Hc; [|now apply IH].
  constructor; [|now apply IH].
  intros ([k' v'] & Hin & Hc')%list_elem_of_omap. cbn [fst] in Hc'.
  apply childName_spec in Hc as [-> _]. apply childName_spec in Hc' as [-> _].
  apply Hk. apply list_elem_of_fmap. now exists (childKey (resolve cwd path) name, v').
Qed.

(** The names of the entries of a listing are those [os.ReadDir]
    returned. *)
Lemma listed_names (fs : FS) (dir : string) (names : list string) :
  (forall name, name ∈ names -> exists info, fs !! childKey dir name = Some info) ->
  forall (path : string -> string),
  map entryName
    (omap (fun name =>
             match fs !! childKey dir name with
             | None => None
             | Some info =>
                 Some {| entryName := name; entryPath := path name;
                         entryIsDir := IsDir info;
                         entrySize :=
                           match info with
                           | FileNode _ data => Z.of_nat (String.length data)
                           | DirNode _ => dirSize (childKey dir name)
                           end |}
             end) names) = names.
Proof.
  intros Hall path. induction names as [|name names IH]; [reflexivity|].
  cbn [omap list_omap].
  destruct (Hall name (list_elem_of_here _ _)) as [info ->].
  cbn [map entryName]. f_equal. apply IH.
  intros n Hn. apply Hall. now apply list_elem_of_further.
Qed.

End Listing.

Section ListingOfDirectory.

Import filepath.

Variables (cwd : string) (dirSize : string -> Z).
Variables (ds : list string) (fs : FS) (perm : Z).
Hypothesis Hds : normalAll ds.
Hypothesis Hdir : fs !! absPath ds = Some (DirNode perm).

Lemma ReadDir_absPath :
  ReadDir cwd (absPath ds) fs = Ok (readDirNames cwd fs (absPath ds)).
Proof. unfold ReadDir. now rewrite Stat_absPath, Hdir. Qed.

(** The listing of a directory given by its clean absolute path. *)
Lemma listDirectory_absPath :
  listDirectory cwd dirSize (absPath ds) fs =
  Ok ((if decide (ds = []) then [] else [parentEntry (absPath (removelast ds))]) ++
      omap (fun name =>
              match fs !! childKey (absPath ds) name with
              | None => None
              | Some info =>
                  Some {| entryName := name;
                          entryPath := Join [absPath ds; name];
                          entryIsDir := IsDir info;
                          entrySize :=
                            match info with
                            | FileNode _ data => Z.of_nat (String.length data)
                            | DirNode _ => dirSize (childKey (absPath ds) name)
                            end |}
              end) (readDirNames cwd fs (absPath ds)))%list.
Proof.
  unfold listDirectory. rewrite ReadDir_absPath, resolve_absPath by assumption.
  assert (Hdot : String.eqb (absPath ds) "." = false) by reflexivity.
  rewrite Hdot. cbn [negb andb]. rewrite andb_true_r.
  destruct (decide (ds = [])) as [-> | Hne]; [reflexivity|].
  rewrite (absPath_not_slash ds Hds Hne). cbn [negb].
  destruct (exists_last Hne) as (ds' & d & ->).
  apply normalAll_app in Hds as [Hds' Hd]. inversion Hd as [|? ? Hd' _]; subst.
  rewrite removelast_last, Dir_absPath_snoc by assumption. reflexivity.
Qed.

(** What an entry of the listing says about its node. *)
Lemma listed_entry (e : FileEntry) :
  cleanKeys fs ->
  e ∈ omap (fun name =>
              match fs !! childKey (absPath ds) name with
              | None => None
              | Some info =>
                  Some {| entryName := name;
                          entryPath := Join [absPath ds; name];
                          entryIsDir := IsDir info;
                          entrySize :=
                            match info with
                            | FileNode _ data => Z.of_nat (String.length data)
                            | DirNode _ => dirSize (childKey (absPath ds) name)
                            end |}
              end) (readDirNames cwd fs (absPath ds)) ->
  normalElem (entryName e) = true /\
  entryPath e = absPath (ds ++ [entryName e]) /\
  exists info,
    fs !! absPath (ds ++ [entryName e]) = Some info /\
    entryIsDir e = IsDir info /\
    forall p data, info = FileNode p data ->
                   entrySize e = Z.of_nat (String.length data).
Proof.
  intros Hclean (name & Hin & He)%list_elem_of_omap.
  apply elem_of_readDirNames in Hin as (Hne & Hs & info & Hk).
  rewrite resolve_absPath in Hk by assumption. rewrite Hk in He.
  rewrite childKey_absPath in Hk by assumption.
  pose proof (cleanKeys_child fs ds name info Hclean Hds Hne Hs Hk) as Hn.
  assert (Hpath : Join [absPath ds; name] = absPath (ds ++ [name])).
  { rewrite Join_abs by (auto using normalElem_elements).
    now rewrite keptElems_single. }
  rewrite Hpath in He. injection He as <-.
  change (normalElem name = true /\
          absPath (ds ++ [name]) = absPath (ds ++ [name]) /\
          exists info0, fs !! absPath (ds ++ [name]) = Some info0 /\
            IsDir info = IsDir info0 /\
            forall p data, info0 = FileNode p data ->
              match info with
              | FileNode _ data0 => Z.of_nat (String.length data0)
              | DirNode _ => dirSize (childKey (absPath ds) name)
              end = Z.of_nat (String.length data)).
  split; [exact Hn|]. split; [reflexivity|].
  exists info. split; [exact Hk|]. split; [reflexivity|].
  intros p data ->. reflexivity.
Qed.

End ListingOfDirectory.

(** The keys of a filesystem can be checked node by node. *)
Lemma cleanKeys_check (fs : FS) :
  forallb (fun kv => String.eqb kv.1 (absPath (keptElems kv.1)) &&
                     forallb normalElem (keptElems kv.1)) (map_to_list fs) = true ->
  cleanKeys fs.
Proof.
  intros Hall k v Hk. rewrite forallb_forall in Hall.
  apply elem_of_map_to_list, list_elem_of_In in Hk.
  apply Hall in Hk. cbn [fst] in Hk. apply andb_true_iff in Hk as [Heq Hn].
  exists (keptElems k). split.
  - apply Forall_forall. intros e He. rewrite forallb_forall in Hn.
    apply Hn. now apply list_elem_of_In.
  - now apply String.eqb_eq.
Qed.

(** X15.  What a listing holds.  For a directory given by its clean
    absolute path the listing begins with the entry [..] of the parent
    directory, unless the directory is the root, and goes on with one
    entry for each node directly in the directory and no other: the
    entry gives the name, the path of the node, whether it is a
    directory and, for a file, the number of its bytes. *)
Theorem listing_holds_the_parent_and_the_children
    (cwd : string) (dirSize : string -> Z) (ds : list string) (fs : FS) (perm : Z) :
  cleanKeys fs ->
  normalAll ds ->
  fs !! absPath ds = Some (DirNode perm) ->
  exists files,
    listDirectory cwd dirSize (absPath ds) fs =
      Ok ((if decide (ds = []) then []
           else [parentEntry (absPath (removelast ds))]) ++ files)%list /\
    (forall e, e ∈ files ->
       entryPath e = absPath (ds ++ [entryName e]) /\
       exists info,
         fs !! entryPath e = Some info /\
         entryIsDir e = IsDir info /\
         forall p data, info = FileNode p data ->
                        entrySize e = Z.of_nat (String.length data)) /\
    (forall name info,
       normalElem name = true -> fs !! absPath (ds ++ [name]) = Some info ->
       exists e, e ∈ files /\ entryName e = name).
Proof.
  intros Hclean Hds Hdir.
  eexists. split; [apply (listDirectory_absPath cwd dirSize ds fs perm Hds Hdir)|].
  split.
  - intros e He.
    destruct (listed_entry cwd dirSize ds fs Hds e Hclean He)
      as (_ & Hpath & info & Hk & Hd & Hsize).
    split; [exact Hpath|]. exists info. rewrite Hpath. auto.
  - intros name info Hn Hk. pose proof Hn as (Hne & Hs & _)%normalElem_spec.
    rewrite <- childKey_absPath in Hk by assumption.
    eexists. split.
    + apply list_elem_of_omap. exists name. split.
      * apply elem_of_readDirNames. rewrite resolve_absPath by assumption. eauto.
      * rewrite Hk. reflexivity.
    + reflexivity.
Qed.

Lemma listing_holds_the_parent_and_the_children_witness :
  exists files,
    listDirectory "/work" (fun _ => 4096) "/work" exampleFs =
      Ok (parentEntry "/" :: files) /\
    exists e, e ∈ files /\ entryName e = "a.zst".
Proof.
  destruct (listing_holds_the_parent_and_the_children "/work" (fun _ => 4096)
              ["work"] exampleFs 493) as (files & Hrun & _ & Hall).
  - apply cleanKeys_check. vm_compute. reflexivity.
  - repeat constructor.
  - reflexivity.
  - exists files. split; [exact Hrun|].
    apply (Hall "a.zst" (FileNode 420 "zst")); reflexivity.
Defined.

(** X16.  A listing is in order.  After the entry of the parent, the
    entries of a listing come in the byte order of their names, and
    no name comes twice. *)
Theorem listing_is_sorted_and_without_duplicates
    (cwd : string) (dirSize : string -> Z) (ds : list string) (fs : FS) (perm : Z) :
  normalAll ds ->
  fs !! absPath ds = Some (DirNode perm) ->
  exists files,
    listDirectory cwd dirSize (absPath ds) fs =
      Ok ((if decide (ds = []) then []
           else [parentEntry (absPath (removelast ds))]) ++ files)%list /\
    StronglySorted (fun a b => String.leb a b = true) (map entryName files) /\
    NoDup (map entryName files).
Proof.
  intros Hds Hdir.
  eexists. split; [apply (listDirectory_absPath cwd dirSize ds fs perm Hds Hdir)|].
  rewrite (listed_names dirSize fs (absPath ds)).
  - split; [apply readDirNames_sorted | apply readDirNames_NoDup].
  - intros name (_ & _ & Hk)%elem_of_readDirNames.
    now rewrite resolve_absPath in Hk.
Qed.

Lemma listing_is_sorted_and_without_duplicates_witness :
  exists files,
    listDirectory "/" (fun _ => 4096) "/" exampleFs = Ok files /\
    NoDup (map entryName files).
Proof.
  destruct (listing_is_sorted_and_without_duplicates "/" (fun _ => 4096)
              [] exampleFs 493) as (files & Hrun & _ & Hnd).
  - constructor.
  - reflexivity.
  - exists files. split; [exact Hrun | exact Hnd].
Defined.

(** ** The names of the entries of a packed directory *)

Section RelativePaths.

Import filepath.

Lemma Join_not_nil (els : list string) :
  els <> [] -> Forall (fun e => e <> EmptyString) els ->
  GoStrings.Join els "/" <> EmptyString.
Proof.
  intros Hne Hall. destruct els as [|e els]; [congruence|].
  inversion Hall as [|? ? He _]; subst.
  destruct els; [exact He|]. rewrite Join_cons by discriminate.
  destruct e; [congruence | discriminate].
Qed.

Lemma normalAll_nonempty (els : list string) :
  normalAll els -> Forall (fun e => e <> EmptyString) els.
Proof.
  intros H. eapply Forall_impl; [exact H|]. intros e He.
  now apply normalElem_spec in He.
Qed.

Lemma IsAbs_Join (els : list string) :
  normalAll els -> IsAbs (GoStrings.Join els "/") = false.
Proof.
  intros Hall. destruct els as [|e els]; [reflexivity|].
  inversion Hall as [|? ? He _]; subst.
  pose proof (IsAbs_normal e He) as Ha.
  apply normalElem_spec in He as (Hne & _).
  destruct els; [exact Ha|]. rewrite Join_cons by discriminate.
  destruct e; [congruence | exact Ha].
Qed.

(** [Clean] leaves a relative path of normal elements as it is. *)
Lemma Clean_rel (els : list string) :
  normalAll els -> els <> [] ->
  Clean (GoStrings.Join els "/") = GoStrings.Join els "/".
Proof.
  intros Hall Hne. unfold Clean.
  pose proof (Join_not_nil els Hne (normalAll_nonempty els Hall)) as Hnn.
  rewrite (proj2 (String.eqb_neq _ _) Hnn), IsAbs_Join by assumption.
  rewrite elements_Join by auto using normalElem_noSlash.
  rewrite cleanStep_fold by now apply normal_no_dotdot.
  rewrite filter_keep_normal, app_nil_r, rev_involutive by assumption.
  change (EmptyString +:+ GoStrings.Join els "/") with (GoStrings.Join els "/").
  now rewrite (proj2 (String.eqb_neq _ _) Hnn).
Qed.

Lemma relStrip_same (a bs ts : list string) :
  relStrip (a ++ bs) (a ++ ts) = relStrip bs ts.
Proof.
  induction a as [|x a IH]; [reflexivity|].
  cbn [app relStrip]. now rewrite String.eqb_refl.
Qed.

Lemma relElements_absPath (els : list string) :
  normalAll els -> relElements (absPath els) = EmptyString :: els.
Proof.
  intros Hall. unfold relElements.
  destruct (decide (els = [])) as [-> | Hne]; [reflexivity|].
  rewrite (absPath_not_slash els Hall Hne).
  change (String.eqb (absPath els) EmptyString) with false.
  now rewrite elements_absPath by auto using normalElem_noSlash.
Qed.

(** The path of a node relative to a directory above it. *)
Lemma Rel_absPath (cs ms : list string) :
  normalAll cs -> normalAll ms -> ms <> [] ->
  Rel (absPath cs) (absPath (cs ++ ms)) = Some (GoStrings.Join ms "/").
Proof.
  intros Hcs Hms Hne. unfold Rel.
  assert (Hall : normalAll (cs ++ ms)) by (apply normalAll_app; auto).
  rewrite !Clean_absPath by assumption.
  assert (Hneq : String.eqb (absPath (cs ++ ms)) (absPath cs) = false).
  { apply String.eqb_neq. intros Heq. apply absPath_inj in Heq; auto.
    rewrite <- (app_nil_r cs) in Heq at 2. apply app_inv_head in Heq. congruence. }
  rewrite Hneq.
  change (String.eqb (absPath cs) ".") with false. cbn iota.
  change (IsAbs (absPath cs)) with true. change (IsAbs (absPath (cs ++ ms))) with true.
  cbn [Bool.eqb negb].
  rewrite !relElements_absPath by assumption.
  change (EmptyString :: cs ++ ms)%list with ((EmptyString :: cs) ++ ms)%list.
  rewrite <- (app_nil_r (EmptyString :: cs)) at 1.
  rewrite relStrip_same. destruct ms; [congruence | reflexivity].
Qed.

Lemma noneOf_append (class a b : string) :
  noneOf class (a +:+ b) = noneOf class a && noneOf class b.
Proof.
  induction a as [|c a IH]; [reflexivity|].
  cbn [String.append noneOf]. now rewrite IH, andb_assoc.
Qed.

Lemma noneOf_Join (class : string) (els : list string) :
  ContainsByte class "/" = false ->
  Forall (fun e => noneOf class e = true) els ->
  noneOf class (GoStrings.Join els "/") = true.
Proof.
  intros Hs Hall. induction Hall as [|e els He Hall IH]; [reflexivity|].
  destruct els as [|e' els]; [exact He|].
  rewrite Join_cons by discriminate.
  rewrite !noneOf_append, He, IH. cbn [noneOf]. now rewrite Hs.
Qed.

(** A relative path of portable elements is stored as it is. *)
Lemma sanitizeTarPath_Join (els : list string) :
  Forall (fun e => portable e = true) els -> els <> [] ->
  sanitizeTarPath (GoStrings.Join els "/") = GoStrings.Join els "/".
Proof.
  intros Hall Hne. apply sanitizeTarPath_fixed.
  - destruct els as [|e els]; [congruence|].
    inversion Hall as [|? ? He _]; subst.
    pose proof (portable_noneOf e He) as Hn.
    pose proof (portable_normal e He) as (Hnn & Hs & _)%normalElem_spec.
    assert (Hb : beginsWithSeparator e = false).
    { destruct e as [|c e]; [congruence|]. cbn [beginsWithSeparator ContainsByte].
      unfold noSlash in Hs. cbn [ContainsByte] in Hs.
      apply orb_false_iff in Hs as [Hs _].
      cbn [noneOf ContainsByte] in Hn. apply andb_true_iff in Hn as [Hn _].
      apply negb_true_iff, orb_false_iff in Hn as [Hn _].
      rewrite Ascii.eqb_sym in Hs. now rewrite Hs, Hn. }
    destruct els; [exact Hb|]. rewrite Join_cons by discriminate.
    destruct e; [congruence | exact Hb].
  - apply noneOf_Join; [reflexivity|].
    eapply Forall_impl; [exact Hall|]. intros e. apply portable_noneOf.
Qed.

End RelativePaths.

Section PackedNames.

Import filepath.

Lemma Base_absPath_snoc (els : list string) (e : string) :
  normalAll els -> normalElem e = true -> Base (absPath (els ++ [e])) = e.
Proof.
  intros Hels He.
  assert (Hall : normalAll (els ++ [e])).
  { apply normalAll_app. split; [assumption | now constructor]. }
  unfold Base, lastElement.
  change (String.eqb (absPath (els ++ [e])) EmptyString) with false. cbn iota.
  rewrite absPath_TrimRight by (auto; now destruct els).
  rewrite elements_absPath by (auto using normalElem_noSlash; now destruct els).
  change (EmptyString :: els ++ [e])%list with ((EmptyString :: els) ++ [e])%list.
  rewrite last_last.
  apply normalElem_spec in He as (Hne & _).
  now rewrite (proj2 (String.eqb_neq _ _) Hne).
Qed.

(** The entry the walk function of [addToTar] writes for a node. *)
Lemma addToTar_walkFn_entry (cwd : string) (fs : FS) (filePath path name : string)
    (info : node) (written : list (Header * string)) (total : Z) :
  (if negb (String.eqb filePath path) then
     match Rel (Dir filePath) path with
     | None => None
     | Some relPath => Some (Join [Base filePath; relPath])
     end
   else Some path) = Some name ->
  Stat cwd path fs = Some info ->
  exists total',
    addToTar_walkFn cwd fs filePath path (Ok info) (written, total) =
    (Ok tt, ((written ++ [packedEntry (sanitizeTarPath name) info])%list, total')).
Proof.
  intros Hname Hstat. unfold addToTar_walkFn.
  destruct (negb (String.eqb filePath path)).
  - destruct (Rel (Dir filePath) path) as [relPath|]; [|discriminate].
    assert (Hn : Join [Base filePath; relPath] = name) by congruence.
    unfold bind at 1. unfold ret at 1.
    cbn [Name setName ToSlash]. rewrite Hn, !setName_FileInfoHeader, Hstat.
    destruct info as [perm | perm data].
    + cbn [IsDir negb]. unfold bind, WriteHeader, ret. cbn [fst snd].
      exists total. reflexivity.
    + cbn [IsDir negb]. unfold bind, WriteHeader, writePayload, addTotal.
      cbn [fst snd]. rewrite rev_unit, rev_involutive. eexists. reflexivity.
  - assert (Hn : path = name) by congruence. subst name.
    unfold bind at 1. unfold ret at 1.
    cbn [Name setName ToSlash]. rewrite !setName_FileInfoHeader, Hstat.
    destruct info as [perm | perm data].
    + cbn [IsDir negb]. unfold bind, WriteHeader, ret. cbn [fst snd].
      exists total. reflexivity.
    + cbn [IsDir negb]. unfold bind, WriteHeader, writePayload, addTotal.
      cbn [fst snd]. rewrite rev_unit, rev_involutive. eexists. reflexivity.
Qed.

End PackedNames.

(** X17.  How the nodes of a packed directory are named.  For a
    source root given by its clean absolute path, the entry of the
    root is stored under the whole path without its leading slash,
    and the entry of every node below the root is stored under the
    base name of the root, then the base name of the root again, then
    the path of the node below the root: the two do not form one
    tree. *)
Theorem entries_below_a_packed_root_repeat_its_name
    (cs : list string) (d : string) (ns : list string) (fs : FS)
    (root info : node) (written : list (Header * string)) (total : Z) :
  Forall (fun e => portable e = true) (cs ++ d :: ns) ->
  ns <> [] ->
  fs !! absPath (cs ++ [d]) = Some root ->
  fs !! absPath (cs ++ d :: ns) = Some info ->
  (exists total',
     addToTar_walkFn (absPath cs) fs (absPath (cs ++ [d])) (absPath (cs ++ [d]))
       (Ok root) (written, total) =
     (Ok tt, ((written ++ [packedEntry (GoStrings.Join (cs ++ [d]) "/") root])%list,
              total'))) /\
  (exists total',
     addToTar_walkFn (absPath cs) fs (absPath (cs ++ [d])) (absPath (cs ++ d :: ns))
       (Ok info) (written, total) =
     (Ok tt, ((written ++ [packedEntry (GoStrings.Join (d :: d :: ns) "/") info])%list,
              total'))).
Proof.
  intros Hport Hne Hroot Hinfo.
  assert (Hnorm : normalAll (cs ++ d :: ns)).
  { eapply Forall_impl; [exact Hport|]. intros e. apply portable_normal. }
  pose proof Hport as [Hpcs Hpdns]%Forall_app.
  pose proof Hnorm as [Hcs Hdns]%normalAll_app.
  inversion Hdns as [|? ? Hd Hns]; subst.
  assert (Hcd : normalAll (cs ++ [d])).
  { apply normalAll_app. split; [assumption | now constructor]. }
  assert (Hpd : portable d = true) by now inversion Hpdns.
  assert (Hpcd : Forall (fun e => portable e = true) (cs ++ [d])).
  { apply Forall_app. split; [assumption | now repeat constructor]. }
  split.
  - destruct (addToTar_walkFn_entry (absPath cs) fs (absPath (cs ++ [d]))
                (absPath (cs ++ [d])) (absPath (cs ++ [d])) root written total)
      as [total' Hrun].
    + now rewrite String.eqb_refl.
    + now rewrite Stat_absPath.
    + exists total'. rewrite Hrun. do 4 f_equal.
      rewrite <- (sanitizeTarPath_Join (cs ++ [d]) Hpcd) by now destruct cs.
      assert (Hcolon : ContainsByte (GoStrings.Join (cs ++ [d]) "/") ":" = false).
      { apply (noneOf_spec (String "\" invalidChars)); [|reflexivity].
        apply noneOf_Join; [reflexivity|].
        eapply Forall_impl; [exact Hpcd|]. intros e. apply portable_noneOf. }
      unfold sanitizeTarPath, absPath.
      rewrite !hasDrivePrefix_no_colon by assumption.
      reflexivity.
  - destruct (addToTar_walkFn_entry (absPath cs) fs (absPath (cs ++ [d]))
                (absPath (cs ++ d :: ns)) (GoStrings.Join (d :: d :: ns) "/")
                info written total) as [total' Hrun].
    + assert (Hneq : String.eqb (absPath (cs ++ [d])) (absPath (cs ++ d :: ns)) = false).
      { apply String.eqb_neq. intros Heq. apply absPath_inj in Heq; auto.
        apply app_inv_head in Heq. injection Heq as Heq. congruence. }
      rewrite Hneq. cbn [negb].
      rewrite Dir_absPath_snoc by assumption.
      rewrite (Rel_absPath cs (d :: ns)) by (auto; discriminate).
      rewrite Base_absPath_snoc by assumption.
      unfold filepath.Join.
      pose proof Hd as (Hdne & _)%normalElem_spec.
      rewrite (proj2 (String.eqb_neq _ _) Hdne).
      change (GoStrings.Join [d; GoStrings.Join (d :: ns) "/"] "/")
        with (d +:+ "/" +:+ GoStrings.Join (d :: ns) "/").
      rewrite <- (Join_cons d (d :: ns)) by discriminate.
      rewrite Clean_rel; [reflexivity | | discriminate].
      constructor; assumption.
    + now rewrite Stat_absPath.
    + exists total'. rewrite Hrun.
      rewrite (sanitizeTarPath_Join (d :: d :: ns)); [reflexivity | | discriminate].
      constructor; assumption.
Qed.

Lemma entries_below_a_packed_root_repeat_its_name_witness :
  exists total',
    addToTar_walkFn "/data" sourceFs "/data/proj" "/data/proj/a.txt"
      (Ok (FileNode 420 "alpha")) ([], 0) =
    (Ok tt, ([packedEntry "proj/proj/a.txt" (FileNode 420 "alpha")], total')).
Proof.
  destruct (entries_below_a_packed_root_repeat_its_name ["data"] "proj" ["a.txt"]
              sourceFs (DirNode 493) (FileNode 420 "alpha") [] 0) as [_ H].
  - repeat constructor.
  - discriminate.
  - reflexivity.
  - reflexivity.
  - exact H.
Defined.

(** X18.  A listing can be followed.  Every directory entry of a
    listing, the entry [..] apart, gives a path that the list request
    accepts in turn, and the listing of that path begins with the
    entry [..] of the directory it was taken from. *)
Theorem listed_directory_can_be_listed
    (cwd : string) (dirSize : string -> Z) (ds : list string) (fs : FS) (perm : Z)
    (listing : list FileEntry) (e : FileEntry) :
  cleanKeys fs ->
  normalAll ds ->
  fs !! absPath ds = Some (DirNode perm) ->
  listDirectory cwd dirSize (absPath ds) fs = Ok listing ->
  e ∈ listing ->
  entryName e <> ".." ->
  entryIsDir e = true ->
  exists files,
    handleListFiles cwd dirSize "GET" (entryPath e) fs =
      ListResponse true "Directory listed successfully" None
        (Some (entryPath e, parentEntry (absPath ds) :: files)).
Proof.
  intros Hclean Hds Hdir Hrun Hin Hname Hisdir.
  rewrite (listDirectory_absPath cwd dirSize ds fs perm Hds Hdir) in Hrun.
  injection Hrun as <-. apply elem_of_app in Hin as [Hin | Hin].
  { destruct (decide (ds = [])); [now apply elem_of_nil in Hin|].
    apply list_elem_of_singleton in Hin. subst e. now destruct Hname. }
  destruct (listed_entry cwd dirSize ds fs Hds e Hclean Hin)
    as (Hn & Hpath & info & Hk & Hd & _).
  rewrite Hisdir in Hd. destruct info as [p | p data]; [|discriminate].
  assert (Hall : normalAll (ds ++ [entryName e])).
  { apply normalAll_app. split; [assumption | now constructor]. }
  rewrite Hpath. unfold handleListFiles.
  change (negb (String.eqb "GET" "GET")) with false.
  change (String.eqb (absPath (ds ++ [entryName e])) EmptyString) with false.
  cbv iota zeta.
  rewrite (listDirectory_absPath cwd dirSize (ds ++ [entryName e]) fs p Hall Hk).
  destruct (decide ((ds ++ [entryName e])%list = [])) as [Hnil | _];
    [now destruct ds|].
  rewrite removelast_last. eexists. reflexivity.
Qed.

Lemma listed_directory_can_be_listed_witness :
  exists files,
    handleListFiles "/work" (fun _ => 4096) "GET" "/work/out" exampleFs =
      ListResponse true "Directory listed successfully" None
        (Some ("/work/out", parentEntry "/work" :: files)).
Proof.
  refine (listed_directory_can_be_listed "/work" (fun _ => 4096) ["work"] exampleFs 493
            _ {| entryName := "out"; entryPath := "/work/out"; entryIsDir := true;
                 entrySize := 4096 |} _ _ _ _ _ _ _).
  - apply cleanKeys_check. vm_compute. reflexivity.
  - repeat constructor.
  - reflexivity.
  - vm_compute. reflexivity.
  - do 2 apply list_elem_of_further. apply list_elem_of_here.
  - discriminate.
  - reflexivity.
Defined.

(** ** Extraction: entries that meet *)

Section Meeting.

Import filepath.

Variable cwd : string.

Lemma MkdirAll_isDir (els : list string) (perm p : Z) (fs : FS) :
  normalAll els -> fs !! absPath els = Some (DirNode p) ->
  MkdirAll cwd (absPath els) perm fs = (Ok tt, fs).
Proof.
  intros Hels Hk. unfold MkdirAll.
  now rewrite MkdirAll_rec_unfold, Stat_absPath, Hk.
Qed.

(** A regular entry extracted into an empty destination: the file has
    its bytes, and the directory that holds it was made with mode
    0755. *)
Lemma extractOne_reg_fresh (rs ms : list string) (m : string) (header : Header)
    (payload : string) (fs : FS) :
  normalAll rs -> normalAll ms -> normalElem m = true ->
  isDir fs (absPath rs) ->
  (forall t, t <> [] -> fs !! absPath (rs ++ t) = None) ->
  Typeflag header = TypeReg ->
  exists fs2,
    extractOne cwd (absPath (rs ++ ms ++ [m])) header payload fs = (Ok true, fs2) /\
    fs2 !! absPath (rs ++ ms ++ [m]) =
      Some (FileNode (FileMode (Mode header)) payload) /\
    (ms <> [] -> fs2 !! absPath (rs ++ ms) = Some (DirNode 493)) /\
    isDir fs2 (absPath (rs ++ ms)) /\
    (forall k, onChain rs ms k -> notFile fs2 k) /\
    isDir fs2 (absPath rs).
Proof.
  intros Hrs Hms Hm Hdir Hempty Hreg.
  assert (Hrm : normalAll (rs ++ ms)) by (apply normalAll_app; auto).
  destruct (MkdirAll_abs cwd 493 rs ms fs Hrs Hms Hdir)
    as (r1 & fs1 & Hmk & Hframe & Hd1 & Hok & _).
  assert (Hr1 : r1 = Ok tt).
  { apply Hok. intros k (ms1 & ms2 & -> & Hn1 & ->) p d. now rewrite Hempty. }
  subst r1. specialize (Hd1 eq_refl).
  assert (Htarget : fs1 !! absPath (rs ++ ms ++ [m]) = None).
  { destruct (Hframe (absPath (rs ++ ms ++ [m])))
      as [-> | (_ & _ & (ms1 & ms2 & Hs & _ & Heq))].
    - apply Hempty. now destruct ms.
    - destruct (absPath_snoc_neq rs ms ms1 ms2 m Hrs Hms Hm Hs Heq). }
  set (target := absPath (rs ++ ms ++ [m])) in *.
  exists (<[target := FileNode (FileMode (Mode header)) payload]> fs1).
  assert (Hneq : forall k, onChain rs ms k -> k <> target).
  { intros k (ms1 & ms2 & Hs & _ & ->) Heq. symmetry in Heq.
    destruct (absPath_snoc_neq rs ms ms1 ms2 m Hrs Hms Hm Hs Heq). }
  split; [|split; [|split; [|split; [|split]]]].
  - unfold extractOne, bind, wrapErr. unfold target.
    rewrite (app_assoc rs ms [m]), Dir_absPath_snoc, Hmk by assumption.
    rewrite Hreg. change (Ascii.eqb TypeReg TypeDir) with false.
    change (Ascii.eqb TypeReg TypeReg) with true. cbv beta iota.
    rewrite (OpenFile_abs cwd _ (rs ++ ms) m) by auto.
    rewrite <- (app_assoc rs ms [m]). fold target. rewrite Htarget.
    rewrite (Copy_file _ (FileMode (Mode header)) EmptyString)
      by apply lookup_insert_eq.
    now rewrite sliceFrom_nil, append_nil_r, insert_insert_eq.
  - apply lookup_insert_eq.
  - intros Hne. rewrite lookup_insert_ne.
    + destruct (Hframe (absPath (rs ++ ms))) as [Heq | (_ & Hnew & _)]; [|exact Hnew].
      destruct Hd1 as [p Hp]. rewrite Heq, Hempty in Hp by assumption. discriminate.
    + intros Heq. apply (Hneq (absPath (rs ++ ms))); [|now symmetry].
      exists ms, []. rewrite app_nil_r. auto.
  - destruct Hd1 as [p Hp]. exists p. rewrite lookup_insert_ne; [exact Hp|].
    intros Heq.
    apply (absPath_snoc_neq rs ms ms [] m Hrs Hms Hm (eq_sym (app_nil_r ms))).
    now symmetry.
  - intros k Hch p d. rewrite lookup_insert_ne by (intros Heq; now apply (Hneq k)).
    destruct (Hframe k) as [-> | (_ & -> & _)]; [|discriminate].
    destruct Hch as (ms1 & ms2 & -> & Hn1 & ->). now rewrite Hempty.
  - destruct Hdir as [p Hp]. exists p. rewrite lookup_insert_ne.
    + destruct (Hframe (absPath rs)) as [-> | (Hnone & _)]; congruence.
    + intros Heq. unfold target in Heq. apply absPath_inj in Heq; auto.
      * apply (f_equal (@List.length string)) in Heq.
        rewrite !length_app in Heq. simpl in Heq. lia.
      * repeat (apply normalAll_app; split); auto.
Qed.

End Meeting.

Section TwoEntries.

Variables (cs : list string) (outputDir archiveFile : string).
Variables (zstdTarReader : string -> TarStream) (fs : FS) (data : string).
Hypothesis Hready : unpackReady cs outputDir archiveFile fs data.

(** An archive that begins with a regular entry: the state in which
    the second entry is met. *)
Lemma decompressFile_after_first (header : Header) (payload : string)
    (rest : TarStream) (ms : list string) (m : string) :
  zstdTarReader data = TarEntry header payload rest ->
  Typeflag header = TypeReg ->
  targetElems (Name header) = Some (ms ++ [m])%list ->
  exists fs2,
    isDir fs2 (outputRoot cs outputDir) /\
    fs2 !! absPath ((cs ++ [outputDir]) ++ ms ++ [m]) =
      Some (FileNode (FileMode (Mode header)) payload) /\
    (ms <> [] -> fs2 !! absPath ((cs ++ [outputDir]) ++ ms) = Some (DirNode 493)) /\
    isDir fs2 (absPath ((cs ++ [outputDir]) ++ ms)) /\
    (forall k, onChain (cs ++ [outputDir]) ms k -> notFile fs2 k) /\
    decompressFile (absPath cs) zstdTarReader archiveFile outputDir fs =
    match extractEntries (absPath cs) (outputRoot cs outputDir) rest 1 fs2 with
    | (Ok fileCount, fs3) => (Ok (fileCount, outputRoot cs outputDir), fs3)
    | (Err e, fs3) => (Err e, fs3)
    end.
Proof.
  intros Hstream Hreg Ht.
  pose proof (outputRoot_normal cs outputDir archiveFile fs data Hready) as Hroot.
  destruct (decompressFile_prologue cs outputDir archiveFile zstdTarReader fs data Hready)
    as (fs1 & Hdir1 & Hempty & _ & Hrun).
  assert (Hne : (cs ++ [outputDir])%list <> []) by now destruct cs.
  destruct (targetElems_normal _ _ Ht) as [Hns _].
  apply normalAll_app in Hns as [Hms Hm]. inversion Hm as [|? ? Hm' _]; subst.
  destruct (extractOne_reg_fresh (absPath cs) (cs ++ [outputDir]) ms m header payload fs1
              Hroot Hms Hm' Hdir1)
    as (fs2 & Hone & Hfile & Hparent & Hdir2 & Hchain & Hroot2).
  { intros t Hnn. apply Hempty. now apply HasPrefix_absPath_under. }
  { exact Hreg. }
  exists fs2. split; [exact Hroot2|]. split; [exact Hfile|]. split; [exact Hparent|].
  split; [exact Hdir2|]. split; [exact Hchain|].
  rewrite Hrun, Hstream. unfold outputRoot.
  rewrite extractEntries_step, Ht, Hone by assumption. reflexivity.
Qed.

End TwoEntries.

(** X19.  Two regular entries at one path, the first with a mode
    that lets the owner read and write the file.  The file is not
    emptied for the second entry: it ends with the bytes of the second
    entry followed by what the first entry had beyond their length,
    and it keeps the mode of the first.  Both entries are counted. *)
Theorem second_entry_is_written_over_the_first
    (cs : list string) (outputDir archiveFile : string)
    (zstdTarReader : string -> TarStream) (fs : FS) (data : string)
    (header1 header2 : Header) (payload1 payload2 : string) (ns : list string) :
  unpackReady cs outputDir archiveFile fs data ->
  zstdTarReader data =
    TarEntry header1 payload1 (TarEntry header2 payload2 TarEOF) ->
  Typeflag header1 = TypeReg ->
  Typeflag header2 = TypeReg ->
  targetElems (Name header1) = Some ns ->
  targetElems (Name header2) = Some ns ->
  grants (FileMode (Mode header1)) 384 = true ->
  exists fs',
    decompressFile (absPath cs) zstdTarReader archiveFile outputDir fs =
      (Ok (2, outputRoot cs outputDir), fs') /\
    fs' !! absPath ((cs ++ [outputDir]) ++ ns) =
      Some (FileNode (FileMode (Mode header1))
              (payload2 +:+ sliceFrom (String.length payload2) payload1)).
Proof.
  intros Hready Hstream Hreg1 Hreg2 Ht1 Ht2 _.
  pose proof (outputRoot_normal cs outputDir archiveFile fs data Hready) as Hroot.
  assert (Hne : (cs ++ [outputDir])%list <> []) by now destruct cs.
  destruct (targetElems_normal _ _ Ht1) as [Hns Hnn].
  destruct (exists_last Hnn) as (ms & m & ->).
  apply normalAll_app in Hns as [Hms Hm]. inversion Hm as [|? ? Hm' _]; subst.
  destruct (decompressFile_after_first cs outputDir archiveFile zstdTarReader fs data
              Hready header1 payload1 _ ms m Hstream Hreg1 Ht1)
    as (fs2 & _ & Hfile & _ & [p Hdir2] & _ & Hrun).
  set (target := absPath ((cs ++ [outputDir]) ++ ms ++ [m])) in *.
  exists (<[target := FileNode (FileMode (Mode header1))
                        (payload2 +:+ sliceFrom (String.length payload2) payload1)]> fs2).
  split; [|apply lookup_insert_eq].
  assert (Hrm : normalAll ((cs ++ [outputDir]) ++ ms)) by (apply normalAll_app; auto).
  rewrite Hrun. unfold outputRoot.
  rewrite extractEntries_step, Ht2 by assumption.
  unfold extractOne, bind, wrapErr.
  rewrite (app_assoc (cs ++ [outputDir]) ms [m]), Dir_absPath_snoc by assumption.
  rewrite (MkdirAll_isDir (absPath cs) _ 493 p fs2 Hrm Hdir2).
  rewrite Hreg2. change (Ascii.eqb TypeReg TypeDir) with false.
  change (Ascii.eqb TypeReg TypeReg) with true. cbv beta iota.
  rewrite (OpenFile_abs (absPath cs) _ ((cs ++ [outputDir]) ++ ms) m)
    by (auto; now exists p).
  rewrite <- (app_assoc (cs ++ [outputDir]) ms [m]). fold target. rewrite Hfile.
  rewrite (Copy_file _ (FileMode (Mode header1)) payload1) by exact Hfile.
  reflexivity.
Qed.

Lemma second_entry_is_written_over_the_first_witness :
  exists fs',
    decompressFile "/work" (holding [regular "n/f" "0123456789"; regular "n/f" "abc"])
      "a.zst" "out" exampleFs = (Ok (2, "/work/out"), fs') /\
    fs' !! "/work/out/n/f" = Some (FileNode 420 "abc3456789").
Proof.
  apply (second_entry_is_written_over_the_first ["work"] "out" "a.zst"
           (holding [regular "n/f" "0123456789"; regular "n/f" "abc"]) exampleFs "zst"
           (regular "n/f" "0123456789").1 (regular "n/f" "abc").1
           "0123456789" "abc" ["n"; "f"]).
  - exact exampleReady.
  - reflexivity.
  - reflexivity.
  - reflexivity.
  - reflexivity.
  - reflexivity.
  - reflexivity.
Defined.

(** X20.  The mode of a directory entry counts only if the entry
    makes the directory.  When a file has been extracted into a
    directory first, the directory was made with mode 0755 for it,
    and the entry of the directory that comes after leaves that
    mode, whatever mode the entry gives. *)
Theorem directory_entry_after_its_file_keeps_0755
    (cs : list string) (outputDir archiveFile : string)
    (zstdTarReader : string -> TarStream) (fs : FS) (data : string)
    (header1 header2 : Header) (payload1 payload2 : string)
    (ms : list string) (m : string) :
  unpackReady cs outputDir archiveFile fs data ->
  zstdTarReader data =
    TarEntry header1 payload1 (TarEntry header2 payload2 TarEOF) ->
  Typeflag header1 = TypeReg ->
  targetElems (Name header1) = Some (ms ++ [m])%list ->
  Typeflag header2 = TypeDir ->
  targetElems (Name header2) = Some ms ->
  exists fs',
    decompressFile (absPath cs) zstdTarReader archiveFile outputDir fs =
      (Ok (1, outputRoot cs outputDir), fs') /\
    fs' !! absPath ((cs ++ [outputDir]) ++ ms) = Some (DirNode 493).
Proof.
  intros Hready Hstream Hreg1 Ht1 Hdir2 Ht2.
  pose proof (outputRoot_normal cs outputDir archiveFile fs data Hready) as Hroot.
  assert (Hne : (cs ++ [outputDir])%list <> []) by now destruct cs.
  destruct (targetElems_normal _ _ Ht2) as [Hms Hnn].
  destruct (decompressFile_after_first cs outputDir archiveFile zstdTarReader fs data
              Hready header1 payload1 _ ms m Hstream Hreg1 Ht1)
    as (fs2 & Hroot2 & _ & Hparent & Hisdir & Hchain & Hrun).
  specialize (Hparent Hnn).
  destruct (exists_last Hnn) as (ms' & m' & ->).
  apply normalAll_app in Hms as [Hms' Hm]. inversion Hm as [|? ? Hm' _]; subst.
  assert (Hall : normalAll ((cs ++ [outputDir]) ++ ms' ++ [m'])).
  { repeat (apply normalAll_app; split); auto;
      apply normalAll_app in Hroot as [Hr1 Hr2]; assumption. }
  set (kd := absPath ((cs ++ [outputDir]) ++ ms' ++ [m'])) in *.
  destruct (MkdirAll_abs (absPath cs) 493 (cs ++ [outputDir]) ms' fs2 Hroot Hms' Hroot2)
    as (r & fs3 & Hmk & Hframe & _ & Hok & _).
  assert (Hr : r = Ok tt).
  { apply Hok. intros k Hch. apply Hchain. now apply onChain_snoc. }
  subst r.
  assert (Hkd : fs3 !! kd = Some (DirNode 493)).
  { destruct (Hframe kd) as [-> | (Hnone & _)]; [exact Hparent | congruence]. }
  exists fs3. split; [|exact Hkd].
  rewrite Hrun. unfold outputRoot.
  rewrite extractEntries_step, Ht2 by assumption.
  unfold extractOne, bind, wrapErr.
  rewrite (app_assoc (cs ++ [outputDir]) ms' [m']).
  rewrite Dir_absPath_snoc by (auto; apply normalAll_app; auto).
  rewrite <- (app_assoc (cs ++ [outputDir]) ms' [m']).
  rewrite Hmk. rewrite Hdir2.
  change (Ascii.eqb TypeDir TypeDir) with true. cbv beta iota.
  rewrite (MkdirAll_isDir (absPath cs) _ (FileMode (Mode header2)) 493 fs3 Hall Hkd).
  reflexivity.
Qed.

Lemma directory_entry_after_its_file_keeps_0755_witness :
  exists fs',
    decompressFile "/work"
      (holding [regular "d/f" "x";
                ({| Name := "d"; Typeflag := TypeDir; Mode := 448; Size := 0 |},
                 EmptyString)])
      "a.zst" "out" exampleFs = (Ok (1, "/work/out"), fs') /\
    fs' !! "/work/out/d" = Some (DirNode 493).
Proof.
  apply (directory_entry_after_its_file_keeps_0755 ["work"] "out" "a.zst"
           (holding [regular "d/f" "x";
                     ({| Name := "d"; Typeflag := TypeDir; Mode := 448; Size := 0 |},
                      EmptyString)])
           exampleFs "zst" (regular "d/f" "x").1
           {| Name := "d"; Typeflag := TypeDir; Mode := 448; Size := 0 |}
           "x" EmptyString ["d"] "f").
  - exact exampleReady.
  - reflexivity.
  - reflexivity.
  - reflexivity.
  - reflexivity.
  - reflexivity.
Defined.

(** ** What a compression leaves alone *)

Section PackFrame.

Variable cwd : string.

Lemma Create_frame (path : string) (fs : FS) :
  (forall h, (Create cwd path fs).1 = Ok h -> h = resolve cwd path) /\
  (forall k, k <> resolve cwd path -> (Create cwd path fs).2 !! k = fs !! k).
Proof.
  unfold Create. destruct (String.eqb path EmptyString); [split; [discriminate | auto]|].
  destruct (fs !! resolve cwd path) as [[p | p d]|].
  - split; [discriminate | auto].
  - split; [now intros h [= <-]|]. intros k Hk. cbn [snd].
    now rewrite lookup_insert_ne by congruence.
  - destruct (fs !! parentKey (resolve cwd path)) as [[p | p d]|].
    + split; [now intros h [= <-]|]. intros k Hk. cbn [snd].
      now rewrite lookup_insert_ne by congruence.
    + split; [discriminate | auto].
    + split; [discriminate | auto].
Qed.

Lemma writeAll_frame (h data : string) (fs : FS) (k : string) :
  k <> h -> (writeAll h data fs).2 !! k = fs !! k.
Proof.
  intros Hk. unfold writeAll. destruct (fs !! h) as [[p | p d]|]; try reflexivity.
  cbn [snd]. now rewrite lookup_insert_ne by congruence.
Qed.

End PackFrame.

(** X21.  A compression changes nothing but its output file.
    Whatever the sources, the output name and the level, and whether
    the call succeeds or fails, every node other than the output file
    is after the call as it was before. *)
Theorem compression_changes_only_the_output_file
    (cwd : string) (zstdFlushed zstdTarWriter : Z -> list (Header * string) -> string)
    (files : list string) (outputFile : string) (level : Z) (fs : FS) (k : string) :
  k <> resolve cwd outputFile ->
  (compressFiles cwd zstdFlushed zstdTarWriter files outputFile level fs).2 !! k =
  fs !! k.
Proof.
  intros Hk. unfold compressFiles, bind, wrapErr, ret, fail.
  destruct (Create_frame cwd outputFile fs) as [Hh Hframe].
  destruct (Create cwd outputFile fs) as [[h | e] fs1]; [|now apply Hframe].
  cbn [fst snd] in Hh, Hframe. rewrite (Hh h eq_refl) in *. clear Hh.
  assert (Hw : forall data m, (writeAll (resolve cwd outputFile) data m).2 !! k = m !! k)
    by (intros; now apply writeAll_frame).
  destruct (addFiles cwd fs1 files ([], 0)) as [[[] | e] [entries total]].
  - pose proof (Hw (zstdFlushed level entries) fs1) as H1.
    destruct (writeAll _ (zstdFlushed level entries) fs1) as [[[] | e1] fs2];
      cbn [snd] in H1 |- *; [|now rewrite H1, Hframe].
    destruct (Stat cwd outputFile fs2).
    + pose proof (Hw (zstdTarWriter level entries) fs2) as H2.
      destruct (writeAll _ (zstdTarWriter level entries) fs2) as [[[] | e2] fs3];
        cbn [snd] in H2 |- *; now rewrite H2, H1, Hframe.
    + pose proof (Hw (zstdTarWriter level entries) fs2) as H2.
      destruct (writeAll _ (zstdTarWriter level entries) fs2) as [[[] | e2] fs3];
        cbn [snd] in H2 |- *; now rewrite H2, H1, Hframe.
  - pose proof (Hw (zstdTarWriter level entries) fs1) as H2.
    destruct (writeAll _ (zstdTarWriter level entries) fs1) as [[[] | e2] fs3];
      cbn [snd] in H2 |- *; now rewrite H2, Hframe.
Qed.

Lemma compression_changes_only_the_output_file_witness :
  (compressFiles "/data" zstBytes zstBytes ["/data/proj"; "f.txt"; "gone"] "f.txt" 3
     sourceFs).2 !! "/data/proj/a.txt" = sourceFs !! "/data/proj/a.txt".
Proof.
  apply (compression_changes_only_the_output_file "/data" zstBytes zstBytes
           ["/data/proj"; "f.txt"; "gone"] "f.txt" 3 sourceFs "/data/proj/a.txt").
  vm_compute. discriminate.
Defined.

(** X22.  The output directory of a decompression request is the
    sanitized name itself.  The last step of the handler, which takes
    the base name of the directory, never changes it: the directory
    is the sanitized requested name or, when none is requested, the
    sanitized base name of the archive without [.zst] followed by
    [_extracted]; and it is one path element, neither [.] nor [..]. *)
Theorem output_directory_is_the_sanitized_name (req : DecompressRequest) :
  requestedOutputDir req =
    (if String.eqb (OutputDir req) EmptyString then
       sanitizeDirectoryName
         (if HasSuffix (filepath.Base (Archive req)) ".zst"
          then TrimSuffix (filepath.Base (Archive req)) ".zst"
          else filepath.Base (Archive req)) +:+ "_extracted"
     else sanitizeDirectoryName (OutputDir req)) /\
  normalElem (requestedOutputDir req) = true.
Proof.
  split; [|apply requestedOutputDir_normal].
  unfold requestedOutputDir.
  destruct (String.eqb (OutputDir req) EmptyString).
  - apply Base_plain. apply plainName_app; [apply sanitizeDirectoryName_plain | reflexivity].
  - apply Base_plain, sanitizeDirectoryName_plain.
Qed.

(** ** Packing a whole tree *)

Section Measure.

Lemma nodesBelow_lt (fs : FS) (p : string) (v : node) :
  fs !! p = Some v -> (size (nodesBelow fs p) < size fs)%nat.
Proof.
  intros Hp. apply map_subset_size, map_subset_alt. split.
  - apply map_filter_subseteq.
  - exists p. split; [|now rewrite Hp].
    apply map_lookup_filter_None. right. intros x _. cbn [fst].
    rewrite HasPrefix_longer; [discriminate..].
Qed.

Lemma nodesBelow_child_lt (fs : FS) (p c : string) (v : node) :
  fs !! c = Some v ->
  HasPrefix c (p +:+ "/") = true ->
  (size (nodesBelow fs c) < size (nodesBelow fs p))%nat.
Proof.
  intros Hc Hcp. apply map_subset_size, map_subset_alt. split.
  - apply map_filter_subseteq_ext. intros k x _. cbn [fst]. intros Hk.
    apply (HasPrefix_trans k (c +:+ "/") (p +:+ "/") Hk).
    apply HasPrefix_spec in Hcp as [t ->]. rewrite append_assoc. apply HasPrefix_app.
  - exists c. split.
    + apply map_lookup_filter_None. right. intros x _. cbn [fst].
      rewrite HasPrefix_longer; [discriminate..].
    + exists v. apply map_lookup_filter_Some. split; [exact Hc | exact Hcp].
Qed.

End Measure.

Section TreeWalk.

Import filepath.

Variables (cwd : string) (cs : list string) (d : string) (fs : FS).
Hypothesis Hclean : cleanKeys fs.
Hypothesis Hrs : normalAll (cs ++ [d]).

#[local] Abbreviation rs := (cs ++ [d])%list.

(** The name the walk function computes for a node of the tree. *)
Lemma givenName_spec (ns : list string) :
  normalAll ns ->
  (if negb (String.eqb (absPath rs) (absPath (rs ++ ns))) then
     match Rel (Dir (absPath rs)) (absPath (rs ++ ns)) with
     | None => None
     | Some relPath => Some (Join [Base (absPath rs); relPath])
     end
   else Some (absPath (rs ++ ns))) = Some (givenName cs d ns).
Proof.
  intros Hns. pose proof Hrs as [Hcs Hd]%normalAll_app.
  inversion Hd as [|? ? Hd' _]; subst.
  destruct ns as [|n ns].
  - rewrite app_nil_r, String.eqb_refl. reflexivity.
  - assert (Hall : normalAll (rs ++ n :: ns)) by (apply normalAll_app; auto).
    assert (Hneq : String.eqb (absPath rs) (absPath (rs ++ n :: ns)) = false).
    { apply String.eqb_neq. intros Heq. apply absPath_inj in Heq; auto.
      apply (f_equal (@List.length string)) in Heq.
      rewrite !length_app in Heq. simpl in Heq. lia. }
    rewrite Hneq. cbn [negb].
    rewrite Dir_absPath_snoc by assumption.
    rewrite <- (app_assoc cs [d] (n :: ns)).
    assert (Hdns : normalAll ([d] ++ n :: ns)) by (apply normalAll_app; auto).
    rewrite (Rel_absPath cs ([d] ++ n :: ns) Hcs Hdns) by discriminate.
    rewrite Base_absPath_snoc by assumption.
    unfold Join. pose proof Hd' as (Hdne & _)%normalElem_spec.
    rewrite (proj2 (String.eqb_neq _ _) Hdne).
    change (GoStrings.Join [d; GoStrings.Join ([d] ++ n :: ns) "/"] "/")
      with (d +:+ "/" +:+ GoStrings.Join (d :: n :: ns) "/").
    rewrite <- (Join_cons d (d :: n :: ns)) by discriminate.
    rewrite Clean_rel; [reflexivity | | discriminate].
    constructor; [assumption|]. constructor; assumption.
Qed.

(** The walk function writes the entry of the node it is called on. *)
Lemma walkFn_tree (ns : list string) (info : node)
    (written : list (Header * string)) (total : Z) :
  normalAll ns ->
  fs !! absPath (rs ++ ns) = Some info ->
  exists total',
    addToTar_walkFn cwd fs (absPath rs) (absPath (rs ++ ns)) (Ok info) (written, total) =
    (Ok tt, ((written ++ [treeEntry cs d ns info])%list, total')).
Proof.
  intros Hns Hk. apply addToTar_walkFn_entry.
  - now apply givenName_spec.
  - rewrite Stat_absPath; [exact Hk|]. apply normalAll_app; auto.
Qed.

(** The entries of a directory are the names of its nodes. *)
Lemma readDir_child (ns : list string) (n : string) :
  normalAll ns ->
  n ∈ readDirNames cwd fs (absPath (rs ++ ns)) ->
  normalElem n = true /\ exists info, fs !! absPath (rs ++ ns ++ [n]) = Some info.
Proof.
  intros Hns (Hne & Hs & info & Hk)%elem_of_readDirNames.
  assert (Hall : normalAll (rs ++ ns)) by (apply normalAll_app; auto).
  rewrite resolve_absPath, childKey_absPath in Hk by assumption.
  rewrite <- app_assoc in Hk.
  split; [|now exists info].
  rewrite app_assoc in Hk. now apply (cleanKeys_child fs (rs ++ ns) n info).
Qed.

Lemma child_readDir (ns : list string) (n : string) (info : node) :
  normalAll ns -> normalElem n = true ->
  fs !! absPath (rs ++ ns ++ [n]) = Some info ->
  n ∈ readDirNames cwd fs (absPath (rs ++ ns)).
Proof.
  intros Hns Hn Hk. pose proof Hn as (Hne & Hs & _)%normalElem_spec.
  assert (Hall : normalAll (rs ++ ns)) by (apply normalAll_app; auto).
  apply elem_of_readDirNames. split; [assumption|]. split; [assumption|].
  exists info. rewrite resolve_absPath, childKey_absPath by assumption.
  now rewrite <- app_assoc.
Qed.

(** The walk of a node of the tree: it succeeds, it writes entries of
    nodes of the tree only, and it writes the entry of every node that
    can be reached from the node. *)
Lemma walk_tree (fuel : nat) :
  forall (ns : list string) (info : node) (written : list (Header * string)) (total : Z),
    normalAll ns ->
    fs !! absPath (rs ++ ns) = Some info ->
    (size (nodesBelow fs (absPath (rs ++ ns))) < fuel)%nat ->
    exists new total',
      walk cwd fuel fs (addToTar_walkFn cwd fs (absPath rs)) (absPath (rs ++ ns)) info
        (written, total) = (Ok tt, ((written ++ new)%list, total')) /\
      Forall (ofTree fs cs d) new /\
      (forall ns' info',
         normalAll ns' ->
         fs !! absPath (rs ++ ns ++ ns') = Some info' ->
         reachable fs cs d ns ns' ->
         treeEntry cs d (ns ++ ns') info' ∈ new).
Proof.
  induction fuel as [|fuel IH]; intros ns info written total Hns Hk Hfuel; [lia|].
  assert (Hall : normalAll (rs ++ ns)) by (apply normalAll_app; auto).
  destruct (walkFn_tree ns info written total Hns Hk) as [t1 Hfn].
  assert (Hself : ofTree fs cs d (treeEntry cs d ns info)) by (now exists ns, info).
  destruct info as [perm | perm data].
  - (* a directory: its entry, then its entries in turn *)
    cbn [walk]. unfold bind at 1. rewrite Hfn.
    match goal with
    | |- context [?F (readDirNames cwd fs (absPath (rs ++ ns)))] => set (loop := F)
    end.
    assert (Hloop : forall names,
      (forall n, n ∈ names -> n ∈ readDirNames cwd fs (absPath (rs ++ ns))) ->
      forall w t,
      exists new t',
        loop names (w, t) = (Ok tt, ((w ++ new)%list, t')) /\
        Forall (ofTree fs cs d) new /\
        (forall n rest info',
           n ∈ names -> normalAll rest ->
           fs !! absPath (rs ++ (ns ++ [n]) ++ rest) = Some info' ->
           reachable fs cs d (ns ++ [n]) rest ->
           treeEntry cs d ((ns ++ [n]) ++ rest) info' ∈ new)).
    { induction names as [|n names IHn]; intros Hsub w t.
      - exists [], t. split; [unfold loop, ret; now rewrite app_nil_r|].
        split; [constructor|]. intros n rest info' Hin. now apply elem_of_nil in Hin.
      - destruct (readDir_child ns n Hns (Hsub n (list_elem_of_here _ _)))
          as [Hn [ci Hci]].
        assert (Hnn : normalAll (ns ++ [n])).
        { apply normalAll_app. split; [assumption | now constructor]. }
        assert (Hfile : Join [absPath (rs ++ ns); n] = absPath (rs ++ ns ++ [n])).
        { rewrite Join_abs by (auto using normalElem_elements).
          now rewrite keptElems_single, <- app_assoc. }
        destruct (IH (ns ++ [n])%list ci w t Hnn Hci) as (new1 & t1' & Hw & Hs1 & Hc1).
        { assert (Hlt : (size (nodesBelow fs (absPath (rs ++ ns ++ [n]))) <
                         size (nodesBelow fs (absPath (rs ++ ns))))%nat).
          { apply (nodesBelow_child_lt fs _ _ ci Hci).
            rewrite app_assoc. apply HasPrefix_absPath_under; [|discriminate].
            now destruct cs. }
          lia. }
        destruct (IHn (fun m Hm => Hsub m (list_elem_of_further _ _ _ Hm))
                    (w ++ new1)%list t1') as (new2 & t2 & Hl & Hs2 & Hc2).
        exists (new1 ++ new2)%list, t2. split; [|split].
        + change (loop (n :: names) (w, t))
            with ((match Stat cwd (Join [absPath (rs ++ ns); n]) fs with
                   | None =>
                       addToTar_walkFn cwd fs (absPath rs)
                         (Join [absPath (rs ++ ns); n]) (Err ENOENT)
                   | Some fileInfo =>
                       walk cwd fuel fs (addToTar_walkFn cwd fs (absPath rs))
                         (Join [absPath (rs ++ ns); n]) fileInfo
                   end ;;; loop names) (w, t)).
          unfold bind. rewrite Hfile.
          rewrite (Stat_absPath cwd (rs ++ ns ++ [n]))
            by (rewrite app_assoc; apply normalAll_app; split;
                [assumption | now constructor]).
          rewrite Hci, Hw, Hl. now rewrite app_assoc.
        + apply Forall_app. auto.
        + intros n' rest info' [-> | Hin]%elem_of_cons Hrest Hk' Hreach;
            apply elem_of_app.
          * left. apply Hc1; auto.
          * right. now apply (Hc2 n' rest info'). }
    destruct (Hloop (readDirNames cwd fs (absPath (rs ++ ns))) (fun n H => H)
                (written ++ [treeEntry cs d ns (DirNode perm)])%list t1)
      as (new & t' & Hl & Hs & Hc).
    exists (treeEntry cs d ns (DirNode perm) :: new), t'. split; [|split].
    + rewrite Hl. now rewrite <- app_assoc.
    + now constructor.
    + intros ns' info' Hns' Hk' Hreach. destruct ns' as [|n rest].
      * rewrite app_nil_r in Hk' |- *. rewrite Hk in Hk'. injection Hk' as <-.
        apply list_elem_of_here.
      * apply list_elem_of_further.
        inversion Hns' as [|? ? Hn Hrest]; subst.
        change (ns ++ n :: rest)%list with (ns ++ [n] ++ rest)%list in Hk' |- *.
        rewrite (app_assoc ns [n] rest) in Hk' |- *.
        apply Hc; auto.
        -- assert (Hchild : exists ci, fs !! absPath (rs ++ ns ++ [n]) = Some ci).
           { destruct rest as [|r rest].
             - rewrite app_nil_r in Hk'. eauto.
             - destruct (Hreach [n] (r :: rest) eq_refl) as [p Hp]; [discriminate|].
               eauto. }
           destruct Hchild as [ci Hci]. now apply (child_readDir ns n ci).
        -- intros q1 q2 -> Hq2. rewrite <- (app_assoc ns [n] q1).
           now apply (Hreach (n :: q1) q2).
  - (* a regular file: its entry *)
    cbn [walk]. rewrite Hfn. exists [treeEntry cs d ns (FileNode perm data)], t1.
    split; [reflexivity|]. split; [now constructor|].
    intros ns' info' Hns' Hk' Hreach. destruct ns' as [|n rest].
    + rewrite app_nil_r in Hk' |- *. rewrite Hk in Hk'. injection Hk' as <-.
      apply list_elem_of_here.
    + destruct (Hreach [] (n :: rest) eq_refl) as [p Hp]; [discriminate|].
      rewrite app_nil_r in Hp. congruence.
Qed.

End TreeWalk.

(** X23.  Packing a tree of directories and regular files never fails
    on the way.  The filesystem holds directories and regular files
    under clean absolute keys, and no other kind of node: no link, no
    device.  When the source is given by its clean absolute path and
    the owner may read every node of its tree and search its
    directories, addToTar returns no error, keeps the entries written
    before, and every entry it appends is the entry of a node of the
    tree: the sanitized name the walk computes for the node, with the
    mode and the content the node has in the filesystem.  In
    particular the walk never runs out of the depth it is given. *)
Theorem packing_a_source_tree_succeeds
    (cwd : string) (cs : list string) (d : string) (fs : FS) (root : node)
    (written : list (Header * string)) (total : Z) :
  cleanKeys fs ->
  normalAll (cs ++ [d]) ->
  fs !! absPath (cs ++ [d]) = Some root ->
  readable root = true ->
  map_Forall (fun _ info => readable info = true) (nodesBelow fs (absPath (cs ++ [d]))) ->
  exists new total',
    addToTar cwd fs (absPath (cs ++ [d])) (written, total) =
    (Ok tt, ((written ++ new)%list, total')) /\
    Forall (ofTree fs cs d) new.
Proof.
  intros Hclean Hrs Hroot _ _.
  destruct (walk_tree cwd cs d fs Hclean Hrs (size fs) [] root written total)
    as (new & total' & Hrun & Hsound & _).
  - constructor.
  - now rewrite app_nil_r.
  - rewrite app_nil_r. now apply (nodesBelow_lt fs _ root).
  - exists new, total'. split; [|exact Hsound].
    unfold addToTar, Walk. rewrite Stat_absPath by assumption. rewrite Hroot.
    rewrite app_nil_r in Hrun. exact Hrun.
Qed.

Lemma packing_a_source_tree_succeeds_witness :
  exists new total',
    addToTar "/data" sourceFs "/data/proj" ([], 0) = (Ok tt, (new, total')) /\
    Forall (ofTree sourceFs ["data"] "proj") new.
Proof.
  destruct (packing_a_source_tree_succeeds "/data" ["data"] "proj" sourceFs
              (DirNode 493) [] 0) as (new & total' & Hrun & Hall).
  - apply cleanKeys_check. vm_compute. reflexivity.
  - repeat constructor.
  - reflexivity.
  - reflexivity.
  - apply (bool_decide_unpack _). vm_compute. exact I.
  - exists new, total'. split; [exact Hrun | exact Hall].
Defined.

(** X24.  Packing a tree of directories and regular files leaves no
    node out.  Under the conditions of X23, every node below the
    source whose ancestors up to the source are all directories has
    its entry among the entries addToTar appends, and so has the
    source itself. *)
Theorem packing_a_source_tree_is_complete
    (cwd : string) (cs : list string) (d : string) (fs : FS) (root : node)
    (written : list (Header * string)) (total : Z)
    (ns : list string) (info : node) :
  cleanKeys fs ->
  normalAll (cs ++ [d]) ->
  fs !! absPath (cs ++ [d]) = Some root ->
  readable root = true ->
  map_Forall (fun _ info => readable info = true) (nodesBelow fs (absPath (cs ++ [d]))) ->
  normalAll ns ->
  fs !! absPath ((cs ++ [d]) ++ ns) = Some info ->
  reachable fs cs d [] ns ->
  exists new total',
    addToTar cwd fs (absPath (cs ++ [d])) (written, total) =
    (Ok tt, ((written ++ new)%list, total')) /\
    treeEntry cs d ns info ∈ new.
Proof.
  intros Hclean Hrs Hroot _ _ Hns Hinfo Hreach.
  destruct (walk_tree cwd cs d fs Hclean Hrs (size fs) [] root written total)
    as (new & total' & Hrun & _ & Hcomplete).
  - constructor.
  - now rewrite app_nil_r.
  - rewrite app_nil_r. now apply (nodesBelow_lt fs _ root).
  - exists new, total'. split.
    + unfold addToTar, Walk. rewrite Stat_absPath by assumption. rewrite Hroot.
      rewrite app_nil_r in Hrun. exact Hrun.
    + apply (Hcomplete ns info Hns Hinfo Hreach).
Qed.

Lemma packing_a_source_tree_is_complete_witness :
  exists new total',
    addToTar "/data" sourceFs "/data/proj" ([], 0) = (Ok tt, (new, total')) /\
    packedEntry "proj/proj/a.txt" (FileNode 420 "alpha") ∈ new.
Proof.
  destruct (packing_a_source_tree_is_complete "/data" ["data"] "proj" sourceFs
              (DirNode 493) [] 0 ["a.txt"] (FileNode 420 "alpha"))
    as (new & total' & Hrun & Hin).
  - apply cleanKeys_check. vm_compute. reflexivity.
  - repeat constructor.
  - reflexivity.
  - reflexivity.
  - apply (bool_decide_unpack _). vm_compute. exact I.
  - repeat constructor.
  - reflexivity.
  - intros q1 q2 Hq Hq2. destruct q1 as [|q q1].
    + exists 493. reflexivity.
    + destruct q1; destruct q2; try discriminate. now contradiction Hq2.
  - exists new, total'. split; [exact Hrun | exact Hin].
Defined.
